(** * OnlyBinge streaming client: session guard, entitlement gate,
      embed player failover and watch-progress tracking

    A shallow embedding of the stateful core of [src/streaming-platform.js].
    Every JavaScript function that is modelled keeps its name; the module
    variables it reads and writes, the browser objects it touches and the
    answers of the remote collaborators (identity provider, datastore,
    embed providers) are fields of an explicit world record that the
    functions thread through a small exception monad. *)

From Stdlib Require Import ZArith QArith Qround Lia Lqa Floats Ascii String.
From stdpp Require Import gmap strings list pretty sorting.

Local Open Scope string_scope.
Local Open Scope list_scope.
Local Open Scope Z_scope.

(** ** Completions and the effect monad

    A JavaScript call either completes normally with a value or throws
    (an awaited promise that rejects throws at the [await]).  Effects that
    happened before a throw stay in the world. *)

Inductive completion (A : Type) : Type :=
| Normal (a : A)
| Thrown (what : string).
Arguments Normal {A} a.
Arguments Thrown {A} what.

Definition eff (W A : Type) : Type := W -> completion A * W.

Definition ret {W A} (a : A) : eff W A := fun w => (Normal a, w).

Definition bind {W A B} (c : eff W A) (k : A -> eff W B) : eff W B :=
  fun w =>
    match c w with
    | (Normal a, w') => k a w'
    | (Thrown e, w') => (Thrown e, w')
    end.

Definition throw {W A} (e : string) : eff W A := fun w => (Thrown e, w).

(** [try { c } catch (e) { h e }] *)
Definition try_catch {W A} (c : eff W A) (h : string -> eff W A) : eff W A :=
  fun w =>
    match c w with
    | (Normal a, w') => (Normal a, w')
    | (Thrown e, w') => h e w'
    end.

(** [try { c } finally { f }] *)
Definition try_finally {W A} (c : eff W A) (f : eff W unit) : eff W A :=
  fun w =>
    match c w with
    | (r, w') =>
        match f w' with
        | (Normal _, w'') => (r, w'')
        | (Thrown e, w'') => (Thrown e, w'')
        end
    end.

Definition gets {W A} (f : W -> A) : eff W A := fun w => (Normal (f w), w).
Definition modify {W} (f : W -> W) : eff W unit := fun w => (Normal tt, f w).

Notation "'let*' x ':=' c 'in' k" := (bind c (fun x => k))
  (at level 10, x pattern, c at level 100, k at level 200).

(** How a remote collaborator answers one awaited call: with a result,
    with a reported failure (the [{ data: null, error }] shape of the
    datastore client), or by rejecting the promise. *)
Inductive reply : Type :=
| Answers
| Reports (code : string)
| Rejects.

(** ** JavaScript string primitives used by the code *)

(** Truthiness of a string: every string but the empty one. *)
Definition truthy_str (s : string) : bool := negb (String.eqb s EmptyString).

(** Truthiness of a nullable string ([null] and [undefined] are falsy). *)
Definition truthy_ostr (o : option string) : bool :=
  match o with Some s => truthy_str s | None => false end.

(** [a || b] on nullable strings. *)
Definition or_else (a b : option string) : option string :=
  if truthy_ostr a then a else b.

(** [String.prototype.toUpperCase] on the ASCII range; code units outside
    [a-z] are left as they are. *)
Definition upper_ascii (c : ascii) : ascii :=
  let n := nat_of_ascii c in
  if (97 <=? n)%nat && (n <=? 122)%nat then ascii_of_nat (n - 32) else c.

Fixpoint toUpperCase (s : string) : string :=
  match s with
  | EmptyString => EmptyString
  | String c r => String (upper_ascii c) (toUpperCase r)
  end.

(** [String.prototype.includes]. *)
Fixpoint includes (s needle : string) : bool :=
  String.prefix needle s
  || match s with
     | EmptyString => false
     | String _ r => includes r needle
     end.

(** The authenticated user object of the identity provider. *)
Record user : Type := { id : string; email : string }.

(** * SessionGuard: single-device session enforcement *)

Module Session.

(** One row of the [active_sessions] table, keyed by [user_id] in the
    table below.  Change-feed payloads carry partial rows, so every
    column is nullable. *)
Record session_row : Type := {
  device_id : option string;
  is_active : option bool;
  session_flag : option string;
  last_heartbeat : option Z
}.

#[global] Instance session_row_eq_dec : EqDecision session_row.
Proof. solve_decision. Defined.

(** What the outside can observe of a run, in order. *)
Inductive event : Type :=
| ConsoleError (what : string)
| ConsoleWarn (what : string)
| Notification (message kind : string)
| AuthSignOut
| UpsertSent (user_id : string) (row : session_row)
| ChannelRemoved
| UnauthenticatedUI.

#[global] Instance session_event_eq_dec : EqDecision event.
Proof. solve_decision. Defined.

(** How the browser and the remote collaborators behave during a run:
    these are inputs of the model, never written by the code. *)
Record answers : Type := {
  setItem_throws : bool;               (* localStorage.setItem throws *)
  randomUUID : option string;          (* [None]: crypto.randomUUID throws *)
  time_random_id : string;             (* Date.now() and Math.random() in base 36 *)
  clock : Z;                           (* new Date(), in milliseconds *)
  select_reply : reply;
  upsert_reply : reply;
  signOut_reply : reply
}.

(** [_heartbeatIntervalId] holds the interval that [setInterval]
    returned, named here by the user and device its callback writes;
    [intervals] are the heartbeat intervals that have been set and not
    cleared, the ones that still tick, in the order they were set. *)
Record world : Type := {
  localStorage : gmap string string;
  active_sessions : gmap string session_row;
  _sessionChannel : option (string * string);
  _heartbeatIntervalId : option (string * string);
  intervals : list (string * string);
  trace : list event
}.

Definition set_localStorage (m : gmap string string) (w : world) : world :=
  {| localStorage := m; active_sessions := active_sessions w;
     _sessionChannel := _sessionChannel w;
     _heartbeatIntervalId := _heartbeatIntervalId w;
     intervals := intervals w; trace := trace w |}.

Definition set_active_sessions (m : gmap string session_row) (w : world) : world :=
  {| localStorage := localStorage w; active_sessions := m;
     _sessionChannel := _sessionChannel w;
     _heartbeatIntervalId := _heartbeatIntervalId w;
     intervals := intervals w; trace := trace w |}.

Definition set_sessionChannel (c : option (string * string)) (w : world) : world :=
  {| localStorage := localStorage w; active_sessions := active_sessions w;
     _sessionChannel := c;
     _heartbeatIntervalId := _heartbeatIntervalId w;
     intervals := intervals w; trace := trace w |}.

Definition set_heartbeatIntervalId (h : option (string * string)) (w : world) : world :=
  {| localStorage := localStorage w; active_sessions := active_sessions w;
     _sessionChannel := _sessionChannel w;
     _heartbeatIntervalId := h;
     intervals := intervals w; trace := trace w |}.

Definition set_intervals (l : list (string * string)) (w : world) : world :=
  {| localStorage := localStorage w; active_sessions := active_sessions w;
     _sessionChannel := _sessionChannel w;
     _heartbeatIntervalId := _heartbeatIntervalId w;
     intervals := l; trace := trace w |}.

Definition emit (e : event) : eff world unit :=
  modify (fun w =>
    {| localStorage := localStorage w; active_sessions := active_sessions w;
       _sessionChannel := _sessionChannel w;
       _heartbeatIntervalId := _heartbeatIntervalId w;
       intervals := intervals w;
       trace := trace w ++ [e] |}).

(** The list without the first element equal to [h], and without the
    last one. *)
Fixpoint without_first (h : string * string) (l : list (string * string))
  : list (string * string) :=
  match l with
  | [] => []
  | x :: r => if decide (x = h) then r else x :: without_first h r
  end.

Definition without_last (h : string * string) (l : list (string * string))
  : list (string * string) :=
  reverse (without_first h (reverse l)).

(** [setInterval(callback, 60 * 1000)], and [clearInterval(h)] of the
    interval the variable holds: of those with that name, the one set
    last. *)
Definition setInterval (h : string * string) : eff world unit :=
  modify (fun w => set_intervals (intervals w ++ [h]) w).

Definition clearInterval (h : string * string) : eff world unit :=
  modify (fun w => set_intervals (without_last h (intervals w)) w).

Section Code.
Variable a : answers.

(** *** Browser storage and randomness *)

Definition KEY : string := "nf_device_id".

Definition localStorage_getItem (k : string) : eff world (option string) :=
  gets (fun w => localStorage w !! k).

(** [localStorage.setItem] throws when the quota is exhausted or storage
    is disabled. *)
Definition localStorage_setItem (k v : string) : eff world unit :=
  fun w =>
    if setItem_throws a then (Thrown "QuotaExceededError", w)
    else (Normal tt, set_localStorage (<[k := v]> (localStorage w)) w).

Definition crypto_randomUUID : eff world string :=
  match randomUUID a with
  | Some u => ret u
  | None => throw "TypeError"
  end.

Definition getDeviceId : eff world string :=
  let* d := localStorage_getItem KEY in
  if negb (truthy_ostr d) then
    let* d := try_catch crypto_randomUUID (fun _ => ret (time_random_id a)) in
    let* _ := localStorage_setItem KEY d in
    ret d
  else ret (default EmptyString d).

(** *** Datastore and identity provider *)

(** [.from('active_sessions').select('*').eq('user_id', uid).maybeSingle()]:
    the pair [{ data, error }]. *)
Definition select_maybeSingle (uid : string)
  : eff world (option session_row * option string) :=
  match select_reply a with
  | Answers => gets (fun w => (active_sessions w !! uid, None))
  | Reports c => ret (None, Some c)
  | Rejects => throw "select rejected"
  end.

(** An upsert writes the columns it is given and keeps the others of a
    row that is already there. *)
Definition merge_row (patch : session_row) (old : option session_row) : session_row :=
  match old with
  | None => patch
  | Some o =>
      {| device_id := if device_id patch is Some _ then device_id patch else device_id o;
         is_active := if is_active patch is Some _ then is_active patch else is_active o;
         session_flag := if session_flag patch is Some _ then session_flag patch else session_flag o;
         last_heartbeat := if last_heartbeat patch is Some _ then last_heartbeat patch else last_heartbeat o |}
  end.

Definition upsert (uid : string) (patch : session_row) : eff world unit :=
  let* _ := emit (UpsertSent uid patch) in
  match upsert_reply a with
  | Answers =>
      modify (fun w =>
        set_active_sessions
          (<[uid := merge_row patch (active_sessions w !! uid)]> (active_sessions w)) w)
  | Reports _ => ret tt
  | Rejects => throw "upsert rejected"
  end.

Definition auth_signOut : eff world unit :=
  let* _ := emit AuthSignOut in
  match signOut_reply a with
  | Rejects => throw "signOut rejected"
  | _ => ret tt
  end.

Definition showNotification (message kind : string) : eff world unit :=
  emit (Notification message kind).

Definition showUnauthenticatedUI : eff world unit := emit UnauthenticatedUI.

(** *** Heartbeat and realtime subscription *)

Definition stopHeartbeat : eff world unit :=
  let* h := gets _heartbeatIntervalId in
  if h is Some h then
    let* _ := clearInterval h in
    modify (set_heartbeatIntervalId None)
  else ret tt.

Definition startHeartbeat (userId deviceId : string) : eff world unit :=
  let* _ := stopHeartbeat in
  let* _ := setInterval (userId, deviceId) in
  modify (set_heartbeatIntervalId (Some (userId, deviceId))).

(** One tick of the 60 s interval: only the device and the time are
    written. *)
Definition heartbeat_tick (userId deviceId : string) : eff world unit :=
  try_catch
    (upsert userId
       {| device_id := Some deviceId; is_active := None;
          session_flag := None; last_heartbeat := Some (clock a) |})
    (fun _ => emit (ConsoleError "heartbeat error")).

Definition startSessionRealtimeSubscription (userId deviceId : string) : eff world unit :=
  let* c := gets _sessionChannel in
  let* _ := if c is Some _
            then let* _ := emit ChannelRemoved in modify (set_sessionChannel None)
            else ret tt in
  modify (set_sessionChannel (Some (userId, deviceId))).

Definition stopSessionRealtimeSubscription : eff world unit :=
  let* c := gets _sessionChannel in
  if c is Some _
  then let* _ := emit ChannelRemoved in modify (set_sessionChannel None)
  else ret tt.

(** *** registerSessionForUser *)

(** [existing && existing.is_active && existing.device_id &&
     existing.device_id !== deviceId] *)
Definition foreign_active (existing : option session_row) (deviceId : string) : bool :=
  match existing with
  | None => false
  | Some r =>
      bool_decide (is_active r = Some true)
      && truthy_ostr (device_id r)
      && negb (bool_decide (device_id r = Some deviceId))
  end.

Definition registerSessionForUser (u : user) : eff world bool :=
  let* deviceId := getDeviceId in
  try_catch
    (let* (existing, selErr) := select_maybeSingle (id u) in
     let* _ := if selErr is Some _
               then emit (ConsoleError "Error checking active_sessions:")
               else ret tt in
     if foreign_active existing deviceId then
       let* _ := auth_signOut in
       let* _ := showNotification
                   "Account already active on another device. Please sign out there first."
                   "error" in
       ret false
     else
       let* _ := upsert (id u)
                   {| device_id := Some deviceId;
                      is_active := Some true;
                      session_flag := Some "S";
                      last_heartbeat := Some (clock a) |} in
       let* _ := startSessionRealtimeSubscription (id u) deviceId in
       let* _ := startHeartbeat (id u) deviceId in
       ret true)
    (fun _ =>
       let* _ := emit (ConsoleError "registerSessionForUser error") in
       ret false).

(** *** forceLocalSignOut and the realtime handler *)

Definition forceLocalSignOut (message : string) : eff world unit :=
  let* _ := stopHeartbeat in
  let* _ := stopSessionRealtimeSubscription in
  let* _ := try_catch auth_signOut
              (fun _ => emit (ConsoleWarn "force signout supabase.auth.signOut failed")) in
  let* _ := showNotification message "warning" in
  showUnauthenticatedUI.

Definition endSessionForUser (u : user) : eff world unit :=
  try_finally
    (try_catch
       (let* deviceId := getDeviceId in
        upsert (id u)
          {| device_id := Some deviceId; is_active := Some false;
             session_flag := Some "N"; last_heartbeat := Some (clock a) |})
       (fun _ => emit (ConsoleError "endSessionForUser error")))
    (let* _ := stopHeartbeat in stopSessionRealtimeSubscription).

(** A change-feed message.  [new] and [old] are objects or absent; an
    object with no columns (what the feed sends as [new] on a delete) is
    a row whose fields are all [None]. *)
Record payload : Type := {
  eventType : option string;
  event_ : option string;
  new : option session_row;
  old : option session_row
}.

Definition msg_deleted : string :=
  "Your session was ended (deleted) – you have been signed out.".
Definition msg_disabled : string :=
  "Your session was disabled by admin – you have been signed out.".
Definition msg_other_device : string :=
  "Your account was used on another device – signed out here.".

(** [relevantRow.session_flag && relevantRow.session_flag.toUpperCase() === 'N'] *)
Definition flag_is_N (r : session_row) : bool :=
  match session_flag r with
  | Some f => truthy_str f && String.eqb (toUpperCase f) "N"
  | None => false
  end.

Definition handleSessionChange (p : payload) (myDeviceId : string) : eff world unit :=
  try_catch
    (let eventType := or_else (eventType p) (event_ p) in
     let newRow := new p in
     let oldRow := old p in
     let relevantRow := if newRow is Some _ then newRow else oldRow in
     match relevantRow with
     | None => ret tt
     | Some relevantRow =>
         if bool_decide (eventType = Some "DELETE") then
           match oldRow with
           | None => throw "TypeError"
           | Some oldRow =>
               if bool_decide (device_id oldRow = Some myDeviceId)
               then forceLocalSignOut msg_deleted
               else ret tt
           end
         else if bool_decide (is_active relevantRow = Some false) || flag_is_N relevantRow
         then forceLocalSignOut msg_disabled
         else if truthy_ostr (device_id relevantRow)
                 && negb (bool_decide (device_id relevantRow = Some myDeviceId))
         then forceLocalSignOut msg_other_device
         else ret tt
     end)
    (fun _ => emit (ConsoleError "handleSessionChange error")).

End Code.

(** Number of forced local sign-outs in a trace: [forceLocalSignOut] is
    the only function of the session code that switches to the
    unauthenticated view. *)
Definition forced_signouts (t : list event) : nat :=
  length (filter (fun e => e = UnauthenticatedUI) t).

End Session.

(** * EntitlementGate *)

Module Entitlement.

(** One row of [allowed_users], keyed by [email] in the table. *)
Record allowed_row : Type := {
  approved : option bool;
  expiry_date : option string
}.

(** The object [isAllowedUser] resolves to; an absent property is [None]. *)
Record access : Type := {
  allowed : bool;
  reason : option string;
  expiryDate : option string
}.

Inductive event : Type :=
| ConsoleError (what : string).

Record answers : Type := {
  lookup_reply : reply;
  now : Z                              (* new Date(), in milliseconds *)
}.

Record world : Type := {
  allowed_users : gmap string allowed_row;
  trace : list event
}.

Definition emit (e : event) : eff world unit :=
  modify (fun w => {| allowed_users := allowed_users w; trace := trace w ++ [e] |}).

Section Code.
Variable a : answers.
(** [new Date(s).getTime()]; [None] is the Invalid Date, whose time is NaN. *)
Variable Date_parse : string -> option Z.

(** [.from("allowed_users").select(...).eq("email", email).single()]:
    [single] reports code PGRST116 when no row matches. *)
Definition select_single (email : string)
  : eff world (option allowed_row * option string) :=
  match lookup_reply a with
  | Answers =>
      gets (fun w =>
        match allowed_users w !! email with
        | Some r => (Some r, None)
        | None => (None, Some "PGRST116")
        end)
  | Reports c => ret (None, Some c)
  | Rejects => throw "select rejected"
  end.

(** [expiryDate < now] on two Date objects; false when either is NaN. *)
Definition date_before (d : option Z) (n : Z) : bool :=
  match d with
  | Some t => t <? n
  | None => false
  end.

Definition isAllowedUser (email : string) : eff world access :=
  try_catch
    (let* (data, error) := select_single email in
     if (if error is Some c then negb (String.eqb c "PGRST116") else false) then
       let* _ := emit (ConsoleError "Error checking allowed users:") in
       ret {| allowed := false; reason := Some "error"; expiryDate := None |}
     else
       match data with
       | None =>
           ret {| allowed := false; reason := Some "not_found"; expiryDate := None |}
       | Some data =>
           if negb (bool_decide (approved data = Some true)) then
             ret {| allowed := false; reason := Some "not_approved"; expiryDate := None |}
           else if truthy_ostr (expiry_date data)
                   && date_before (Date_parse (default EmptyString (expiry_date data))) (now a)
           then
             ret {| allowed := false; reason := Some "expired"; expiryDate := None |}
           else
             ret {| allowed := true; reason := None; expiryDate := expiry_date data |}
       end)
    (fun _ =>
       let* _ := emit (ConsoleError "Unexpected error checking allowed users:") in
       ret {| allowed := false; reason := Some "error"; expiryDate := None |}).

End Code.

End Entitlement.

(** * Numbers

    A JavaScript number is an IEEE 754 binary64 value.  The finite ones
    are rationals and are held as such; comparisons and [Math.floor] are
    exact on them, while a quotient or a product is the double nearest
    to the exact result, a tie going to the double with the even
    significand. *)

Module Binary64.

Local Open Scope Q_scope.

(** The integer nearest to [x], the even one of two that are equally
    near. *)
Definition rne (x : Q) : Z :=
  let q := Qfloor x in
  match Qcompare (x - inject_Z q) (1 # 2) with
  | Lt => q
  | Gt => (q + 1)%Z
  | Eq => if Z.even q then q else (q + 1)%Z
  end.

(** The smallest positive double is [1 / unit64]: every double is a
    whole number of such units. *)
Definition unit64 : Q := inject_Z (2 ^ 1074).

(** A double has 53 significant bits: of a magnitude of [n] units, with
    [2 ^ k <= n < 2 ^ (k + 1)], the doubles nearby are the multiples of
    [2 ^ (k - 52)] units (of one unit up to [2 ^ 53]). *)
Definition shift64 (n : Q) : Z := Z.max 0 (Z.log2 (Qfloor n) - 52).

Definition round_units (n : Q) : Z :=
  let s := shift64 n in (2 ^ s * rne (n / inject_Z (2 ^ s)))%Z.

Definition round64_pos (x : Q) : Q :=
  Qred (inject_Z (round_units (x * unit64)) / unit64).

(** The double nearest to [x].  Past the largest double the arithmetic
    gives an infinity: [infinity64] or more stands for it, and the
    opposite for the negative one. *)
Definition round64 (x : Q) : Q :=
  match Qcompare 0 x with
  | Eq => 0
  | Lt => round64_pos x
  | Gt => - round64_pos (- x)
  end.

Definition infinity64 : Q := inject_Z (2 ^ 1024).

(** [x / y], for [x] and [y] that are not both zero: a number other
    than zero divided by zero is an infinity. *)
Definition div64 (x y : Q) : Q :=
  if Qeq_bool y 0 then
    match Qcompare 0 x with
    | Lt => infinity64
    | Gt => - infinity64
    | Eq => 0
    end
  else round64 (x / y).

(** [x * y]. *)
Definition mul64 (x y : Q) : Q := round64 (x * y).

End Binary64.

(** * WatchProgressTracker *)

Module Progress.

Import Binary64.
Local Open Scope Q_scope.

Definition Qltb (x y : Q) : bool := negb (Qle_bool y x).

Record media_item : Type := {
  media_id : Z;
  media_type : string;
  title : option string;
  name : option string;
  poster_path : option string
}.

(** One row of [continue_watching], keyed by [(user_id, media_id)]. *)
Record cw_row : Type := {
  row_media_type : string;
  row_title : option string;
  row_poster_path : option string;
  watch_progress : Z;
  total_duration : Z;
  last_watched_at : Z;
  completed : bool;
  season : option Z;
  episode : option Z
}.

(** An element of the in-memory [continueWatching] array. *)
Record cw_item : Type := {
  item_id : Z;
  item_media_type : string;
  item_title : option string;
  item_name : option string;
  item_poster_path : option string;
  item_watch_progress : Z;
  item_total_duration : Z;
  progress_percentage : Q;
  item_season : Z;
  item_episode : Z
}.

Inductive event : Type :=
| ConsoleError (what : string)
| ConsoleLog (what : string)
| UpsertSent (user_id : string) (media : Z) (row : cw_row).

Record answers : Type := {
  upsert_reply : reply;
  select_reply : reply;
  select_error_message : string;       (* [error.message] of a reported failure *)
  clock : Z
}.

Record world : Type := {
  currentUser : option user;
  currentSeason : Z;
  currentEpisode : Z;
  continue_watching : gmap (string * Z) cw_row;
  continueWatching : list cw_item;
  trace : list event
}.

Definition emit (e : event) : eff world unit :=
  modify (fun w =>
    {| currentUser := currentUser w; currentSeason := currentSeason w;
       currentEpisode := currentEpisode w;
       continue_watching := continue_watching w;
       continueWatching := continueWatching w; trace := trace w ++ [e] |}).

Definition set_continue_watching (m : gmap (string * Z) cw_row) (w : world) : world :=
  {| currentUser := currentUser w; currentSeason := currentSeason w;
     currentEpisode := currentEpisode w; continue_watching := m;
     continueWatching := continueWatching w; trace := trace w |}.

Definition set_continueWatching (l : list cw_item) (w : world) : world :=
  {| currentUser := currentUser w; currentSeason := currentSeason w;
     currentEpisode := currentEpisode w;
     continue_watching := continue_watching w;
     continueWatching := l; trace := trace w |}.

(** [const progressPercent = duration > 0 ? (currentTime / duration) * 100 : 0] *)
Definition progressPercent (currentTime duration : Q) : Q :=
  if Qltb 0 duration then mul64 (div64 currentTime duration) 100 else 0.

(** [item.total_duration > 0 ? (item.watch_progress / item.total_duration) * 100 : 0] *)
Definition item_percentage (r : cw_row) : Q :=
  if (0 <? total_duration r)%Z
  then mul64 (div64 (inject_Z (watch_progress r)) (inject_Z (total_duration r))) 100
  else 0.

(** [x || 1] on a nullable number. *)
Definition or_one (x : option Z) : Z :=
  match x with
  | Some v => if (v =? 0)%Z then 1%Z else v
  | None => 1%Z
  end.

(** The callback of [data.map] in [loadContinueWatching]. *)
Definition to_item (media : Z) (r : cw_row) : cw_item :=
  {| item_id := media;
     item_media_type := row_media_type r;
     item_title := row_title r;
     item_name := row_title r;
     item_poster_path := row_poster_path r;
     item_watch_progress := watch_progress r;
     item_total_duration := total_duration r;
     progress_percentage := item_percentage r;
     item_season := or_one (season r);
     item_episode := or_one (episode r) |}.

(** [.order('last_watched_at', { ascending: false })] *)
Definition more_recent (x y : Z * cw_row) : Prop :=
  (last_watched_at (snd y) <= last_watched_at (snd x))%Z.

#[global] Instance more_recent_dec x y : Decision (more_recent x y).
Proof. unfold more_recent. apply _. Defined.

Section Code.
Variable a : answers.

Definition upsert (uid : string) (media : Z) (r : cw_row) : eff world (option string) :=
  let* _ := emit (UpsertSent uid media r) in
  match upsert_reply a with
  | Answers =>
      let* _ := modify (fun w =>
                  set_continue_watching (<[(uid, media) := r]> (continue_watching w)) w) in
      ret None
  | Reports c => ret (Some c)
  | Rejects => throw "upsert rejected"
  end.

Definition updateWatchProgress (mediaItem : option media_item) (currentTime duration : Q)
  : eff world unit :=
  let* user := gets currentUser in
  match user, mediaItem with
  | Some user, Some mediaItem =>
      if Qltb currentTime 60 then ret tt
      else
        try_catch
          (let progressPercent := progressPercent currentTime duration in
           let completed := Qltb 90 progressPercent in
           let* season := gets currentSeason in
           let* episode := gets currentEpisode in
           let tv := String.eqb (media_type mediaItem) "tv" in
           let* error :=
             upsert (id user) (media_id mediaItem)
               {| row_media_type := media_type mediaItem;
                  row_title := or_else (title mediaItem) (name mediaItem);
                  row_poster_path := poster_path mediaItem;
                  watch_progress := Qfloor currentTime;
                  total_duration := Qfloor duration;
                  last_watched_at := clock a;
                  completed := completed;
                  season := if tv then Some season else None;
                  episode := if tv then Some episode else None |} in
           if error is Some e then throw e else ret tt)
          (fun _ => emit (ConsoleError "Error updating watch progress:"))
  | _, _ => ret tt
  end.

(** The rows the query of [loadContinueWatching] returns: this user's,
    not completed, at least 60 seconds in, most recently watched first,
    twelve at most. *)
Definition query_rows (uid : string) (t : gmap (string * Z) cw_row) : list (Z * cw_row) :=
  let mine :=
    omap (fun kr : string * Z * cw_row =>
            let '(u, m, r) := kr in
            if String.eqb u uid && negb (completed r) && (60 <=? watch_progress r)%Z
            then Some (m, r) else None)
         (map_to_list t) in
  take 12 (merge_sort more_recent mine).

Definition loadContinueWatching : eff world unit :=
  let* user := gets currentUser in
  match user with
  | None => ret tt
  | Some user =>
      try_catch
        (match select_reply a with
         | Answers =>
             let* t := gets continue_watching in
             modify (set_continueWatching
                       (map (fun mr => to_item (fst mr) (snd mr)) (query_rows (id user) t)))
         | Reports c =>
             if String.eqb c "42P01"
                || includes (select_error_message a) "does not exist" then
               let* _ := emit (ConsoleLog "Continue watching table doesn't exist yet") in
               modify (set_continueWatching [])
             else throw c
         | Rejects => throw "select rejected"
         end)
        (fun _ =>
           let* _ := emit (ConsoleError "Error loading continue watching:") in
           modify (set_continueWatching []))
  end.

End Code.

End Progress.

(** * EmbedPlayer: gate, source list, load, retry and failover

    The embedded document and the timers are modelled as a discrete-event
    system: the world holds the clock, the pending timers and the answer
    of the network to the navigation in progress, and [step] delivers the
    earliest pending event to the handler the code registered for it. *)

Module Player.

Record media_item : Type := {
  media_id : Z;
  media_type : option string;
  title : option string;
  name : option string;
  resumeSeason : option Z;
  resumeEpisode : option Z
}.

Record source : Type := { source_name : string; url : string }.

(** The variables one call of [loadSource] closes over. *)
Record closure : Type := {
  index : Z;
  captured_source : source;
  retryCount : Z;
  loadTimeout : nat
}.

(** What the embedded document signals for one navigation. *)
Inductive arrival : Type :=
| ErrorEvent
| LoadEvent (subframes : nat).

(** How the network answers a navigation, relative to its start. *)
Inductive response : Type :=
| Hangs
| ErrorsAfter (delay : Z)
| LoadsAfter (delay : Z) (subframes : nat).

Record iframe : Type := {
  src : string;
  contentWindow_length : nat;
  onerror : option nat;               (* the closure whose handler is installed *)
  onload : bool;
  load_once : list nat;               (* once-listeners: the timer each clears *)
  pending : option (Z * arrival)
}.

(** Callbacks handed to [setTimeout]. *)
Inductive job : Type :=
| RetryAttempt (c : nat)              (* attemptLoad of closure c *)
| LoadTimeoutExpired (i : Z)          (* the 10 s check of loadSource(i) *)
| LoadNext (i : Z).                   (* () => loadSource(i) *)

Record timer : Type := { timer_id : nat; due : Z; callback : job }.

Inductive event : Type :=
| Notification (message kind : string)
| PaymentModalOpened
| PlayerHeaderRendered (title : option string)
| SeasonsRequested (show : option Z)
| SourceButtonsPopulated (count : nat)
| PlayerModalOpened
| VideoLoadingShown
| VideoLoadingHidden
| SrcAssigned (i : Z) (src : string)
| SourceFailureHandled (i : Z)        (* entry into handleSourceFailure *)
| UncaughtError (what : string).

#[global] Instance player_event_eq_dec : EqDecision event.
Proof. solve_decision. Defined.

Record answers : Type := {
  (** the answer to the n-th navigation of the run, to the given address *)
  network : nat -> string -> response
}.

Record vars : Type := {
  currentUser : option user;
  isUserApproved : bool;
  currentMediaType : option string;
  currentMediaId : option Z;
  currentMediaTitle : option string;
  currentMediaData : option media_item;
  currentSeason : Z;
  currentEpisode : Z;
  embedSources : list source;
  watchStartTime : option Z;
  playerInterval : bool
}.

Record browser : Type := {
  video_frame : option iframe;
  closures : list closure;
  timers : list timer;
  next_timer_id : nat;
  navigations : nat;
  now : Z
}.

Record world : Type := { state : vars; dom : browser; trace : list event }.

Definition with_state (f : vars -> vars) : eff world unit :=
  modify (fun w => {| state := f (state w); dom := dom w; trace := trace w |}).

Definition with_dom (f : browser -> browser) : eff world unit :=
  modify (fun w => {| state := state w; dom := f (dom w); trace := trace w |}).

Definition emit (e : event) : eff world unit :=
  modify (fun w => {| state := state w; dom := dom w; trace := trace w ++ [e] |}).

Definition set_media (t : option string) (i : option Z) (ti : option string)
    (d : option media_item) (v : vars) : vars :=
  {| currentUser := currentUser v; isUserApproved := isUserApproved v;
     currentMediaType := t; currentMediaId := i; currentMediaTitle := ti;
     currentMediaData := d;
     currentSeason := currentSeason v; currentEpisode := currentEpisode v;
     embedSources := embedSources v; watchStartTime := watchStartTime v;
     playerInterval := playerInterval v |}.

Definition set_season_episode (s e : Z) (v : vars) : vars :=
  {| currentUser := currentUser v; isUserApproved := isUserApproved v;
     currentMediaType := currentMediaType v; currentMediaId := currentMediaId v;
     currentMediaTitle := currentMediaTitle v;
     currentMediaData := currentMediaData v;
     currentSeason := s; currentEpisode := e;
     embedSources := embedSources v; watchStartTime := watchStartTime v;
     playerInterval := playerInterval v |}.

Definition set_embedSources (l : list source) (v : vars) : vars :=
  {| currentUser := currentUser v; isUserApproved := isUserApproved v;
     currentMediaType := currentMediaType v; currentMediaId := currentMediaId v;
     currentMediaTitle := currentMediaTitle v;
     currentMediaData := currentMediaData v;
     currentSeason := currentSeason v; currentEpisode := currentEpisode v;
     embedSources := l; watchStartTime := watchStartTime v;
     playerInterval := playerInterval v |}.

Definition set_watch (t : option Z) (interval : bool) (v : vars) : vars :=
  {| currentUser := currentUser v; isUserApproved := isUserApproved v;
     currentMediaType := currentMediaType v; currentMediaId := currentMediaId v;
     currentMediaTitle := currentMediaTitle v;
     currentMediaData := currentMediaData v;
     currentSeason := currentSeason v; currentEpisode := currentEpisode v;
     embedSources := embedSources v; watchStartTime := t;
     playerInterval := interval |}.

Definition set_video_frame (f : option iframe) (b : browser) : browser :=
  {| video_frame := f; closures := closures b; timers := timers b;
     next_timer_id := next_timer_id b; navigations := navigations b; now := now b |}.

Definition set_closures (l : list closure) (b : browser) : browser :=
  {| video_frame := video_frame b; closures := l; timers := timers b;
     next_timer_id := next_timer_id b; navigations := navigations b; now := now b |}.

Definition set_timers (l : list timer) (n : nat) (b : browser) : browser :=
  {| video_frame := video_frame b; closures := closures b; timers := l;
     next_timer_id := n; navigations := navigations b; now := now b |}.

Definition set_navigations (n : nat) (b : browser) : browser :=
  {| video_frame := video_frame b; closures := closures b; timers := timers b;
     next_timer_id := next_timer_id b; navigations := n; now := now b |}.

Definition set_now (t : Z) (b : browser) : browser :=
  {| video_frame := video_frame b; closures := closures b; timers := timers b;
     next_timer_id := next_timer_id b; navigations := navigations b; now := t |}.

(** *** Timers *)

Definition setTimeout (cb : job) (delay : Z) : eff world nat :=
  let* b := gets dom in
  let tid := next_timer_id b in
  let* _ := with_dom (set_timers
              (timers b ++ [{| timer_id := tid; due := now b + delay; callback := cb |}])
              (S tid)) in
  ret tid.

Definition clearTimeout (tid : nat) : eff world unit :=
  with_dom (fun b =>
    set_timers (filter (fun t => timer_id t <> tid) (timers b)) (next_timer_id b) b).

Section Code.
Variable a : answers.

Definition showNotification (message kind : string) : eff world unit :=
  emit (Notification message kind).

Definition openPaymentModal : eff world unit := emit PaymentModalOpened.
Definition showVideoLoadingState : eff world unit := emit VideoLoadingShown.
Definition hideVideoLoadingState : eff world unit := emit VideoLoadingHidden.

(** A number or [null] inside a template literal. *)
Definition show (x : option Z) : string :=
  match x with Some n => pretty n | None => "null" end.

(** *** buildEmbedSources *)

Definition buildEmbedSources : eff world unit :=
  let* v := gets state in
  let i := show (currentMediaId v) in
  let se := "/" +:+ pretty (currentSeason v) +:+ "/" +:+ pretty (currentEpisode v) in
  if bool_decide (currentMediaType v = Some "movie") then
    with_state (set_embedSources
      [ {| source_name := "Source 1"; url := "https://111movies.com/movie/" +:+ i |};
        {| source_name := "Source 2"; url := "https://player.videasy.net/movie/" +:+ i |};
        {| source_name := "Source 3"; url := "https://vidsrc.xyz/embed/movie/" +:+ i |};
        {| source_name := "Source 4"; url := "https://vidsrc.me/embed/movie/" +:+ i |} ])
  else if bool_decide (currentMediaType v = Some "tv") then
    with_state (set_embedSources
      [ {| source_name := "Source 1"; url := "https://111movies.com/tv/" +:+ i +:+ se |};
        {| source_name := "Source 2"; url := "https://player.videasy.net/tv/" +:+ i +:+ se |};
        {| source_name := "Source 3"; url := "https://vidsrc.xyz/embed/tv/" +:+ i +:+ se |};
        {| source_name := "Source 4"; url := "https://vidsrc.me/embed/tv/" +:+ i +:+ se |} ])
  else ret tt.

Definition populateSourceButtons : eff world unit :=
  let* l := gets (fun w => embedSources (state w)) in
  emit (SourceButtonsPopulated (length l)).

(** [embedSources[i]]: [undefined] outside the array. *)
Definition source_at (l : list source) (i : Z) : option source :=
  if i <? 0 then None else l !! Z.to_nat i.

(** *** handleSourceFailure *)

Definition handleSourceFailure (currentIndex : Z) : eff world unit :=
  let* _ := emit (SourceFailureHandled currentIndex) in
  let* _ := hideVideoLoadingState in
  let* l := gets (fun w => embedSources (state w)) in
  match l with
  | [] =>
      (* (currentIndex + 1) % 0 is NaN, and embedSources[NaN].name throws *)
      throw "TypeError"
  | _ =>
      let nextIndex := Z.rem (currentIndex + 1) (Z.of_nat (length l)) in
      if negb (nextIndex =? currentIndex) then
        match source_at l nextIndex with
        | None => throw "TypeError"
        | Some next =>
            let* _ := showNotification ("Trying " +:+ source_name next +:+ "...") "warning" in
            let* _ := setTimeout (LoadNext nextIndex) 1000 in
            ret tt
        end
      else
        showNotification "All sources failed. Please try again later." "error"
  end.

(** *** loadSource and its inner attemptLoad *)

Definition maxRetries : Z := 2.

(** Assigning [iframe.src] starts a navigation; the one in progress, if
    any, is abandoned together with the event it would have fired. *)
Definition navigate (i : Z) (address : string) : eff world unit :=
  let* b := gets dom in
  match video_frame b with
  | None => ret tt
  | Some f =>
      let n := navigations b in
      let arrives :=
        match network a n address with
        | Hangs => None
        | ErrorsAfter d => Some (now b + d, ErrorEvent)
        | LoadsAfter d k => Some (now b + d, LoadEvent k)
        end in
      let* _ := with_dom (fun b =>
                  set_navigations (S n)
                    (set_video_frame
                       (Some {| src := address;
                                contentWindow_length := contentWindow_length f;
                                onerror := onerror f; onload := onload f;
                                load_once := load_once f;
                                pending := arrives |}) b)) in
      emit (SrcAssigned i address)
  end.

Definition attemptLoad (c : nat) : eff world unit :=
  let* b := gets dom in
  match closures b !! c, video_frame b with
  | Some cl, Some f =>
      let* _ := with_dom (set_video_frame
                  (Some {| src := src f;
                           contentWindow_length := contentWindow_length f;
                           onerror := Some c; onload := true;
                           load_once := load_once f;
                           pending := pending f |})) in
      let u := url (captured_source cl) in
      navigate (index cl)
        (u +:+ (if includes u "?" then "&" else "?") +:+ "t=" +:+ pretty (now b))
  | _, _ => ret tt
  end.

(** The [iframe.onerror] handler installed by closure [c]. *)
Definition onerror_handler (c : nat) : eff world unit :=
  let* b := gets dom in
  match closures b !! c with
  | None => ret tt
  | Some cl =>
      let retryCount := retryCount cl + 1 in
      let* _ := with_dom (set_closures
                  (<[c := {| index := index cl; captured_source := captured_source cl;
                             retryCount := retryCount; loadTimeout := loadTimeout cl |}]>
                     (closures b))) in
      if retryCount <=? maxRetries then
        let* _ := showNotification
                    ("Retrying " +:+ source_name (captured_source cl) +:+ "... ("
                       +:+ pretty retryCount +:+ "/" +:+ pretty maxRetries +:+ ")")
                    "warning" in
        let* _ := setTimeout (RetryAttempt c) (1000 * retryCount) in
        ret tt
      else handleSourceFailure (index cl)
  end.

(** The two [setAttribute] calls on the frame (allow, referrerpolicy)
    have no part in the load protocol and are left out. *)
Definition loadSource (index : Z) : eff world unit :=
  let* l := gets (fun w => embedSources (state w)) in
  if (index <? 0) || (Z.of_nat (length l) <=? index) then ret tt
  else
    match source_at l index with
    | None => ret tt
    | Some source =>
        let* b := gets dom in
        match video_frame b with
        | None => ret tt
        | Some f =>
            let* _ := showVideoLoadingState in
            let* loadTimeout := setTimeout (LoadTimeoutExpired index) 10000 in
            let* _ := with_dom (set_video_frame
                        (Some {| src := src f;
                                 contentWindow_length := contentWindow_length f;
                                 onerror := onerror f; onload := onload f;
                                 load_once := load_once f ++ [loadTimeout];
                                 pending := pending f |})) in
            let c := length (closures b) in
            let* _ := with_dom (fun b =>
                        set_closures
                          (closures b ++ [{| index := index; captured_source := source;
                                             retryCount := 0;
                                             loadTimeout := loadTimeout |}]) b) in
            attemptLoad c
        end
    end.

(** The 10 s check: [iframe.src && !iframe.contentWindow?.length]. *)
Definition loadTimeout_expired (index : Z) : eff world unit :=
  let* b := gets dom in
  match video_frame b with
  | None => ret tt
  | Some f =>
      if truthy_str (src f) && (contentWindow_length f =? 0)%nat
      then handleSourceFailure index
      else ret tt
  end.

(** *** openPlayer *)

(** [x || 1] on a nullable number. *)
Definition or_one (x : option Z) : Z :=
  match x with
  | Some v => if v =? 0 then 1 else v
  | None => 1
  end.

(** The writes to the title, description, rating, year and type elements
    are one [PlayerHeaderRendered] event, [loadSeasons] is the request it
    sends, and the 30 s progress interval is the [playerInterval] flag:
    its ticks only persist progress. *)
Definition openPlayer (mediaItem : media_item) : eff world unit :=
  let* v := gets state in
  if negb (bool_decide (is_Some (currentUser v))) then
    showNotification "Please log in to stream content" "error"
  else if negb (isUserApproved v) then
    let* _ := showNotification
                "Premium access required to watch content. Please subscribe to continue."
                "error" in
    openPaymentModal
  else
    let* _ := with_state (set_media (media_type mediaItem) (Some (media_id mediaItem))
                            (or_else (title mediaItem) (name mediaItem))
                            (Some mediaItem)) in
    let* _ := emit (PlayerHeaderRendered (or_else (title mediaItem) (name mediaItem))) in
    let* _ := if bool_decide (media_type mediaItem = Some "tv") then
                let* _ := with_state (set_season_episode
                                        (or_one (resumeSeason mediaItem))
                                        (or_one (resumeEpisode mediaItem))) in
                emit (SeasonsRequested (Some (media_id mediaItem)))
              else ret tt in
    let* _ := buildEmbedSources in
    let* _ := populateSourceButtons in
    let* _ := loadSource 0 in
    let* t := gets (fun w => now (dom w)) in
    let* _ := with_state (set_watch (Some t) true) in
    emit PlayerModalOpened.

(** *** The event loop *)

Definition run_job (j : job) : eff world unit :=
  match j with
  | RetryAttempt c => attemptLoad c
  | LoadTimeoutExpired i => loadTimeout_expired i
  | LoadNext i => loadSource i
  end.

(** The timer to fire next: the earliest due, the oldest among equals. *)
Fixpoint earliest (ts : list timer) : option timer :=
  match ts with
  | [] => None
  | t :: r =>
      match earliest r with
      | Some t' => if due t' <? due t then Some t' else Some t
      | None => Some t
      end
  end.

(** An exception that escapes a callback is reported and the loop goes on. *)
Definition as_callback (c : eff world unit) : eff world unit :=
  try_catch c (fun e => emit (UncaughtError e)).

Definition fire (t : timer) : eff world unit :=
  let* _ := clearTimeout (timer_id t) in
  let* _ := with_dom (fun b => set_now (Z.max (now b) (due t)) b) in
  as_callback (run_job (callback t)).

(** The once-listeners of the load event: each clears the timer of the
    [loadSource] call that added it. *)
Definition fire_load_listeners (l : list nat) : eff world unit :=
  fold_right (fun tid k => let* _ := clearTimeout tid in k) (ret tt) l.

Definition deliver (at_ : Z) (ev : arrival) : eff world unit :=
  let* _ := with_dom (fun b => set_now (Z.max (now b) at_) b) in
  let* b := gets dom in
  match video_frame b with
  | None => ret tt
  | Some f =>
      match ev with
      | ErrorEvent =>
          let* _ := with_dom (set_video_frame
                      (Some {| src := src f;
                               contentWindow_length := contentWindow_length f;
                               onerror := onerror f; onload := onload f;
                               load_once := load_once f; pending := None |})) in
          match onerror f with
          | Some c => as_callback (onerror_handler c)
          | None => ret tt
          end
      | LoadEvent k =>
          let* _ := with_dom (set_video_frame
                      (Some {| src := src f; contentWindow_length := k;
                               onerror := onerror f; onload := onload f;
                               load_once := []; pending := None |})) in
          let* _ := fire_load_listeners (load_once f) in
          if onload f then hideVideoLoadingState else ret tt
      end
  end.

(** One turn of the loop; [false] when nothing is pending.  An event of
    the embedded document is delivered before a timer due at the same
    instant or later. *)
Definition step : eff world bool :=
  let* b := gets dom in
  match video_frame b ≫= pending, earliest (timers b) with
  | Some (t, ev), Some tm =>
      if t <=? due tm
      then let* _ := deliver t ev in ret true
      else let* _ := fire tm in ret true
  | Some (t, ev), None => let* _ := deliver t ev in ret true
  | None, Some tm => let* _ := fire tm in ret true
  | None, None => ret false
  end.

Fixpoint run (turns : nat) (w : world) : world :=
  match turns with
  | O => w
  | S n =>
      match step w with
      | (Normal true, w') => run n w'
      | (_, w') => w'
      end
  end.

End Code.

(** The source indices of the load attempts of a trace, in order. *)
Definition load_attempts (t : list event) : list Z :=
  omap (fun e => if e is SrcAssigned i _ then Some i else None) t.

Definition terminal_notice : event :=
  Notification "All sources failed. Please try again later." "error".

End Player.

(** * Specification-side definitions and concrete scenarios *)

Module Scenario.

Import Session.

(** The identifier a call of [getDeviceId] generates when none is stored. *)
Definition fresh_id (a : answers) : string :=
  match randomUUID a with Some u => u | None => time_random_id a end.

(** The row [registerSessionForUser] upserts for device [dev] at time [t]. *)
Definition claimed_row (dev : string) (t : Z) : session_row :=
  {| device_id := Some dev; is_active := Some true;
     session_flag := Some "S"; last_heartbeat := Some t |}.

(** What the realtime handler does with one change event. *)
Inductive reaction : Type :=
| Ignored
| ForcedSignOut (message : string).

Definition kind_is (p : payload) (k : string) : bool :=
  bool_decide (or_else (eventType p) (event_ p) = Some k).

(** The row an insert or update is about: the new one, or the old one when
    the message carries no new one. *)
Definition subject_row (p : payload) : option session_row :=
  match new p with Some r => Some r | None => old p end.

Definition disabled (r : session_row) : bool :=
  bool_decide (is_active r = Some false)
  || match session_flag r with
     | Some f => String.eqb (toUpperCase f) "N"
     | None => false
     end.

Definition on_other_device (r : session_row) (my : string) : bool :=
  match device_id r with
  | Some d => negb (String.eqb d EmptyString) && negb (String.eqb d my)
  | None => false
  end.

Definition reaction_to_delete (p : payload) (my : string) : reaction :=
  match old p with
  | Some o => if bool_decide (device_id o = Some my)
              then ForcedSignOut msg_deleted else Ignored
  | None => Ignored
  end.

(** The reaction table in the words of the specification: the device
    check applies to updates only, and whatever is not listed is ignored. *)
Definition stated_reaction (p : payload) (my : string) : reaction :=
  if kind_is p "DELETE" then reaction_to_delete p my
  else if (kind_is p "INSERT" || kind_is p "UPDATE")
          && (if subject_row p is Some r then disabled r else false)
  then ForcedSignOut msg_disabled
  else if kind_is p "UPDATE"
          && (if subject_row p is Some r then on_other_device r my else false)
  then ForcedSignOut msg_other_device
  else Ignored.

(** The reaction table of the code: both checks apply to every event that
    is not a delete. *)
Definition amended_reaction (p : payload) (my : string) : reaction :=
  if kind_is p "DELETE" then reaction_to_delete p my
  else match subject_row p with
       | None => Ignored
       | Some r =>
           if disabled r then ForcedSignOut msg_disabled
           else if on_other_device r my then ForcedSignOut msg_other_device
           else Ignored
       end.

(** A delete event that names a new row and no old one: the handler
    reads [oldRow.device_id] of a missing row, and its [catch] logs the
    error. *)
Definition delete_without_old_row (p : payload) : bool :=
  kind_is p "DELETE"
  && match new p, old p with Some _, None => true | _, _ => false end.

(** The intervals that are left when the heartbeat [h] has been stopped. *)
Definition intervals_without (h : option (string * string)) (l : list (string * string))
  : list (string * string) :=
  match h with Some h => without_last h l | None => l end.

(** What [forceLocalSignOut] leaves in the trace before its notification. *)
Definition teardown_events (a : answers) (w : world) : list event :=
  (if _sessionChannel w is Some _ then [ChannelRemoved] else [])
  ++ AuthSignOut
  :: (if signOut_reply a is Rejects
      then [ConsoleWarn "force signout supabase.auth.signOut failed"] else []).

Definition signouts_of (r : reaction) : nat :=
  match r with Ignored => 0%nat | ForcedSignOut _ => 1%nat end.

Definition change (kind : string) (n o : option session_row) : payload :=
  {| eventType := Some kind; event_ := None; new := n; old := o |}.

Definition alice : user := {| id := "user-1"; email := "alice@example.org" |}.

Definition row_of (dev : string) (active : bool) (flag : string) : session_row :=
  {| device_id := Some dev; is_active := Some active;
     session_flag := Some flag; last_heartbeat := Some 1000 |}.

(** A browser whose storage holds the device id [dev], facing a datastore
    in which alice's session row is [r]. *)
Definition browser_of (dev : option string) (r : option session_row) : world :=
  {| localStorage := if dev is Some d then {[ KEY := d ]} else ∅;
     active_sessions := if r is Some r then {[ "user-1" := r ]} else ∅;
     _sessionChannel := None;
     _heartbeatIntervalId := None;
     intervals := [];
     trace := [] |}.

Definition healthy : answers :=
  {| setItem_throws := false; randomUUID := Some "3f0c9a4e-uuid";
     time_random_id := "lq1x2k9z0abc"; clock := 5000;
     select_reply := Answers; upsert_reply := Answers; signOut_reply := Answers |}.

Definition storage_full : answers :=
  {| setItem_throws := true; randomUUID := Some "3f0c9a4e-uuid";
     time_random_id := "lq1x2k9z0abc"; clock := 5000;
     select_reply := Answers; upsert_reply := Answers; signOut_reply := Answers |}.

Definition lookup_down : answers :=
  {| setItem_throws := false; randomUUID := Some "3f0c9a4e-uuid";
     time_random_id := "lq1x2k9z0abc"; clock := 5000;
     select_reply := Reports "57014"; upsert_reply := Answers;
     signOut_reply := Answers |}.

(** Entitlement scenarios. *)

Definition denied (why : string) : Entitlement.access :=
  {| Entitlement.allowed := false; Entitlement.reason := Some why;
     Entitlement.expiryDate := None |}.

Definition granted (until : option string) : Entitlement.access :=
  {| Entitlement.allowed := true; Entitlement.reason := None;
     Entitlement.expiryDate := until |}.

(** A toy calendar for the scenarios: two dates and unparseable text. *)
Definition toy_Date_parse (s : string) : option Z :=
  if String.eqb s "2024-01-01" then Some 1704067200000
  else if String.eqb s "2030-01-01" then Some 1893456000000
  else None.

Definition mid_2025 : Entitlement.answers :=
  {| Entitlement.lookup_reply := Answers; Entitlement.now := 1750000000000 |}.

Definition subscribers : Entitlement.world :=
  {| Entitlement.allowed_users :=
       {[ "alice@example.org" :=
            {| Entitlement.approved := Some true;
               Entitlement.expiry_date := Some "2030-01-01" |};
          "bob@example.org" :=
            {| Entitlement.approved := Some true;
               Entitlement.expiry_date := Some "2024-01-01" |};
          "carol@example.org" :=
            {| Entitlement.approved := Some false;
               Entitlement.expiry_date := None |} ]};
     Entitlement.trace := [] |}.

(** Watch-progress scenarios. *)

Definition some_film : Progress.media_item :=
  {| Progress.media_id := 550; Progress.media_type := "movie";
     Progress.title := Some "Fight Club"; Progress.name := None;
     Progress.poster_path := Some "/poster.jpg" |}.

Definition store_up : Progress.answers :=
  {| Progress.upsert_reply := Answers; Progress.select_reply := Answers;
     Progress.select_error_message := EmptyString; Progress.clock := 9000 |}.

Definition watching : Progress.world :=
  {| Progress.currentUser := Some alice;
     Progress.currentSeason := 1; Progress.currentEpisode := 1;
     Progress.continue_watching := ∅;
     Progress.continueWatching := [];
     Progress.trace := [] |}.

(** The double nearest to 9/10 (a little above it), and the least
    quotient position / duration whose percentage, as the code computes
    it, exceeds 90: halfway between that double and the next one, about
    0.9 + 7.8e-17. *)
Definition nearest_to_nine_tenths : Q := 8106479329266893 # 9007199254740992.
Definition completion_threshold : Q := 16212958658533787 # 18014398509481984.

(** The doubles next above 90 and 100: 90 + 2^-46 and 100 + 2^-46. *)
Definition just_above_90 : Q := 6333186975989761 # 70368744177664.
Definition just_above_100 : Q := 7036874417766401 # 70368744177664.

(** Player scenarios. *)

(** The address [attemptLoad] navigates to at time [t]. *)
Definition address (s : Player.source) (t : Z) : string :=
  Player.url s +:+ (if includes (Player.url s) "?" then "&" else "?")
    +:+ "t=" +:+ pretty t.

Definition retry_notice (s : Player.source) (k : Z) : Player.event :=
  Player.Notification
    ("Retrying " +:+ Player.source_name s +:+ "... (" +:+ pretty k +:+ "/"
       +:+ pretty Player.maxRetries +:+ ")")
    "warning".

(** The state of affairs the claim of a bounded failover is about: the
    source list is [l] and the terminal notice has not been shown. *)
Definition not_given_up (l : list Player.source) (w : Player.world) : Prop :=
  Player.embedSources (Player.state w) = l
  /\ Player.terminal_notice ∉ Player.trace w.

(** A computation keeps an invariant of the world. *)
Definition keeps (I : Player.world -> Prop) {A} (c : eff Player.world A) : Prop :=
  forall w, I w -> I (snd (c w)).

(** The player waits for source [i]: a navigation that got no answer,
    an empty document, and the 10 s timer of that load as the only
    pending event. *)
Definition awaiting (l : list Player.source) (i : Z) (w : Player.world) : Prop :=
  Player.embedSources (Player.state w) = l
  /\ exists f tid at_,
       Player.video_frame (Player.dom w) = Some f
       /\ Player.pending f = None
       /\ truthy_str (Player.src f) = true
       /\ Player.contentWindow_length f = 0%nat
       /\ Player.timers (Player.dom w)
          = [{| Player.timer_id := tid; Player.due := at_;
                Player.callback := Player.LoadTimeoutExpired i |}].

(** The [k] indices that follow [i] on a ring of [n] sources. *)
Fixpoint ring_from (n i : Z) (k : nat) : list Z :=
  match k with
  | O => []
  | S k => Z.rem (i + 1) n :: ring_from n (Z.rem (i + 1) n) k
  end.

Definition blank_frame : Player.iframe :=
  {| Player.src := EmptyString; Player.contentWindow_length := 0;
     Player.onerror := None; Player.onload := false;
     Player.load_once := []; Player.pending := None |}.

(** A signed-in browser with the player closed; [approved] is the
    entitlement flag. *)
Definition home (approved : bool) : Player.world :=
  {| Player.state :=
       {| Player.currentUser := Some alice; Player.isUserApproved := approved;
          Player.currentMediaType := None; Player.currentMediaId := None;
          Player.currentMediaTitle := None; Player.currentMediaData := None;
          Player.currentSeason := 1; Player.currentEpisode := 1;
          Player.embedSources := []; Player.watchStartTime := None;
          Player.playerInterval := false |};
     Player.dom :=
       {| Player.video_frame := Some blank_frame; Player.closures := [];
          Player.timers := []; Player.next_timer_id := 0;
          Player.navigations := 0; Player.now := 0 |};
     Player.trace := [] |}.

(** The browser after [buildEmbedSources] for the film 550, no load
    started yet. *)
Definition film_sources : list Player.source :=
  [ {| Player.source_name := "Source 1";
       Player.url := "https://111movies.com/movie/550" |};
    {| Player.source_name := "Source 2";
       Player.url := "https://player.videasy.net/movie/550" |};
    {| Player.source_name := "Source 3";
       Player.url := "https://vidsrc.xyz/embed/movie/550" |};
    {| Player.source_name := "Source 4";
       Player.url := "https://vidsrc.me/embed/movie/550" |} ].

Definition lobby : Player.world :=
  {| Player.state :=
       {| Player.currentUser := Some alice; Player.isUserApproved := true;
          Player.currentMediaType := Some "movie";
          Player.currentMediaId := Some 550;
          Player.currentMediaTitle := Some "Fight Club";
          Player.currentMediaData := None;
          Player.currentSeason := 1; Player.currentEpisode := 1;
          Player.embedSources := film_sources;
          Player.watchStartTime := None;
          Player.playerInterval := false |};
     Player.dom := Player.dom (home true);
     Player.trace := [] |}.

Definition film : Player.media_item :=
  {| Player.media_id := 550; Player.media_type := Some "movie";
     Player.title := Some "Fight Club"; Player.name := None;
     Player.resumeSeason := None; Player.resumeEpisode := None |}.

(** No provider ever answers: every load ends by the 10 s timer. *)
Definition all_hang : Player.answers :=
  {| Player.network := fun _ _ => Player.Hangs |}.

(** The first two navigations fail after [d1] and [d2] ms, the third
    loads after [d3] ms a document with three frames, later ones hang. *)
Definition twice_failing (d1 d2 d3 : Z) : Player.answers :=
  {| Player.network := fun n _ =>
       match n with
       | 0%nat => Player.ErrorsAfter d1
       | 1%nat => Player.ErrorsAfter d2
       | 2%nat => Player.LoadsAfter d3 3
       | _ => Player.Hangs
       end |}.

End Scenario.

(** * Subscription label *)

Module Subscription.

(** The element [subscription-status-text]. *)
Record status_text : Type := {
  textContent : string;
  className : string
}.

(** [Math.ceil(x / d)] for an integral [x] and a positive integral [d];
    the quotients at hand are below 2^53 / d, where the floating-point
    division cannot round a fraction to the next integer. *)
Definition ceil_div (x d : Z) : Z := - ((- x) / d).

Definition day_ms : Z := 1000 * 60 * 60 * 24.

Section Code.
Variable Date_parse : string -> option Z.
Variable now : Z.                      (* new Date(), in milliseconds *)

(** [None] is NaN. *)
Definition daysRemaining (expiryDate : string) : option Z :=
  match Date_parse expiryDate with
  | Some expiry => Some (ceil_div (expiry - now) day_ms)
  | None => None
  end.

(** The element after the call; [None] when the page has none. *)
Definition updateSubscriptionStatus (expiryDate : option string)
    (statusText : option status_text) : option status_text :=
  match statusText, expiryDate with
  | None, _ => None
  | Some el, None => Some el
  | Some el, Some d =>
      if negb (truthy_str d) then Some el
      else
        match daysRemaining d with
        | Some days =>
            if 0 <? days then
              Some {| textContent :=
                        pretty days +:+ " day" +:+ (if days =? 1 then EmptyString else "s")
                        +:+ " remaining";
                      className := "subscription-status active" |}
            else
              Some {| textContent := "Subscription expired";
                      className := "subscription-status expired" |}
        | None =>
            Some {| textContent := "Subscription expired";
                    className := "subscription-status expired" |}
        end
  end.

End Code.

End Subscription.

(** * Player controls: episode change and close *)

Module PlayerControls.

Import Player.

Section Code.
Variable a : answers.

(** [reloadTVContent]: the sources are rebuilt for the current season
    and episode and the first one is loaded; the watch clock restarts. *)
Definition reloadTVContent : eff world unit :=
  let* _ := showVideoLoadingState in
  let* _ := buildEmbedSources in
  let* _ := populateSourceButtons in
  let* _ := loadSource a 0 in
  let* t := gets (fun w => now (dom w)) in
  with_state (fun v => set_watch (Some t) (playerInterval v) v).

(** The change handler of the season select ([parseInt] of an option
    value, which holds a season number). *)
Definition selectSeason (season : Z) : eff world unit :=
  let* _ := with_state (set_season_episode season 1) in
  reloadTVContent.

(** The click handler of an episode card. *)
Definition selectEpisode (episode_number : Z) : eff world unit :=
  let* _ := with_state (fun v => set_season_episode (currentSeason v) episode_number v) in
  reloadTVContent.

(** [cleanupPlayer].  Assigning 'about:blank' abandons the navigation in
    progress and starts one that needs no network: its load event is
    due at once. *)
Definition cleanupPlayer : eff world unit :=
  let* v := gets state in
  let* _ := if playerInterval v
            then with_state (set_watch (watchStartTime v) false)
            else ret tt in
  let* b := gets dom in
  let* _ := match video_frame b with
            | Some f =>
                with_dom (set_video_frame
                  (Some {| src := "about:blank";
                           contentWindow_length := contentWindow_length f;
                           onerror := onerror f; onload := onload f;
                           load_once := load_once f;
                           pending := Some (now b, LoadEvent 0) |}))
            | None => ret tt
            end in
  let* _ := if bool_decide (currentMediaType v = Some "tv")
            then with_state (set_season_episode 1 1)
            else ret tt in
  with_state (fun v => set_watch None (playerInterval v) v).

End Code.

End PlayerControls.

(** * Progress tracking from the player *)

(** [trackPlayerProgress] and [closePlayer] read the player's variables
    and write the rows of WatchProgressTracker: the world is the
    player's, with the [continue_watching] table and the in-memory list
    next to it.  The variables [currentUser], [currentSeason] and
    [currentEpisode] are the player's; the functions of [Progress] run
    on a view of them. *)

Module Tracker.

Local Open Scope Q_scope.

Inductive event : Type :=
| ConsoleError (what : string)
| WatchHistorySent (user_id : string) (media : option Z) (media_type title : option string)
    (season episode : option Z) (duration : Q)
| ProfileRequested (user_id : string)  (* the first request of updateWatchTimeStats *)
| PlayerModalClosed
| ContinueWatchingReloadRequested.     (* loadContinueWatching() is called *)

(** An entry of [log] or of [requests], as one of a single sequence. *)
Inductive entry : Type :=
| Logged (e : event)
| Requested (e : Progress.event).

(** [requests] is the trace of the progress store and [log] what this
    module itself sends and shows.  [timeline] has the entries of [log]
    and the requests of the progress store in the one order in which the
    calls are made; what the progress store writes to the console about
    a request that failed comes when the datastore has answered, and is
    not on it. *)
Record world : Type := {
  player : Player.world;
  continue_watching : gmap (string * Z) Progress.cw_row;
  continueWatching : list Progress.cw_item;
  requests : list Progress.event;
  home_active : bool;                  (* #home-section has class active *)
  log : list event;
  timeline : list entry
}.

Definition emit (e : event) : eff world unit :=
  modify (fun w =>
    {| player := player w; continue_watching := continue_watching w;
       continueWatching := continueWatching w; requests := requests w;
       home_active := home_active w; log := log w ++ [e];
       timeline := timeline w ++ [Logged e] |}).

(** The world [Progress] sees. *)
Definition view (w : world) : Progress.world :=
  {| Progress.currentUser := Player.currentUser (Player.state (player w));
     Progress.currentSeason := Player.currentSeason (Player.state (player w));
     Progress.currentEpisode := Player.currentEpisode (Player.state (player w));
     Progress.continue_watching := continue_watching w;
     Progress.continueWatching := continueWatching w;
     Progress.trace := requests w |}.

Definition requested (e : Progress.event) : option entry :=
  match e with
  | Progress.UpsertSent _ _ _ => Some (Requested e)
  | _ => None
  end.

(** What a run of [Progress] code leaves: its world, and on the timeline
    the requests it has added to its trace. *)
Definition absorb (p : Progress.world) (w : world) : world :=
  let v := Player.state (player w) in
  {| player :=
       {| Player.state :=
            {| Player.currentUser := Progress.currentUser p;
               Player.isUserApproved := Player.isUserApproved v;
               Player.currentMediaType := Player.currentMediaType v;
               Player.currentMediaId := Player.currentMediaId v;
               Player.currentMediaTitle := Player.currentMediaTitle v;
               Player.currentMediaData := Player.currentMediaData v;
               Player.currentSeason := Progress.currentSeason p;
               Player.currentEpisode := Progress.currentEpisode p;
               Player.embedSources := Player.embedSources v;
               Player.watchStartTime := Player.watchStartTime v;
               Player.playerInterval := Player.playerInterval v |};
          Player.dom := Player.dom (player w);
          Player.trace := Player.trace (player w) |};
     continue_watching := Progress.continue_watching p;
     continueWatching := Progress.continueWatching p;
     requests := Progress.trace p;
     home_active := home_active w;
     log := log w;
     timeline := timeline w
                 ++ omap requested (drop (length (requests w)) (Progress.trace p)) |}.

Definition in_progress {A} (c : eff Progress.world A) : eff world A :=
  fun w => let (r, p) := c (view w) in (r, absorb p w).

Definition in_player {A} (c : eff Player.world A) : eff world A :=
  fun w =>
    let (r, p) := c (player w) in
    (r, {| player := p; continue_watching := continue_watching w;
           continueWatching := continueWatching w; requests := requests w;
           home_active := home_active w; log := log w; timeline := timeline w |}).

Section Code.
Variable a : Player.answers.
Variable pa : Progress.answers.
(** [poster_path] of a media object; the player's record of the object
    does not hold it. *)
Variable poster_path_of : Player.media_item -> option string.

(** The object [currentMediaData] as [updateWatchProgress] reads it; an
    object without [media_type] has the empty type, falsy and different
    from 'tv' like [undefined]. *)
Definition as_progress_item (m : Player.media_item) : Progress.media_item :=
  {| Progress.media_id := Player.media_id m;
     Progress.media_type := default EmptyString (Player.media_type m);
     Progress.title := Player.title m;
     Progress.name := Player.name m;
     Progress.poster_path := poster_path_of m |}.

(** [(new Date() - watchStartTime) / 1000], as the exact quotient.  The
    code has the double nearest to it, which passes and fails the same
    tests and, for a span of less than 2^43 seconds, has the same whole
    seconds (lemma [rounded_seconds]). *)
Definition seconds_since (start now : Z) : Q := inject_Z (now - start)%Z / 1000.

(** [currentMediaType === 'movie' ? 7200 : 2700] *)
Definition estimatedDuration (v : Player.vars) : Q :=
  if bool_decide (Player.currentMediaType v = Some "movie") then 7200 else 2700.

(** The tick of the 30 s interval. *)
Definition trackPlayerProgress : eff world unit :=
  let* w := gets player in
  let v := Player.state w in
  match Player.currentUser v, Player.currentMediaData v with
  | Some _, Some m =>
      match Player.video_frame (Player.dom w) with
      | Some f =>
          if truthy_str (Player.src f) then
            let currentTime :=
              match Player.watchStartTime v with
              | Some start => seconds_since start (Player.now (Player.dom w))
              | None => 0
              end in
            if Progress.Qltb 60 currentTime then
              in_progress
                (Progress.updateWatchProgress pa (Some (as_progress_item m))
                   currentTime (estimatedDuration v))
            else ret tt
          else ret tt
      | None => ret tt
      end
  | _, _ => ret tt
  end.

(** [recordWatchHistory], up to the request it sends; reading
    [currentUser.id] without a user throws inside its [try]. *)
Definition recordWatchHistory (media : option Z) (media_type title name : option string)
    (season episode : option Z) (duration : Q) : eff world unit :=
  let* w := gets player in
  match Player.currentUser (Player.state w) with
  | Some u =>
      emit (WatchHistorySent (id u) media media_type (or_else title name)
              season episode duration)
  | None => emit (ConsoleError "Error recording watch history:")
  end.

(** [updateWatchTimeStats], up to the first request it sends. *)
Definition updateWatchTimeStats (duration : Q) : eff world unit :=
  let* w := gets player in
  match Player.currentUser (Player.state w) with
  | Some u =>
      if Qeq_bool duration 0 || Progress.Qltb duration 60 then ret tt
      else emit (ProfileRequested (id u))
  | None => ret tt
  end.

Definition closePlayer : eff world unit :=
  let* w := gets player in
  let v := Player.state w in
  let* _ :=
    match Player.watchStartTime v, Player.currentUser v, Player.currentMediaData v with
    | Some start, Some _, Some m =>
        let watchDuration := seconds_since start (Player.now (Player.dom w)) in
        if Progress.Qltb 30 watchDuration then
          let tv := bool_decide (Player.currentMediaType v = Some "tv") in
          let* _ := recordWatchHistory (Player.currentMediaId v) (Player.currentMediaType v)
                      (Player.currentMediaTitle v) None
                      (if tv then Some (Player.currentSeason v) else None)
                      (if tv then Some (Player.currentEpisode v) else None)
                      watchDuration in
          let* _ := in_progress
                      (Progress.updateWatchProgress pa (Some (as_progress_item m))
                         watchDuration (estimatedDuration v)) in
          updateWatchTimeStats watchDuration
        else ret tt
    | _, _, _ => ret tt
    end in
  let* _ := in_player PlayerControls.cleanupPlayer in
  let* _ := emit PlayerModalClosed in
  let* home := gets home_active in
  if home then emit ContinueWatchingReloadRequested else ret tt.

(** The play button and the card of a Continue Watching entry. *)
Definition resume_item (i : Progress.cw_item) : Player.media_item :=
  {| Player.media_id := Progress.item_id i;
     Player.media_type := Some (Progress.item_media_type i);
     Player.title := Progress.item_title i;
     Player.name := Progress.item_name i;
     Player.resumeSeason := Some (Progress.item_season i);
     Player.resumeEpisode := Some (Progress.item_episode i) |}.

Definition continueCard_click (i : Progress.cw_item) : eff world unit :=
  let* w := gets player in
  if Player.isUserApproved (Player.state w) then
    in_player (Player.openPlayer a (resume_item i))
  else
    in_player
      (let* _ := Player.showNotification "Premium access required to watch content" "error" in
       Player.openPaymentModal).

End Code.

End Tracker.

(** * Removing a Continue Watching entry *)

Module Removal.

Inductive event : Type :=
| ConsoleError (what : string)
| DeleteSent (user_id : string) (media : Z)
| ContinueWatchingRendered (cards : nat)
| Notification (message kind : string).

#[global] Instance removal_event_eq_dec : EqDecision event.
Proof. solve_decision. Defined.

Record answers : Type := { delete_reply : reply }.

(** The world of [Progress] with what the page shows. *)
Record world : Type := { base : Progress.world; ui : list event }.

Definition emit (e : event) : eff world unit :=
  modify (fun w => {| base := base w; ui := ui w ++ [e] |}).

Definition in_base {A} (c : eff Progress.world A) : eff world A :=
  fun w => let (r, p) := c (base w) in (r, {| base := p; ui := ui w |}).

Section Code.
Variable a : answers.

(** [.from("continue_watching").delete().eq("user_id", uid).eq("media_id", media)] *)
Definition delete_row (uid : string) (media : Z) : eff world (option string) :=
  let* _ := emit (DeleteSent uid media) in
  match delete_reply a with
  | Answers =>
      let* _ := in_base (modify (fun p =>
                  Progress.set_continue_watching
                    (delete (uid, media) (Progress.continue_watching p)) p)) in
      ret None
  | Reports c => ret (Some c)
  | Rejects => throw "delete rejected"
  end.

(** [renderContinueWatching], as the number of cards it draws. *)
Definition renderContinueWatching : eff world unit :=
  let* l := in_base (gets Progress.continueWatching) in
  emit (ContinueWatchingRendered (length l)).

Definition showNotification (message kind : string) : eff world unit :=
  emit (Notification message kind).

Definition removeContinueWatching (mediaId : Z) : eff world unit :=
  let* user := in_base (gets Progress.currentUser) in
  match user with
  | None => ret tt
  | Some user =>
      try_catch
        (let* error := delete_row (id user) mediaId in
         if error is Some e then throw e
         else
           let* _ := in_base (modify (fun p =>
                       Progress.set_continueWatching
                         (filter (fun item => Progress.item_id item <> mediaId)
                                 (Progress.continueWatching p)) p)) in
           let* _ := renderContinueWatching in
           showNotification "Removed from Continue Watching" "success")
        (fun _ =>
           let* _ := emit (ConsoleError "Error removing from continue watching:") in
           showNotification "Failed to remove item" "error")
  end.

End Code.

End Removal.

(** * Bookmarks (My List) *)

Module Bookmarks.

(** A media object as the list functions read it. *)
Record item : Type := {
  media_id : Z;
  media_type : option string;
  title : option string;
  name : option string;
  poster_path : option string
}.

Inductive event : Type :=
| ConsoleError (what : string)
| Notification (message kind : string)
| PaymentModalOpened
| InsertSent (user_id : string) (media : Z) (media_type title : option string)
| DeleteSent (user_id : string) (media : Z)
| ButtonSet (bookmarked : bool)        (* icon, class and title of the button *)
| MyListRendered (cards : nat)
| HeroUpdated.

#[global] Instance bookmarks_event_eq_dec : EqDecision event.
Proof. solve_decision. Defined.

Record world : Type := {
  currentUser : option user;
  isUserApproved : bool;
  bookmarks : list item;
  mylist_active : bool;                (* #mylist-section has class active *)
  featuredMedia : option Z;            (* featuredMedia.id *)
  trace : list event
}.

Definition emit (e : event) : eff world unit :=
  modify (fun w =>
    {| currentUser := currentUser w; isUserApproved := isUserApproved w;
       bookmarks := bookmarks w; mylist_active := mylist_active w;
       featuredMedia := featuredMedia w; trace := trace w ++ [e] |}).

Definition set_bookmarks (l : list item) : eff world unit :=
  modify (fun w =>
    {| currentUser := currentUser w; isUserApproved := isUserApproved w;
       bookmarks := l; mylist_active := mylist_active w;
       featuredMedia := featuredMedia w; trace := trace w |}).

Definition showNotification (message kind : string) : eff world unit :=
  emit (Notification message kind).

Definition openPaymentModal : eff world unit := emit PaymentModalOpened.

(** [{ ...mediaItem, media_type: mediaType }] *)
Definition with_type (mediaItem : item) (mediaType : option string) : item :=
  {| media_id := media_id mediaItem; media_type := mediaType;
     title := title mediaItem; name := name mediaItem;
     poster_path := poster_path mediaItem |}.

(** [addBookmarkToSupabase] and [removeBookmarkFromSupabase] up to the
    request they send; reading [currentUser.id] without a user throws
    inside their [try]. *)
Definition addBookmarkToSupabase (mediaItem : item) (mediaType : option string)
  : eff world unit :=
  let* u := gets currentUser in
  match u with
  | Some u =>
      emit (InsertSent (id u) (media_id mediaItem) mediaType
              (or_else (title mediaItem) (name mediaItem)))
  | None => emit (ConsoleError "Error adding bookmark to Supabase:")
  end.

Definition removeBookmarkFromSupabase (mediaId : Z) : eff world unit :=
  let* u := gets currentUser in
  match u with
  | Some u => emit (DeleteSent (id u) mediaId)
  | None => emit (ConsoleError "Error removing bookmark from Supabase:")
  end.

(** [loadBookmarks], as the number of cards it draws. *)
Definition loadBookmarks : eff world unit :=
  let* l := gets bookmarks in
  emit (MyListRendered (length l)).

Definition toggleBookmark (mediaItem : item) (mediaType : option string) : eff world unit :=
  let* u := gets currentUser in
  if negb (bool_decide (is_Some u)) then
    showNotification "Please log in to manage your list" "error"
  else
    let* approved := gets isUserApproved in
    if negb approved then
      let* _ := showNotification "Subscribe to use bookmark feature" "error" in
      openPaymentModal
    else
      let* l := gets bookmarks in
      let* _ :=
        match list_find (fun b => media_id b = media_id mediaItem) l with
        | Some (index, _) =>
            let* _ := set_bookmarks (delete index l) in
            let* _ := showNotification "Removed from your list" "success" in
            let* _ := removeBookmarkFromSupabase (media_id mediaItem) in
            emit (ButtonSet false)
        | None =>
            let* _ := set_bookmarks (l ++ [with_type mediaItem mediaType]) in
            let* _ := showNotification "Added to your list" "success" in
            let* _ := addBookmarkToSupabase mediaItem mediaType in
            emit (ButtonSet true)
        end in
      let* active := gets mylist_active in
      let* _ := if active then loadBookmarks else ret tt in
      let* featured := gets featuredMedia in
      if bool_decide (featured = Some (media_id mediaItem))
      then emit HeroUpdated else ret tt.

End Bookmarks.

(** * debounce *)

(** One debounced function: [debounce(func, wait)] creates the variable
    [timeout] and returns [executedFunction]; [func] is recorded by the
    time and the arguments of each of its calls. *)

Module Debounce.

Section Code.
Variable A : Type.                     (* the arguments of a call *)
Variable wait : Z.

(** A pending [setTimeout(later, wait)]; [later] closes over the
    arguments of the call that armed it. *)
Record timer : Type := { timer_id : nat; due : Z; args : A }.

Record world : Type := {
  timeout : option nat;                (* [undefined] before the first call *)
  timers : list timer;
  next_timer_id : nat;
  now : Z;
  executed : list (Z * A)
}.

Definition setTimeout (x : A) : eff world nat :=
  let* w := gets (fun w => w) in
  let tid := next_timer_id w in
  let* _ := modify (fun w =>
              {| timeout := timeout w;
                 timers := timers w ++ [{| timer_id := tid; due := now w + wait; args := x |}];
                 next_timer_id := S tid; now := now w; executed := executed w |}) in
  ret tid.

Definition clearTimeout (t : option nat) : eff world unit :=
  match t with
  | None => ret tt
  | Some tid =>
      modify (fun w =>
        {| timeout := timeout w;
           timers := filter (fun tm => timer_id tm <> tid) (timers w);
           next_timer_id := next_timer_id w; now := now w; executed := executed w |})
  end.

Definition func (x : A) : eff world unit :=
  modify (fun w =>
    {| timeout := timeout w; timers := timers w; next_timer_id := next_timer_id w;
       now := now w; executed := executed w ++ [(now w, x)] |}).

Definition later (x : A) : eff world unit :=
  let* t := gets timeout in
  let* _ := clearTimeout t in
  func x.

Definition executedFunction (x : A) : eff world unit :=
  let* t := gets timeout in
  let* _ := clearTimeout t in
  let* tid := setTimeout x in
  modify (fun w =>
    {| timeout := Some tid; timers := timers w; next_timer_id := next_timer_id w;
       now := now w; executed := executed w |}).

(** *** The event loop *)

Fixpoint earliest (ts : list timer) : option timer :=
  match ts with
  | [] => None
  | t :: r =>
      match earliest r with
      | Some t' => if due t' <? due t then Some t' else Some t
      | None => Some t
      end
  end.

Definition fire (t : timer) : eff world unit :=
  let* _ := clearTimeout (Some (timer_id t)) in
  let* _ := modify (fun w =>
              {| timeout := timeout w; timers := timers w;
                 next_timer_id := next_timer_id w; now := Z.max (now w) (due t);
                 executed := executed w |}) in
  later (args t).

(** The timers due before [t] fire, the earliest first; then it is [t]. *)
Fixpoint run_before_aux (t : Z) (turns : nat) (w : world) : world :=
  match turns with
  | O => w
  | S n =>
      match earliest (timers w) with
      | Some tm => if due tm <? t then run_before_aux t n (snd (fire tm w)) else w
      | None => w
      end
  end.

Definition run_before (t : Z) (w : world) : world :=
  let w' := run_before_aux t (length (timers w)) w in
  {| timeout := timeout w'; timers := timers w'; next_timer_id := next_timer_id w';
     now := Z.max (now w') t; executed := executed w' |}.

(** The debounced function is called with [x] at time [t]. *)
Definition call_at (w : world) (c : Z * A) : world :=
  snd (executedFunction (snd c) (run_before (fst c) w)).

End Code.

Arguments Build_timer {A}.
Arguments timer_id {A}.
Arguments due {A}.
Arguments args {A}.
Arguments Build_world {A}.
Arguments timeout {A}.
Arguments timers {A}.
Arguments next_timer_id {A}.
Arguments now {A}.
Arguments executed {A}.
Arguments setTimeout {A}.
Arguments clearTimeout {A}.
Arguments func {A}.
Arguments later {A}.
Arguments executedFunction {A}.
Arguments earliest {A}.
Arguments fire {A}.
Arguments run_before_aux {A}.
Arguments run_before {A}.
Arguments call_at {A}.

End Debounce.

(** * Logout *)

(** The click handler of the logout link, on the session world and the
    variables it resets; the lists are held by the ids of their
    entries. *)

Module Logout.

Record world : Type := {
  session : Session.world;
  currentUser : option user;
  isUserApproved : bool;
  bookmarks : list Z;
  continueWatching : list Z;
  featuredQueue : list Z;
  featuredIndex : Z;
  rotationInterval : bool
}.

Definition in_session {A} (c : eff Session.world A) : eff world A :=
  fun w =>
    let (r, s) := c (session w) in
    (r, {| session := s; currentUser := currentUser w;
           isUserApproved := isUserApproved w; bookmarks := bookmarks w;
           continueWatching := continueWatching w; featuredQueue := featuredQueue w;
           featuredIndex := featuredIndex w; rotationInterval := rotationInterval w |}).



Section Code.
Variable a : Session.answers.


End Code.

End Logout.

(** * Loading the user at start-up *)

(** [loadUser] on the session world, the entitlement world and the two
    variables it sets.  The loaders it awaits catch their own errors and
    are the requests they send. *)

Module Startup.

Inductive event : Type :=
| ConsoleError (what : string)
| ConsoleLog (what : string)
| LoadingScreenHidden
| BookmarksLoadRequested
| ContinueWatchingLoadRequested
| ProfileLoadRequested
| SubscriptionStatusUpdated (expiryDate : option string)
| AuthenticatedUIShown
| PaymentPromptShown (reason : option string)
| HeartAnimationScheduled
| ExtensionPopupScheduled
| UnauthenticatedUIShown
| Notification (message kind : string)
| SubmitButtonBusy                     (* 'Signing In...', disabled *)
| SubmitButtonRestored.

#[global] Instance startup_event_eq_dec : EqDecision event.
Proof. solve_decision. Defined.

(** What [signInWithPassword] answers: a user object (or none), a
    reported error with its message, or a rejected call. *)
Inductive sign_in : Type :=
| SignsIn (u : option user)
| SignInFails (message : string)
| SignInRejects.

Record answers : Type := {
  getUser : option (option user);      (* [None]: the call is rejected *)
  isSpecialUser : bool;
  signInWithPassword : sign_in
}.

Record world : Type := {
  session : Session.world;
  entitlement : Entitlement.world;
  currentUser : option user;
  isUserApproved : bool;
  ui : list event
}.

Definition emit (e : event) : eff world unit :=
  modify (fun w =>
    {| session := session w; entitlement := entitlement w;
       currentUser := currentUser w; isUserApproved := isUserApproved w;
       ui := ui w ++ [e] |}).

Definition set_currentUser (u : option user) : eff world unit :=
  modify (fun w =>
    {| session := session w; entitlement := entitlement w;
       currentUser := u; isUserApproved := isUserApproved w; ui := ui w |}).

Definition set_isUserApproved (b : bool) : eff world unit :=
  modify (fun w =>
    {| session := session w; entitlement := entitlement w;
       currentUser := currentUser w; isUserApproved := b; ui := ui w |}).

Definition in_session {A} (c : eff Session.world A) : eff world A :=
  fun w =>
    let (r, s) := c (session w) in
    (r, {| session := s; entitlement := entitlement w;
           currentUser := currentUser w; isUserApproved := isUserApproved w;
           ui := ui w |}).

Definition in_entitlement {A} (c : eff Entitlement.world A) : eff world A :=
  fun w =>
    let (r, t) := c (entitlement w) in
    (r, {| session := session w; entitlement := t;
           currentUser := currentUser w; isUserApproved := isUserApproved w;
           ui := ui w |}).

Section Code.
Variable a : answers.
Variable sa : Session.answers.
Variable ea : Entitlement.answers.
Variable Date_parse : string -> option Z.

Definition auth_getUser : eff world (option user) :=
  match getUser a with
  | Some u => ret u
  | None => throw "getUser rejected"
  end.

Definition loadUser : eff world unit :=
  try_catch
    (let* user := auth_getUser in
     let* _ := emit LoadingScreenHidden in
     match user with
     | Some user =>
         let* _ := set_currentUser (Some user) in
         let* accessCheck :=
           in_entitlement (Entitlement.isAllowedUser ea Date_parse (email user)) in
         let* _ := set_isUserApproved (Entitlement.allowed accessCheck) in
         let* _ := emit (ConsoleLog "User loaded:") in
         if negb (Entitlement.allowed accessCheck) then
           let* _ := in_session (Session.registerSessionForUser sa user) in
           let* _ := emit BookmarksLoadRequested in
           let* _ := emit ContinueWatchingLoadRequested in
           let* _ := emit ProfileLoadRequested in
           emit (PaymentPromptShown (Entitlement.reason accessCheck))
         else
           let* _ := in_session (Session.registerSessionForUser sa user) in
           let* _ := emit BookmarksLoadRequested in
           let* _ := emit ContinueWatchingLoadRequested in
           let* _ := emit (SubscriptionStatusUpdated (Entitlement.expiryDate accessCheck)) in
           let* _ := emit ProfileLoadRequested in
           let* _ := emit AuthenticatedUIShown in
           let* _ := if isSpecialUser a then emit HeartAnimationScheduled else ret tt in
           emit ExtensionPopupScheduled
     | None =>
         let* _ := set_currentUser None in
         let* _ := set_isUserApproved false in
         emit UnauthenticatedUIShown
     end)
    (fun _ =>
       let* _ := emit (ConsoleError "Error loading user:") in
       let* _ := emit UnauthenticatedUIShown in
       emit (Notification "Error loading user. Please refresh." "error")).

(** The submit handler of the sign-in form. *)
Definition handleSignin : eff world unit :=
  let* _ := emit SubmitButtonBusy in
  try_finally
    (try_catch
       (match signInWithPassword a with
        | SignInRejects => throw "signInWithPassword rejected"
        | SignInFails message => emit (Notification message "error")
        | SignsIn None =>
            emit (Notification "Sign-in did not return a user object." "error")
        | SignsIn (Some user) =>
            let* ok := in_session (Session.registerSessionForUser sa user) in
            if negb ok then ret tt
            else
              let* _ := emit (Notification "Signed in successfully!" "success") in
              loadUser
        end)
       (fun _ =>
          let* _ := emit (ConsoleError "signin error") in
          emit (Notification "Unexpected error during signin" "error")))
    (emit SubmitButtonRestored).

End Code.

End Startup.

(** * Further specification-side definitions and scenarios *)

Module Cases.

Import Session.

(** The row [endSessionForUser] upserts for device [dev] at time [t]. *)
Definition closed_row (dev : string) (t : Z) : session_row :=
  {| device_id := Some dev; is_active := Some false;
     session_flag := Some "N"; last_heartbeat := Some t |}.

(** An insert or update event that carries [r] as its new row. *)
Definition carries (kind : string) (r : session_row) (o : option session_row) : payload :=
  {| eventType := Some kind; event_ := None; new := Some r; old := o |}.

(** A row of [continue_watching] that the query of
    [loadContinueWatching] selects for user [uid]. *)
Definition resumable (uid : string) (t : gmap (string * Z) Progress.cw_row)
    (m : Z) (r : Progress.cw_row) : Prop :=
  t !! (uid, m) = Some r
  /\ Progress.completed r = false
  /\ 60 <= Progress.watch_progress r.

(** The binary64 floats of the kernel, to compare [Binary64.round64]
    with: the float of a double whose numerator and denominator have at
    most 53 bits, the rational a finite float is, and [(c / d) * 100]
    computed on floats. *)
Definition to_float (x : Q) : float :=
  PrimFloat.div (PrimFloat.of_uint63 (Uint63.of_Z (Qnum x)))
                (PrimFloat.of_uint63 (Uint63.of_Z (Z.pos (Qden x)))).

Definition of_float (f : float) : option Q :=
  match Prim2SF f with
  | S754_zero _ => Some 0%Q
  | S754_finite s m e =>
      let v := if 0 <=? e then inject_Z (Z.pos m * 2 ^ e)
               else (inject_Z (Z.pos m) / inject_Z (2 ^ (- e)))%Q in
      Some (Qred (if s then (- v)%Q else v))
  | S754_infinity _ | S754_nan => None
  end.

Definition percent_on_floats (c d : Q) : option Q :=
  of_float (PrimFloat.mul (PrimFloat.div (to_float c) (to_float d)) (to_float 100)).



(** The row [updateWatchProgress] sends for [m] at [position] of
    [duration], in world [w] at the time of [a]. *)
Definition progress_row (a : Progress.answers) (w : Progress.world)
    (m : Progress.media_item) (position duration : Q) : Progress.cw_row :=
  let tv := String.eqb (Progress.media_type m) "tv" in
  {| Progress.row_media_type := Progress.media_type m;
     Progress.row_title := or_else (Progress.title m) (Progress.name m);
     Progress.row_poster_path := Progress.poster_path m;
     Progress.watch_progress := Qfloor position;
     Progress.total_duration := Qfloor duration;
     Progress.last_watched_at := Progress.clock a;
     Progress.completed := Progress.Qltb 90 (Progress.progressPercent position duration);
     Progress.season := if tv then Some (Progress.currentSeason w) else None;
     Progress.episode := if tv then Some (Progress.currentEpisode w) else None |}.

(** A table with an older, unfinished row of another title. *)
Definition shelf : Progress.world :=
  {| Progress.currentUser := Some Scenario.alice;
     Progress.currentSeason := 2; Progress.currentEpisode := 5;
     Progress.continue_watching :=
       {[ ("user-1", 1399) :=
            {| Progress.row_media_type := "tv"; Progress.row_title := Some "Thrones";
               Progress.row_poster_path := None; Progress.watch_progress := 900;
               Progress.total_duration := 2700; Progress.last_watched_at := 100;
               Progress.completed := false; Progress.season := Some 2;
               Progress.episode := Some 5 |} ]};
     Progress.continueWatching := [];
     Progress.trace := [] |}.

Definition store_down : Progress.answers :=
  {| Progress.upsert_reply := Rejects; Progress.select_reply := Reports "57014";
     Progress.select_error_message := "statement timeout"; Progress.clock := 9000 |}.

(** The two labels of the subscription status. *)
Definition remaining (days : Z) : Subscription.status_text :=
  {| Subscription.textContent :=
       pretty days +:+ " day" +:+ (if days =? 1 then EmptyString else "s") +:+ " remaining";
     Subscription.className := "subscription-status active" |}.

Definition expired_label : Subscription.status_text :=
  {| Subscription.textContent := "Subscription expired";
     Subscription.className := "subscription-status expired" |}.

Definition blank_label : Subscription.status_text :=
  {| Subscription.textContent := EmptyString;
     Subscription.className := "subscription-status" |}.

(** A subscriber whose expiry date is not a date. *)
Definition odd_subscribers : Entitlement.world :=
  {| Entitlement.allowed_users :=
       {[ "dave@example.org" :=
            {| Entitlement.approved := Some true;
               Entitlement.expiry_date := Some "next spring" |} ]};
     Entitlement.trace := [] |}.

(** The four addresses of an episode, as [buildEmbedSources] writes
    them. *)
Definition episode_sources (show : option Z) (season episode : Z) : list Player.source :=
  let i := Player.show show in
  let se := "/" +:+ pretty season +:+ "/" +:+ pretty episode in
  [ {| Player.source_name := "Source 1";
       Player.url := "https://111movies.com/tv/" +:+ i +:+ se |};
    {| Player.source_name := "Source 2";
       Player.url := "https://player.videasy.net/tv/" +:+ i +:+ se |};
    {| Player.source_name := "Source 3";
       Player.url := "https://vidsrc.xyz/embed/tv/" +:+ i +:+ se |};
    {| Player.source_name := "Source 4";
       Player.url := "https://vidsrc.me/embed/tv/" +:+ i +:+ se |} ].

(** The network stays silent on navigation [n] until after [deadline],
    for a navigation started at [start]. *)
Definition silent_until (a : Player.answers) (n : nat) (start deadline : Z) : Prop :=
  forall u,
    match Player.network a n u with
    | Player.Hangs => True
    | Player.ErrorsAfter d => deadline < start + d
    | Player.LoadsAfter d _ => deadline < start + d
    end.

(** A show being watched: episode 1 of season 2 was requested at time 0,
    has not answered, and its 10 s timer is pending; it is now 9 s. *)
Definition show_sources : list Player.source := episode_sources (Some 1399) 2 1.

Definition stalled_show : Player.world :=
  {| Player.state :=
       {| Player.currentUser := Some Scenario.alice; Player.isUserApproved := true;
          Player.currentMediaType := Some "tv";
          Player.currentMediaId := Some 1399;
          Player.currentMediaTitle := Some "Thrones";
          Player.currentMediaData := None;
          Player.currentSeason := 2; Player.currentEpisode := 1;
          Player.embedSources := show_sources;
          Player.watchStartTime := Some 0;
          Player.playerInterval := true |};
     Player.dom :=
       {| Player.video_frame :=
            Some {| Player.src := "https://111movies.com/tv/1399/2/1?t=0";
                    Player.contentWindow_length := 0;
                    Player.onerror := Some 0%nat; Player.onload := true;
                    Player.load_once := [0%nat]; Player.pending := None |};
          Player.closures :=
            [ {| Player.index := 0;
                 Player.captured_source :=
                   {| Player.source_name := "Source 1";
                      Player.url := "https://111movies.com/tv/1399/2/1" |};
                 Player.retryCount := 0; Player.loadTimeout := 0%nat |} ];
          Player.timers :=
            [ {| Player.timer_id := 0%nat; Player.due := 10000;
                 Player.callback := Player.LoadTimeoutExpired 0 |} ];
          Player.next_timer_id := 1; Player.navigations := 1; Player.now := 9000 |};
     Player.trace := [] |}.

(** The same show half a second after its first source was given up:
    only the hand-over to the second source is pending. *)
Definition between_sources : Player.world :=
  {| Player.state := Player.state stalled_show;
     Player.dom :=
       {| Player.video_frame := Player.video_frame (Player.dom stalled_show);
          Player.closures := Player.closures (Player.dom stalled_show);
          Player.timers :=
            [ {| Player.timer_id := 1%nat; Player.due := 11000;
                 Player.callback := Player.LoadNext 1 |} ];
          Player.next_timer_id := 2; Player.navigations := 1; Player.now := 10500 |};
     Player.trace := [] |}.

(** What [closePlayer] logs after the recording, and the history entry
    it sends for a session of [d] seconds. *)
Definition closing_events (home : bool) : list Tracker.event :=
  Tracker.PlayerModalClosed
  :: (if home then [Tracker.ContinueWatchingReloadRequested] else []).

Definition history_entry (u : user) (v : Player.vars) (d : Q) : Tracker.event :=
  let tv := bool_decide (Player.currentMediaType v = Some "tv") in
  Tracker.WatchHistorySent (id u) (Player.currentMediaId v) (Player.currentMediaType v)
    (or_else (Player.currentMediaTitle v) None)
    (if tv then Some (Player.currentSeason v) else None)
    (if tv then Some (Player.currentEpisode v) else None) d.

(** Episode 5 of season 2 of a show, opened at time 0 and watched until
    [now]; nothing is pending in the browser. *)
Definition thrones : Player.media_item :=
  {| Player.media_id := 1399; Player.media_type := Some "tv";
     Player.title := None; Player.name := Some "Thrones";
     Player.resumeSeason := None; Player.resumeEpisode := None |}.

Definition no_poster (m : Player.media_item) : option string := None.

Definition evening (now : Z) : Tracker.world :=
  {| Tracker.player :=
       {| Player.state :=
            {| Player.currentUser := Some Scenario.alice; Player.isUserApproved := true;
               Player.currentMediaType := Some "tv";
               Player.currentMediaId := Some 1399;
               Player.currentMediaTitle := Some "Thrones";
               Player.currentMediaData := Some thrones;
               Player.currentSeason := 2; Player.currentEpisode := 5;
               Player.embedSources := episode_sources (Some 1399) 2 5;
               Player.watchStartTime := Some 0;
               Player.playerInterval := true |};
          Player.dom :=
            {| Player.video_frame :=
                 Some {| Player.src := "https://111movies.com/tv/1399/2/5?t=0";
                         Player.contentWindow_length := 3;
                         Player.onerror := Some 0%nat; Player.onload := true;
                         Player.load_once := []; Player.pending := None |};
               Player.closures := []; Player.timers := [];
               Player.next_timer_id := 1; Player.navigations := 1;
               Player.now := now |};
          Player.trace := [] |};
     Tracker.continue_watching := ∅;
     Tracker.continueWatching := [];
     Tracker.requests := [];
     Tracker.home_active := true;
     Tracker.log := [];
     Tracker.timeline := [] |}.

(** What [toggleBookmark] does after the list has changed: the My List
    grid is redrawn when it is showing, the hero when it shows this
    title. *)
Definition refreshes (w : Bookmarks.world) (media : Z) (cards : nat) : list Bookmarks.event :=
  (if Bookmarks.mylist_active w then [Bookmarks.MyListRendered cards] else [])
  ++ (if bool_decide (Bookmarks.featuredMedia w = Some media)
      then [Bookmarks.HeroUpdated] else []).

Definition listed_ids (w : Bookmarks.world) : list Z :=
  Bookmarks.media_id <$> Bookmarks.bookmarks w.

(** The datastore requests among the events of a trace. *)
Definition is_request (e : Bookmarks.event) : bool :=
  match e with
  | Bookmarks.InsertSent _ _ _ _ | Bookmarks.DeleteSent _ _ => true
  | _ => false
  end.

Definition requests_in (t : list Bookmarks.event) : list Bookmarks.event :=
  filter (fun e => is_request e = true) t.

Definition heat : Bookmarks.item :=
  {| Bookmarks.media_id := 949; Bookmarks.media_type := None;
     Bookmarks.title := Some "Heat"; Bookmarks.name := None;
     Bookmarks.poster_path := Some "/heat.jpg" |}.

Definition my_list : Bookmarks.world :=
  {| Bookmarks.currentUser := Some Scenario.alice; Bookmarks.isUserApproved := true;
     Bookmarks.bookmarks :=
       [ {| Bookmarks.media_id := 550; Bookmarks.media_type := Some "movie";
            Bookmarks.title := Some "Fight Club"; Bookmarks.name := None;
            Bookmarks.poster_path := None |} ];
     Bookmarks.mylist_active := true; Bookmarks.featuredMedia := Some 949;
     Bookmarks.trace := [] |}.

(** Calls that follow one another, each less than [wait] after the one
    before; [t] is the time of the call before the first. *)
Fixpoint burst {A} (wait t : Z) (cs : list (Z * A)) : Prop :=
  match cs with
  | [] => True
  | c :: r => t <= fst c < t + wait /\ burst wait (fst c) r
  end.

(** The last call of a burst that starts with [c]. *)
Fixpoint last_of {A} (c : Z * A) (cs : list (Z * A)) : Z * A :=
  match cs with
  | [] => c
  | c' :: r => last_of c' r
  end.

(** The debounced function waits for the timer of call [c]. *)
Definition armed {A} (wait : Z) (done : list (Z * A)) (w : Debounce.world A) (c : Z * A)
  : Prop :=
  exists tid,
    Debounce.timers w
    = [{| Debounce.timer_id := tid; Debounce.due := fst c + wait; Debounce.args := snd c |}]
    /\ Debounce.timeout w = Some tid
    /\ Debounce.now w = fst c
    /\ Debounce.executed w = done.

Definition idle_button : Debounce.world string :=
  {| Debounce.timeout := None; Debounce.timers := []; Debounce.next_timer_id := 0;
     Debounce.now := 0; Debounce.executed := [] |}.

(** A search result that is neither a film nor a show. *)
Definition some_person : Player.media_item :=
  {| Player.media_id := 287; Player.media_type := Some "person";
     Player.title := None; Player.name := Some "Brad Pitt";
     Player.resumeSeason := None; Player.resumeEpisode := None |}.



(** A page reloaded on device B while device A holds the session. *)
Definition reloading : Startup.world :=
  {| Startup.session :=
       Scenario.browser_of (Some "device-B") (Some (Scenario.row_of "device-A" true "S"));
     Startup.entitlement := Scenario.subscribers;
     Startup.currentUser := None; Startup.isUserApproved := false;
     Startup.ui := [] |}.

Definition alice_mail : user := {| id := "user-1"; email := "alice@example.org" |}.

Definition known_user : Startup.answers :=
  {| Startup.getUser := Some (Some alice_mail); Startup.isSpecialUser := false;
     Startup.signInWithPassword := Startup.SignsIn (Some alice_mail) |}.

End Cases.

(** * Properties *)

Lemma bind_eq {W A B} (c : eff W A) (k : A -> eff W B) w :
  bind c k w = match c w with
               | (Normal x, w') => k x w'
               | (Thrown e, w') => (Thrown e, w')
               end.
Proof. reflexivity. Qed.

Lemma truthy_str_true s : truthy_str s = true <-> s <> EmptyString.
Proof.
  unfold truthy_str. destruct (String.eqb_spec s EmptyString); simpl; split; intros; congruence.
Qed.

Lemma truthy_str_false s : truthy_str s = false <-> s = EmptyString.
Proof.
  unfold truthy_str. destruct (String.eqb_spec s EmptyString); simpl; split; intros; congruence.
Qed.

(** ** DeviceIdentity *)

Section DeviceIdentity.
Import Session Scenario.

Lemma getDeviceId_stored a w d :
  localStorage w !! KEY = Some d -> d <> EmptyString -> getDeviceId a w = (Normal d, w).
Proof.
  intros Hk Hd. unfold getDeviceId, bind, localStorage_getItem, gets. rewrite Hk. simpl.
  apply truthy_str_true in Hd. rewrite Hd. reflexivity.
Qed.

Lemma getDeviceId_fresh a w :
  truthy_ostr (localStorage w !! KEY) = false ->
  getDeviceId a w =
    if setItem_throws a then (Thrown "QuotaExceededError", w)
    else (Normal (fresh_id a), set_localStorage (<[KEY := fresh_id a]> (localStorage w)) w).
Proof.
  intros Hk. unfold getDeviceId, bind, localStorage_getItem, gets, fresh_id. rewrite Hk. simpl.
  unfold try_catch, crypto_randomUUID, localStorage_setItem.
  destruct (randomUUID a); simpl; destruct (setItem_throws a); reflexivity.
Qed.

(** C8, as stated, fails: with nothing stored and a storage that refuses
    the write, [getDeviceId] completes by throwing and returns no
    identifier. *)
Lemma getDeviceId_write_failure_throws :
  fst (getDeviceId storage_full (browser_of None None)) = Thrown "QuotaExceededError"
  /\ ~ exists d, fst (getDeviceId storage_full (browser_of None None)) = Normal d.
Proof.
  split; [reflexivity | intros [d Hd]; discriminate Hd].
Qed.

(** C8, amended: a stored non-empty identifier is returned and nothing is
    written; with none stored, a write that succeeds stores the generated
    identifier (the UUID, or the time-and-random fallback when
    [crypto.randomUUID] throws) and returns it; and once a call has
    returned a non-empty identifier, every later call on the resulting
    storage returns the same one, whatever the browser would generate
    then. *)
Theorem getDeviceId_stable (a : answers) (w : world) :
  (forall d, localStorage w !! KEY = Some d -> d <> EmptyString ->
     getDeviceId a w = (Normal d, w))
  /\ (truthy_ostr (localStorage w !! KEY) = false -> setItem_throws a = false ->
        fst (getDeviceId a w) = Normal (fresh_id a)
        /\ localStorage (snd (getDeviceId a w)) !! KEY = Some (fresh_id a))
  /\ (forall d w', getDeviceId a w = (Normal d, w') -> d <> EmptyString ->
        forall a', getDeviceId a' w' = (Normal d, w')).
Proof.
  split; [| split].
  - intros d Hk Hd. by apply getDeviceId_stored.
  - intros Hk Hs. rewrite (getDeviceId_fresh a w Hk), Hs. simpl.
    split; [done | by rewrite lookup_insert_eq].
  - intros d w' Hrun Hd a'.
    destruct (truthy_ostr (localStorage w !! KEY)) eqn:Hk.
    + destruct (localStorage w !! KEY) as [s|] eqn:Hs; [| discriminate Hk].
      apply truthy_str_true in Hk.
      rewrite (getDeviceId_stored a w s Hs Hk) in Hrun.
      injection Hrun as -> ->. by apply getDeviceId_stored.
    + rewrite (getDeviceId_fresh a w Hk) in Hrun.
      destruct (setItem_throws a); [discriminate Hrun |].
      injection Hrun as <- <-.
      apply getDeviceId_stored; [| done]. simpl. by rewrite lookup_insert_eq.
Qed.

Lemma getDeviceId_stable_witness :
  truthy_ostr (localStorage (browser_of None None) !! KEY) = false
  /\ setItem_throws healthy = false
  /\ fst (getDeviceId healthy (browser_of None None)) = Normal "3f0c9a4e-uuid"
  /\ getDeviceId storage_full (snd (getDeviceId healthy (browser_of None None)))
     = (Normal "3f0c9a4e-uuid", snd (getDeviceId healthy (browser_of None None))).
Proof.
  pose proof (getDeviceId_stable healthy (browser_of None None)) as (_ & Hfresh & Hagain).
  split; [reflexivity |]. split; [reflexivity |].
  split.
  - apply Hfresh; reflexivity.
  - apply (Hagain "3f0c9a4e-uuid"); [reflexivity | discriminate].
Defined.

End DeviceIdentity.

(** ** SessionGuard: registration *)

Section Registration.
Import Session Scenario.

Lemma merge_claimed_row dev t old : merge_row (claimed_row dev t) old = claimed_row dev t.
Proof. by destruct old. Qed.

Lemma foreign_active_true r A B :
  is_active r = Some true -> device_id r = Some A -> A <> EmptyString -> A <> B ->
  foreign_active (Some r) B = true.
Proof.
  intros Ha Hd HA HAB. unfold foreign_active. rewrite Ha, Hd.
  apply truthy_str_true in HA. cbn [truthy_ostr]. rewrite HA.
  repeat case_bool_decide; try done; congruence.
Qed.

Lemma foreign_active_false (existing : option session_row) B :
  existing = None
  \/ (exists r, existing = Some r
        /\ (device_id r = Some B \/ is_active r <> Some true
            \/ device_id r = None \/ device_id r = Some EmptyString)) ->
  foreign_active existing B = false.
Proof.
  intros [-> | (r & -> & Hr)]; [done |]. unfold foreign_active.
  destruct Hr as [Hd | [Ha | [Hd | Hd]]].
  - rewrite Hd. repeat case_bool_decide; try done; by rewrite ?andb_false_r.
  - by case_bool_decide.
  - rewrite Hd. cbn [truthy_ostr]. by rewrite andb_false_r.
  - rewrite Hd. cbn [truthy_ostr truthy_str String.eqb negb]. by rewrite andb_false_r.
Qed.

(** What the accepting branch does once the lookup is over. *)
Lemma accept_branch a (u : user) B w :
  upsert_reply a <> Rejects ->
  exists w',
    (let* _ := upsert a (id u) (claimed_row B (clock a)) in
     let* _ := startSessionRealtimeSubscription (id u) B in
     let* _ := startHeartbeat (id u) B in
     ret true) w = (Normal true, w')
    /\ trace w' = trace w ++ UpsertSent (id u) (claimed_row B (clock a))
                          :: (if _sessionChannel w is Some _ then [ChannelRemoved] else [])
    /\ (upsert_reply a = Answers ->
          active_sessions w' = <[id u := claimed_row B (clock a)]> (active_sessions w))
    /\ (upsert_reply a <> Answers -> active_sessions w' = active_sessions w)
    /\ _sessionChannel w' = Some (id u, B)
    /\ _heartbeatIntervalId w' = Some (id u, B)
    /\ localStorage w' = localStorage w.
Proof.
  intros Hup. unfold upsert, startSessionRealtimeSubscription, startHeartbeat,
    stopHeartbeat, emit, modify, gets, bind, ret.
  destruct (upsert_reply a) eqn:Hr; [| | done]; simpl;
    destruct (_sessionChannel w); simpl;
    destruct (_heartbeatIntervalId w); simpl;
    eexists; (split; [reflexivity |]); simpl;
    rewrite ?merge_claimed_row, <- ?app_assoc; simpl; repeat split; try done.
Qed.

(** C2, as stated, fails: alice's stored row is active on device A, the
    lookup reports a failure, and the registration from device B succeeds
    and replaces the stored device id. *)
Lemma registerSessionForUser_overwrites_foreign_session :
  let w := browser_of (Some "device-B") (Some (row_of "device-A" true "S")) in
  (active_sessions w !! "user-1") ≫= device_id = Some "device-A"
  /\ (active_sessions w !! "user-1") ≫= is_active = Some true
  /\ fst (registerSessionForUser lookup_down alice w) = Normal true
  /\ (active_sessions (snd (registerSessionForUser lookup_down alice w)) !! "user-1")
       ≫= device_id = Some "device-B".
Proof. repeat split; vm_compute; reflexivity. Qed.

(** The guard also wants a truthy stored device id: an active row whose
    device id is the empty string is claimed by the newcomer. *)
Lemma registerSessionForUser_claims_row_without_device :
  let w := browser_of (Some "device-B")
             (Some {| device_id := Some EmptyString; is_active := Some true;
                      session_flag := Some "S"; last_heartbeat := Some 1000 |}) in
  fst (registerSessionForUser healthy alice w) = Normal true
  /\ (active_sessions (snd (registerSessionForUser healthy alice w)) !! "user-1")
       ≫= device_id = Some "device-B".
Proof. split; vm_compute; reflexivity. Qed.

(** C2, amended: when this browser's stored device id is B and the lookup
    of the user's row answers, (1) a row that is active on a non-empty
    device id A different from B makes the registration return false
    after calling signOut at the identity provider, with no write sent
    and the table unchanged; (2) with no row, a row of device B, a row
    that is not active, or a row without a device id, and an upsert call
    that does not reject, the registration returns true and sends the
    upsert of [{device B, is_active true, session_flag 'S',
    last_heartbeat now}], which a datastore that answers stores under the
    user's id. *)
Theorem registerSessionForUser_single_device
    (a : answers) (u : user) (w : world) (B : string) :
  localStorage w !! KEY = Some B -> B <> EmptyString ->
  select_reply a = Answers ->
  (forall r A,
     active_sessions w !! id u = Some r ->
     is_active r = Some true -> device_id r = Some A -> A <> EmptyString -> A <> B ->
     exists w',
       registerSessionForUser a u w = (Normal false, w')
       /\ active_sessions w' = active_sessions w
       /\ trace w' = trace w ++
            [AuthSignOut;
             if signOut_reply a is Rejects
             then ConsoleError "registerSessionForUser error"
             else Notification
                    "Account already active on another device. Please sign out there first."
                    "error"])
  /\ (upsert_reply a <> Rejects ->
      (active_sessions w !! id u = None
       \/ exists r, active_sessions w !! id u = Some r
            /\ (device_id r = Some B \/ is_active r <> Some true
                \/ device_id r = None \/ device_id r = Some EmptyString)) ->
      exists w',
        registerSessionForUser a u w = (Normal true, w')
        /\ trace w' = trace w ++ UpsertSent (id u) (claimed_row B (clock a))
                              :: (if _sessionChannel w is Some _ then [ChannelRemoved] else [])
        /\ (upsert_reply a = Answers ->
              active_sessions w' = <[id u := claimed_row B (clock a)]> (active_sessions w))).
Proof.
  intros Hk HB Hsel. split.
  - intros r A Hrow Hact Hdev HA HAB.
    unfold registerSessionForUser. rewrite bind_eq, (getDeviceId_stored a w B Hk HB).
    unfold try_catch, select_maybeSingle. rewrite Hsel.
    rewrite bind_eq. unfold gets at 1. rewrite Hrow. rewrite bind_eq.
    unfold ret at 1. rewrite (foreign_active_true r A B Hact Hdev HA HAB).
    unfold auth_signOut, showNotification, emit, modify, bind, ret, throw.
    destruct (signOut_reply a); simpl; eexists; (split; [reflexivity |]); simpl;
      rewrite <- ?app_assoc; by split.
  - intros Hup Hcase.
    destruct (accept_branch a u B w Hup) as (w' & Hrun & Htr & Hst & _).
    exists w'. split; [| by split].
    unfold registerSessionForUser. rewrite bind_eq, (getDeviceId_stored a w B Hk HB).
    unfold try_catch, select_maybeSingle. rewrite Hsel.
    rewrite bind_eq. unfold gets at 1. rewrite bind_eq. unfold ret at 1.
    rewrite (foreign_active_false _ B Hcase).
    unfold claimed_row in Hrun. by rewrite Hrun.
Qed.

Lemma registerSessionForUser_single_device_witness :
  fst (registerSessionForUser healthy alice
         (browser_of (Some "device-B") (Some (row_of "device-A" true "S")))) = Normal false
  /\ fst (registerSessionForUser healthy alice
            (browser_of (Some "device-A") (Some (row_of "device-A" true "S")))) = Normal true.
Proof.
  split.
  - destruct (registerSessionForUser_single_device healthy alice
                (browser_of (Some "device-B") (Some (row_of "device-A" true "S")))
                "device-B") as [Hreject _];
      [reflexivity | discriminate | reflexivity |].
    destruct (Hreject (row_of "device-A" true "S") "device-A") as (w' & -> & _);
      [reflexivity | reflexivity | reflexivity | discriminate | discriminate |].
    reflexivity.
  - destruct (registerSessionForUser_single_device healthy alice
                (browser_of (Some "device-A") (Some (row_of "device-A" true "S")))
                "device-A") as [_ Haccept];
      [reflexivity | discriminate | reflexivity |].
    destruct Haccept as (w' & -> & _); [discriminate | | reflexivity].
    right. exists (row_of "device-A" true "S"). split; [reflexivity | by left].
Defined.

(** C9: when the lookup of the existing row reports an error, the
    registration logs it, proceeds as if there were no row, sends the
    upsert of its own device and returns true (the upsert call not
    rejecting); a datastore that answers the upsert then holds this
    device's row under the user's id, whatever row was there before. *)
Theorem registerSessionForUser_lookup_error_not_fatal
    (a : answers) (u : user) (w : world) (B code : string) :
  localStorage w !! KEY = Some B -> B <> EmptyString ->
  select_reply a = Reports code ->
  upsert_reply a <> Rejects ->
  exists w',
    registerSessionForUser a u w = (Normal true, w')
    /\ trace w' = trace w ++ ConsoleError "Error checking active_sessions:"
                          :: UpsertSent (id u) (claimed_row B (clock a))
                          :: (if _sessionChannel w is Some _ then [ChannelRemoved] else [])
    /\ (upsert_reply a = Answers ->
          active_sessions w' !! id u = Some (claimed_row B (clock a))).
Proof.
  intros Hk HB Hsel Hup.
  set (w1 := snd (emit (ConsoleError "Error checking active_sessions:") w)).
  destruct (accept_branch a u B w1 Hup) as (w' & Hrun & Htr & Hst & _).
  exists w'. split; [| split].
  - unfold registerSessionForUser. rewrite bind_eq, (getDeviceId_stored a w B Hk HB).
    unfold try_catch, select_maybeSingle. rewrite Hsel.
    rewrite bind_eq. unfold ret at 1. rewrite bind_eq.
    change (emit (ConsoleError "Error checking active_sessions:") w) with (Normal tt, w1).
    unfold foreign_active. unfold claimed_row in Hrun. by rewrite Hrun.
  - rewrite Htr. subst w1. simpl. by rewrite <- app_assoc.
  - intros Hans. rewrite (Hst Hans). by rewrite lookup_insert_eq.
Qed.

Lemma registerSessionForUser_lookup_error_not_fatal_witness :
  exists w',
    registerSessionForUser lookup_down alice
      (browser_of (Some "device-B") (Some (row_of "device-A" true "S"))) = (Normal true, w')
    /\ active_sessions w' !! "user-1" = Some (claimed_row "device-B" 5000).
Proof.
  destruct (registerSessionForUser_lookup_error_not_fatal lookup_down alice
              (browser_of (Some "device-B") (Some (row_of "device-A" true "S")))
              "device-B" "57014") as (w' & Hrun & _ & Hstore);
    [reflexivity | discriminate | reflexivity | discriminate |].
  exists w'. split; [exact Hrun | apply Hstore; reflexivity].
Defined.

End Registration.

(** ** SessionGuard: realtime reaction *)

Section Realtime.
Import Session Scenario.

Lemma forced_signouts_app t s :
  forced_signouts (t ++ s) = (forced_signouts t + forced_signouts s)%nat.
Proof. unfold forced_signouts. by rewrite filter_app, length_app. Qed.

(** [forceLocalSignOut] always completes: it stops the heartbeat, drops
    the channel, calls signOut once, notifies and switches to the
    unauthenticated view once. *)
Lemma forceLocalSignOut_run a m w :
  exists w',
    forceLocalSignOut a m w = (Normal tt, w')
    /\ trace w' = trace w ++ teardown_events a w
                          ++ [Notification m "warning"; UnauthenticatedUI]
    /\ _heartbeatIntervalId w' = None
    /\ _sessionChannel w' = None.
Proof.
  unfold forceLocalSignOut, stopHeartbeat, stopSessionRealtimeSubscription,
    auth_signOut, showNotification, showUnauthenticatedUI, try_catch, emit,
    modify, gets, bind, ret, throw, teardown_events.
  destruct (_heartbeatIntervalId w) eqn:Hh; simpl;
    destruct (_sessionChannel w) eqn:Hc; simpl;
    destruct (signOut_reply a); simpl;
    eexists; (split; [reflexivity |]); simpl;
    rewrite <- ?app_assoc; by simpl.
Qed.

Lemma teardown_no_signout a w : forced_signouts (teardown_events a w) = 0%nat.
Proof.
  unfold teardown_events. by destruct (_sessionChannel w), (signOut_reply a).
Qed.

Lemma forceLocalSignOut_counts a m w :
  exists w',
    forceLocalSignOut a m w = (Normal tt, w')
    /\ forced_signouts (trace w') = (forced_signouts (trace w) + 1)%nat
    /\ Notification m "warning" ∈ trace w'
    /\ AuthSignOut ∈ trace w'
    /\ _heartbeatIntervalId w' = None
    /\ _sessionChannel w' = None.
Proof.
  destruct (forceLocalSignOut_run a m w) as (w' & Hrun & Htr & Hh & Hc).
  exists w'. split; [done |]. rewrite Htr. repeat split; try done.
  - rewrite !forced_signouts_app, teardown_no_signout. reflexivity.
  - set_solver.
  - unfold teardown_events. set_solver.
Qed.

Lemma upper_N_truthy f : String.eqb (toUpperCase f) "N" = true -> truthy_str f = true.
Proof. by destruct f. Qed.

Lemma code_disabled r :
  bool_decide (is_active r = Some false) || flag_is_N r = disabled r.
Proof.
  unfold disabled, flag_is_N. f_equal. destruct (session_flag r) as [f|]; [| done].
  destruct (String.eqb (toUpperCase f) "N") eqn:E.
  - by rewrite (upper_N_truthy f E).
  - by rewrite andb_false_r.
Qed.

Lemma code_other_device r my :
  truthy_ostr (device_id r) && negb (bool_decide (device_id r = Some my))
  = on_other_device r my.
Proof.
  unfold on_other_device. destruct (device_id r) as [d|]; [| done].
  cbn [truthy_ostr]. unfold truthy_str. f_equal. f_equal.
  case_bool_decide as H; destruct (String.eqb_spec d my); congruence.
Qed.

(** The two tables differ on inserts (and on events of unknown kind)
    only: on a delete and on an update the specification's table is the
    code's. *)
Lemma stated_reaction_on_delete_and_update p my :
  kind_is p "DELETE" = true \/ kind_is p "UPDATE" = true ->
  stated_reaction p my = amended_reaction p my.
Proof.
  unfold stated_reaction, amended_reaction.
  intros [H | H]; rewrite H; [done |].
  destruct (kind_is p "DELETE") eqn:Hd.
  - unfold kind_is in *. repeat case_bool_decide; congruence.
  - rewrite orb_true_r. cbn [andb].
    destruct (subject_row p) as [r |]; [| done].
    by destruct (disabled r), (on_other_device r my).
Qed.

(** C3, as stated, fails: an insert event whose row is active, flagged
    'S' and held by another device forces a sign-out, although the
    specification lists the device check for updates only and has every
    other event ignored. *)
Lemma handleSessionChange_insert_from_other_device :
  let p := change "INSERT" (Some (row_of "device-B" true "S")) None in
  let w := browser_of (Some "device-A") (Some (row_of "device-B" true "S")) in
  stated_reaction p "device-A" = Ignored
  /\ forced_signouts (trace (snd (handleSessionChange healthy p "device-A" w))) = 1%nat.
Proof. split; vm_compute; reflexivity. Qed.

(** Everything a forced sign-out changes. *)
Lemma forceLocalSignOut_exact a m w :
  exists w',
    forceLocalSignOut a m w = (Normal tt, w')
    /\ trace w' = trace w ++ teardown_events a w
                          ++ [Notification m "warning"; UnauthenticatedUI]
    /\ _heartbeatIntervalId w' = None
    /\ _sessionChannel w' = None
    /\ intervals w' = intervals_without (_heartbeatIntervalId w) (intervals w)
    /\ localStorage w' = localStorage w
    /\ active_sessions w' = active_sessions w.
Proof.
  unfold forceLocalSignOut, stopHeartbeat, stopSessionRealtimeSubscription,
    clearInterval, auth_signOut, showNotification, showUnauthenticatedUI, try_catch,
    emit, modify, gets, bind, ret, throw, teardown_events, intervals_without.
  destruct (_heartbeatIntervalId w) eqn:Hh; simpl;
    destruct (_sessionChannel w) eqn:Hc; simpl;
    destruct (signOut_reply a); simpl;
    eexists; (split; [reflexivity |]); simpl;
    rewrite <- ?app_assoc; by simpl.
Qed.

(** C3, amended: the handler always completes and reacts as
    [amended_reaction] says.  On a delete it forces a local sign-out
    exactly when the old row's device id is this device's; on any other
    event it forces one when the row is inactive or flagged 'N', or when
    its device id is present and differs from this device's (for inserts
    as well as updates).  A forced sign-out happens once: it stops the
    heartbeat and removes the channel, where there is one, calls
    signOut, shows the message of its cause and switches to the
    unauthenticated view, in this order and with nothing else.  Every
    other event is ignored: no call is made and nothing changes, except
    that a delete event with a new row and no old one has its error
    logged.  The local store and the table are never touched. *)
Theorem handleSessionChange_reaction
    (a : answers) (p : payload) (my : string) (w : world) :
  exists w',
    handleSessionChange a p my w = (Normal tt, w')
    /\ forced_signouts (trace w')
       = (forced_signouts (trace w) + signouts_of (amended_reaction p my))%nat
    /\ localStorage w' = localStorage w
    /\ active_sessions w' = active_sessions w
    /\ match amended_reaction p my with
       | ForcedSignOut m =>
           trace w' = trace w ++ teardown_events a w
                              ++ [Notification m "warning"; UnauthenticatedUI]
           /\ Notification m "warning" ∈ trace w' /\ AuthSignOut ∈ trace w'
           /\ _heartbeatIntervalId w' = None /\ _sessionChannel w' = None
           /\ intervals w' = intervals_without (_heartbeatIntervalId w) (intervals w)
       | Ignored =>
           trace w' = trace w ++ (if delete_without_old_row p
                                  then [ConsoleError "handleSessionChange error"]
                                  else [])
           /\ _heartbeatIntervalId w' = _heartbeatIntervalId w
           /\ _sessionChannel w' = _sessionChannel w
           /\ intervals w' = intervals w
       end.
Proof.
  assert (Hforce : forall m,
    exists w',
      try_catch (forceLocalSignOut a m)
        (fun _ => emit (ConsoleError "handleSessionChange error")) w = (Normal tt, w')
      /\ forced_signouts (trace w') = (forced_signouts (trace w) + 1)%nat
      /\ localStorage w' = localStorage w
      /\ active_sessions w' = active_sessions w
      /\ trace w' = trace w ++ teardown_events a w
                            ++ [Notification m "warning"; UnauthenticatedUI]
      /\ Notification m "warning" ∈ trace w' /\ AuthSignOut ∈ trace w'
      /\ _heartbeatIntervalId w' = None /\ _sessionChannel w' = None
      /\ intervals w' = intervals_without (_heartbeatIntervalId w) (intervals w)).
  { intros m.
    destruct (forceLocalSignOut_exact a m w) as (w' & Hrun & Htr & Hh & Hc & Hi & Hl & Ht).
    destruct (forceLocalSignOut_counts a m w) as (w2 & Hrun2 & Hn & Hnote & Hout & _).
    rewrite Hrun in Hrun2. injection Hrun2 as <-.
    exists w'. unfold try_catch. rewrite Hrun. by split_and!. }
  assert (Hquiet : exists w',
    try_catch (ret tt) (fun _ => emit (ConsoleError "handleSessionChange error")) w
      = (Normal tt, w')
    /\ forced_signouts (trace w') = (forced_signouts (trace w) + 0)%nat
    /\ localStorage w' = localStorage w
    /\ active_sessions w' = active_sessions w
    /\ trace w' = trace w ++ []
    /\ _heartbeatIntervalId w' = _heartbeatIntervalId w
    /\ _sessionChannel w' = _sessionChannel w
    /\ intervals w' = intervals w).
  { exists w. unfold try_catch, ret. rewrite app_nil_r. split_and!; first [done | lia]. }
  assert (Hthrow : exists w',
    try_catch (throw "TypeError")
      (fun _ => emit (ConsoleError "handleSessionChange error")) w = (Normal tt, w')
    /\ forced_signouts (trace w') = (forced_signouts (trace w) + 0)%nat
    /\ localStorage w' = localStorage w
    /\ active_sessions w' = active_sessions w
    /\ trace w' = trace w ++ [ConsoleError "handleSessionChange error"]
    /\ _heartbeatIntervalId w' = _heartbeatIntervalId w
    /\ _sessionChannel w' = _sessionChannel w
    /\ intervals w' = intervals w).
  { eexists. unfold try_catch, throw, emit, modify. split; [reflexivity |]. simpl.
    rewrite forced_signouts_app. by split_and!. }
  unfold handleSessionChange, amended_reaction, delete_without_old_row,
    reaction_to_delete, kind_is, subject_row.
  destruct (new p) as [n|], (old p) as [o|];
    rewrite ?code_disabled, ?code_other_device;
    destruct (bool_decide (or_else (eventType p) (event_ p) = Some "DELETE"));
    try destruct (bool_decide (device_id o = Some my));
    try destruct (disabled _); try destruct (on_other_device _ _);
    cbn [signouts_of andb];
    first [ apply Hforce | exact Hquiet | exact Hthrow ].
Qed.

End Realtime.

(** ** EntitlementGate *)

Section EntitlementGate.
Import Entitlement Scenario.

(** C4: [isAllowedUser] always completes, and its answer is: not_found
    when the lookup answers and no row has the email; not_approved when
    the row's [approved] is not exactly true; expired when [approved] is
    true and the expiry date is present and parses to a time strictly
    before now; allowed (carrying the expiry date) when [approved] is
    true and the expiry date is absent or is not before now (an empty or
    unparseable date compares as not before); and error, with allowed false, when the lookup rejects or
    reports a failure other than the client's no-row code PGRST116. *)
Theorem isAllowedUser_decision
    (a : answers) (Date_parse : string -> option Z) (w : world) (email : string) :
  (lookup_reply a = Answers -> allowed_users w !! email = None ->
     isAllowedUser a Date_parse email w = (Normal (denied "not_found"), w))
  /\ (forall r, lookup_reply a = Answers -> allowed_users w !! email = Some r ->
        approved r <> Some true ->
        isAllowedUser a Date_parse email w = (Normal (denied "not_approved"), w))
  /\ (forall r s t, lookup_reply a = Answers -> allowed_users w !! email = Some r ->
        approved r = Some true ->
        expiry_date r = Some s -> s <> EmptyString -> Date_parse s = Some t -> t < now a ->
        isAllowedUser a Date_parse email w = (Normal (denied "expired"), w))
  /\ (forall r, lookup_reply a = Answers -> allowed_users w !! email = Some r ->
        approved r = Some true ->
        (forall s t, expiry_date r = Some s -> s <> EmptyString ->
                     Date_parse s = Some t -> now a <= t) ->
        isAllowedUser a Date_parse email w = (Normal (granted (expiry_date r)), w))
  /\ (lookup_reply a = Rejects
      \/ (exists code, lookup_reply a = Reports code /\ code <> "PGRST116") ->
      fst (isAllowedUser a Date_parse email w) = Normal (denied "error")).
Proof.
  unfold isAllowedUser, select_single, try_catch, bind, gets, ret, throw, denied, granted.
  split; [| split; [| split; [| split]]].
  - intros -> ->. reflexivity.
  - intros r -> -> Hap. simpl. by rewrite bool_decide_eq_false_2.
  - intros r s t -> -> Hap Hex Hs Hp Hlt. simpl.
    rewrite bool_decide_eq_true_2 by done. rewrite Hex. simpl.
    apply truthy_str_true in Hs. rewrite Hs, Hp. simpl.
    apply Z.ltb_lt in Hlt. by rewrite Hlt.
  - intros r -> -> Hap Hex. simpl.
    rewrite bool_decide_eq_true_2 by done.
    destruct (expiry_date r) as [s |]; [| done]. simpl.
    destruct (truthy_str s) eqn:Hs; [| done]. apply truthy_str_true in Hs.
    destruct (Date_parse s) as [t |] eqn:Hp; [| done]. simpl.
    specialize (Hex s t eq_refl Hs Hp). apply Z.ltb_ge in Hex. by rewrite Hex.
  - intros [-> | (code & -> & Hc)]; [done |]. simpl.
    apply String.eqb_neq in Hc. by rewrite Hc.
Qed.

Lemma isAllowedUser_decision_witness :
  fst (isAllowedUser mid_2025 toy_Date_parse "dave@example.org" subscribers)
    = Normal (denied "not_found")
  /\ fst (isAllowedUser mid_2025 toy_Date_parse "carol@example.org" subscribers)
       = Normal (denied "not_approved")
  /\ fst (isAllowedUser mid_2025 toy_Date_parse "bob@example.org" subscribers)
       = Normal (denied "expired")
  /\ fst (isAllowedUser mid_2025 toy_Date_parse "alice@example.org" subscribers)
       = Normal (granted (Some "2030-01-01"))
  /\ fst (isAllowedUser {| lookup_reply := Reports "57014"; now := 0 |}
            toy_Date_parse "alice@example.org" subscribers)
       = Normal (denied "error").
Proof.
  split; [| split; [| split; [| split]]].
  - destruct (isAllowedUser_decision mid_2025 toy_Date_parse subscribers
                "dave@example.org") as (H & _).
    rewrite H; reflexivity.
  - destruct (isAllowedUser_decision mid_2025 toy_Date_parse subscribers
                "carol@example.org") as (_ & H & _).
    rewrite (H {| approved := Some false; expiry_date := None |});
      [reflexivity | reflexivity | reflexivity | discriminate].
  - destruct (isAllowedUser_decision mid_2025 toy_Date_parse subscribers
                "bob@example.org") as (_ & _ & H & _).
    rewrite (H {| approved := Some true; expiry_date := Some "2024-01-01" |}
               "2024-01-01" 1704067200000);
      [reflexivity | reflexivity | reflexivity | reflexivity | reflexivity
       | discriminate | reflexivity | reflexivity].
  - destruct (isAllowedUser_decision mid_2025 toy_Date_parse subscribers
                "alice@example.org") as (_ & _ & _ & H & _).
    rewrite (H {| approved := Some true; expiry_date := Some "2030-01-01" |});
      [reflexivity | reflexivity | reflexivity | reflexivity |].
    intros s t [= <-] _ [= <-]. simpl. lia.
  - destruct (isAllowedUser_decision {| lookup_reply := Reports "57014"; now := 0 |}
                toy_Date_parse subscribers "alice@example.org") as (_ & _ & _ & _ & H).
    apply H. right. exists "57014". split; [reflexivity | discriminate].
Defined.

(** The no-row code is not treated as a failure: a lookup that reports
    PGRST116 is answered like a missing record. *)
Lemma isAllowedUser_no_row_code a Date_parse w email :
  lookup_reply a = Reports "PGRST116" ->
  isAllowedUser a Date_parse email w = (Normal (denied "not_found"), w).
Proof.
  intros H. unfold isAllowedUser, select_single, try_catch, bind, ret. by rewrite H.
Qed.

End EntitlementGate.

(** ** WatchProgressTracker *)

Section WatchProgress.
Import Binary64 Progress Scenario Cases.
Local Open Scope Q_scope.

(** *** Rounding to the nearest double *)

Lemma rne_bounds x : (Qfloor x <= rne x <= Qfloor x + 1)%Z.
Proof.
  unfold rne. destruct (Qcompare _ _); [destruct (Z.even _) | |]; lia.
Qed.

Lemma rne_inject z : rne (inject_Z z) = z.
Proof.
  unfold rne. rewrite Qfloor_Z.
  destruct (Qcompare_spec (inject_Z z - inject_Z z) (1 # 2)) as [H | H | H];
    [exfalso; lra | reflexivity | exfalso; lra].
Qed.

Lemma rne_le x y : x <= y -> (rne x <= rne y)%Z.
Proof.
  intros Hxy.
  pose proof (Qfloor_resp_le _ _ Hxy) as Hq.
  pose proof (rne_bounds x) as Bx. pose proof (rne_bounds y) as By.
  destruct (Z.eq_dec (Qfloor x) (Qfloor y)) as [E | N]; [| lia].
  unfold rne in *. rewrite <- E in *. clear Bx By Hq.
  set (q := Qfloor x) in *.
  destruct (Qcompare_spec (x - inject_Z q) (1 # 2)) as [Hx | Hx | Hx];
    destruct (Qcompare_spec (y - inject_Z q) (1 # 2)) as [Hy | Hy | Hy];
    try destruct (Z.even q); try lia; exfalso; lra.
Qed.

Lemma rne_nonneg x : 0 <= x -> (0 <= rne x)%Z.
Proof. intros H. apply rne_le in H. exact H. Qed.

Lemma pow2_pos s : (0 <= s)%Z -> 0 < inject_Z (2 ^ s).
Proof.
  intros H. change 0 with (inject_Z 0). rewrite <- Zlt_Qlt.
  by apply Z.pow_pos_nonneg.
Qed.

Lemma pow2_quotient k s :
  (0 <= s <= k)%Z -> inject_Z (2 ^ k) / inject_Z (2 ^ s) == inject_Z (2 ^ (k - s)).
Proof.
  intros H. pose proof (pow2_pos s (proj1 H)) as P.
  replace k with ((k - s) + s)%Z at 1 by lia.
  rewrite Z.pow_add_r by lia. rewrite inject_Z_mult. field. lra.
Qed.

Lemma shift64_nonneg n : (0 <= shift64 n)%Z.
Proof. unfold shift64. lia. Qed.

Lemma round_units_le n m : 0 <= n -> n <= m -> (round_units n <= round_units m)%Z.
Proof.
  intros Hn Hnm. unfold round_units.
  assert (H0 : (0 <= Qfloor n)%Z).
  { apply (Qfloor_resp_le 0 n) in Hn. exact Hn. }
  pose proof (Qfloor_resp_le _ _ Hnm) as Hfl.
  pose proof (Z.log2_le_mono _ _ Hfl) as Hlog.
  pose proof (Z.log2_nonneg (Qfloor n)) as Ln.
  pose proof (shift64_nonneg n) as Sn. pose proof (shift64_nonneg m) as Sm.
  pose proof (pow2_pos _ Sn) as Pn. pose proof (pow2_pos _ Sm) as Pm.
  destruct (Z.eq_dec (shift64 n) (shift64 m)) as [E | N].
  - rewrite <- E. apply Z.mul_le_mono_nonneg_l; [apply Z.pow_nonneg; lia |].
    apply rne_le. apply Qmult_le_compat_r; [exact Hnm |].
    apply Qlt_le_weak, Qinv_lt_0_compat, Pn.
  - assert (Hs : (shift64 n < shift64 m)%Z) by (unfold shift64 in *; lia).
    set (L := Z.log2 (Qfloor n)) in *. set (L' := Z.log2 (Qfloor m)) in *.
    assert (Em : shift64 m = (L' - 52)%Z) by (unfold shift64 in *; fold L'; lia).
    assert (HL : (L + 1 <= L')%Z) by (unfold shift64 in *; fold L L' in Hs |- *; lia).
    assert (Hm0 : (0 < Qfloor m)%Z).
    { destruct (Z.lt_ge_cases 0 (Qfloor m)) as [? | H]; [done |].
      pose proof (Z.log2_nonpos _ H) as Hz. fold L' in Hz. lia. }
    assert (Hlow : inject_Z (2 ^ L') <= m).
    { eapply Qle_trans; [| apply Qfloor_le]. rewrite <- Zle_Qle.
      apply (Z.log2_spec _ Hm0). }
    assert (Hup : n <= inject_Z (2 ^ (L + 1))).
    { apply Qlt_le_weak. eapply Qlt_le_trans; [apply Qlt_floor |].
      rewrite <- Zle_Qle.
      destruct (Z.eq_dec (Qfloor n) 0%Z) as [Z0 | NZ].
      - subst L. rewrite Z0. cbn. lia.
      - assert (P : (0 < Qfloor n)%Z) by lia.
        pose proof (Z.log2_spec _ P) as [_ U]. fold L in U.
        replace (Z.succ L) with (L + 1)%Z in U by lia. lia. }
    assert (Sle : (shift64 n <= L + 1)%Z) by (unfold shift64; fold L; lia).
    transitivity (2 ^ (L + 1))%Z; [| transitivity (2 ^ L')%Z].
    + replace (2 ^ (L + 1))%Z
        with (2 ^ shift64 n * rne (inject_Z (2 ^ (L + 1 - shift64 n))))%Z.
      * apply Z.mul_le_mono_nonneg_l; [apply Z.pow_nonneg; lia |].
        apply rne_le. rewrite <- pow2_quotient by lia.
        apply Qmult_le_compat_r; [exact Hup |].
        apply Qlt_le_weak, Qinv_lt_0_compat, Pn.
      * rewrite rne_inject, <- Z.pow_add_r by lia. f_equal. lia.
    + apply Z.pow_le_mono_r; lia.
    + replace (2 ^ L')%Z
        with (2 ^ shift64 m * rne (inject_Z (2 ^ (L' - shift64 m))))%Z.
      * apply Z.mul_le_mono_nonneg_l; [apply Z.pow_nonneg; lia |].
        apply rne_le. rewrite <- pow2_quotient by lia.
        apply Qmult_le_compat_r; [exact Hlow |].
        apply Qlt_le_weak, Qinv_lt_0_compat, Pm.
      * rewrite rne_inject, <- Z.pow_add_r by lia. f_equal. lia.
Qed.

Lemma unit64_pos : 0 < unit64.
Proof. reflexivity. Qed.

Lemma round_units_nonneg n : 0 <= n -> (0 <= round_units n)%Z.
Proof.
  intros H. unfold round_units. apply Z.mul_nonneg_nonneg.
  - apply Z.pow_nonneg. lia.
  - apply rne_nonneg. apply Qmult_le_0_compat; [exact H |].
    apply Qlt_le_weak, Qinv_lt_0_compat, pow2_pos, shift64_nonneg.
Qed.

Lemma round64_pos_le x y : 0 <= x -> x <= y -> round64_pos x <= round64_pos y.
Proof.
  intros Hx Hxy. unfold round64_pos. rewrite !Qred_correct.
  apply Qmult_le_compat_r; [| apply Qlt_le_weak, Qinv_lt_0_compat, unit64_pos].
  rewrite <- Zle_Qle. apply round_units_le.
  - apply Qmult_le_0_compat; [exact Hx | apply Qlt_le_weak, unit64_pos].
  - apply Qmult_le_compat_r; [exact Hxy | apply Qlt_le_weak, unit64_pos].
Qed.

Lemma round64_pos_nonneg x : 0 <= x -> 0 <= round64_pos x.
Proof.
  intros Hx. unfold round64_pos. rewrite Qred_correct.
  apply Qmult_le_0_compat; [| apply Qlt_le_weak, Qinv_lt_0_compat, unit64_pos].
  change 0 with (inject_Z 0). rewrite <- Zle_Qle. apply round_units_nonneg.
  apply Qmult_le_0_compat; [exact Hx | apply Qlt_le_weak, unit64_pos].
Qed.

(** Rounding to the nearest double never reverses an order. *)
Lemma round64_le x y : x <= y -> round64 x <= round64 y.
Proof.
  intros Hxy. unfold round64.
  destruct (Qcompare_spec 0 x) as [Hx | Hx | Hx];
    destruct (Qcompare_spec 0 y) as [Hy | Hy | Hy]; try (exfalso; lra).
  - apply Qle_refl.
  - apply round64_pos_nonneg. lra.
  - apply round64_pos_le; lra.
  - pose proof (round64_pos_nonneg (- x)). lra.
  - pose proof (round64_pos_nonneg (- x)). pose proof (round64_pos_nonneg y). lra.
  - pose proof (round64_pos_le (- y) (- x)). lra.
Qed.


Lemma round64_eq x y : x == y -> round64 x == round64 y.
Proof. intros E. apply Qle_antisym; apply round64_le; rewrite E; apply Qle_refl. Qed.

Lemma div64_nonzero x y : ~ y == 0 -> div64 x y = round64 (x / y).
Proof.
  intros Hy. unfold div64. destruct (Qeq_bool y 0) eqn:E; [| reflexivity].
  by apply Qeq_bool_iff in E.
Qed.

Lemma div64_le x y z : 0 < z -> x <= y -> div64 x z <= div64 y z.
Proof.
  intros Hz H. rewrite !div64_nonzero by lra.
  apply round64_le. apply Qmult_le_compat_r; [exact H |].
  apply Qlt_le_weak, Qinv_lt_0_compat, Hz.
Qed.

(** Dividing a positive number by zero gives an infinity, and so does
    its hundredfold. *)
Lemma div64_by_zero x :
  0 < x -> div64 x 0 = infinity64 /\ infinity64 <= mul64 (div64 x 0) 100.
Proof.
  intros Hx. unfold div64. change (Qeq_bool 0 0) with true. cbv iota.
  destruct (Qcompare_spec 0 x) as [E | _ | E]; [exfalso; lra | | exfalso; lra].
  split; [reflexivity | by vm_compute].
Qed.

Lemma mul64_le x y z : 0 <= z -> x <= y -> mul64 x z <= mul64 y z.
Proof. intros Hz H. apply round64_le. by apply Qmult_le_compat_r. Qed.

Lemma Qfloor_unique y k : inject_Z k <= y -> y < inject_Z (k + 1) -> Qfloor y = k.
Proof.
  intros L U. apply Z.le_antisymm.
  - apply Z.lt_succ_r. rewrite Zlt_Qlt. eapply Qle_lt_trans; [apply Qfloor_le |].
    replace (Z.succ k) with (k + 1)%Z by lia. exact U.
  - apply Qfloor_resp_le in L. by rewrite Qfloor_Z in L.
Qed.

Lemma rne_down y k : inject_Z k <= y -> y < inject_Z k + (1 # 2) -> rne y = k.
Proof.
  intros L U. unfold rne.
  assert (E : Qfloor y = k).
  { apply Qfloor_unique; [exact L |]. rewrite inject_Z_plus.
    change (inject_Z 1) with 1. lra. }
  rewrite E.
  destruct (Qcompare_spec (y - inject_Z k) (1 # 2)) as [H | H | H];
    [exfalso; lra | reflexivity | exfalso; lra].
Qed.

(** A fraction of fewer than 54 bits over a power of two is a double. *)
Lemma round64_dyadic K j :
  (0 <= K < 2 ^ 53)%Z -> (0 <= j <= 1074)%Z ->
  round64 (inject_Z K / inject_Z (2 ^ j)) == inject_Z K / inject_Z (2 ^ j).
Proof.
  intros HK Hj.
  pose proof (pow2_pos j (proj1 Hj)) as Pj.
  destruct (Z.eq_dec K 0%Z) as [-> | Hnz].
  { assert (E0 : inject_Z 0 / inject_Z (2 ^ j) == 0) by (unfold Qdiv; apply Qmult_0_l).
    rewrite (round64_eq _ _ E0), E0. reflexivity. }
  assert (HKpos : (0 < K)%Z) by lia.
  assert (Hx : 0 < inject_Z K / inject_Z (2 ^ j)).
  { apply Qlt_shift_div_l; [exact Pj |]. rewrite Qmult_0_l.
    change 0 with (inject_Z 0). by rewrite <- Zlt_Qlt. }
  unfold round64.
  destruct (Qcompare_spec 0 (inject_Z K / inject_Z (2 ^ j))) as [E | _ | E];
    [exfalso; lra | | exfalso; lra].
  unfold round64_pos. rewrite Qred_correct.
  set (n := inject_Z K / inject_Z (2 ^ j) * unit64).
  assert (En : n == inject_Z (K * 2 ^ (1074 - j))).
  { unfold n, unit64. rewrite inject_Z_mult, <- (pow2_quotient 1074 j) by lia.
    field. lra. }
  assert (Hfl : Qfloor n = (K * 2 ^ (1074 - j))%Z).
  { rewrite En. apply Qfloor_Z. }
  assert (Hlog : Z.log2 (Qfloor n) = (Z.log2 K + (1074 - j))%Z).
  { rewrite Hfl, <- Z.shiftl_mul_pow2 by lia.
    rewrite Z.log2_shiftl by lia. reflexivity. }
  pose proof (Z.log2_nonneg K) as L0.
  assert (L53 : (Z.log2 K < 53)%Z) by (apply Z.log2_lt_pow2; lia).
  set (s := shift64 n).
  assert (Hs : (0 <= s <= 1074 - j)%Z) by (unfold s, shift64; rewrite Hlog; lia).
  unfold round_units. fold s.
  assert (Eq : n / inject_Z (2 ^ s) == inject_Z (K * 2 ^ (1074 - j - s))).
  { rewrite En, inject_Z_mult, inject_Z_mult, <- (pow2_quotient (1074 - j) s) by lia.
    field. pose proof (pow2_pos s (proj1 Hs)). lra. }
  assert (Er : rne (n / inject_Z (2 ^ s)) = (K * 2 ^ (1074 - j - s))%Z).
  { apply Z.le_antisymm.
    - rewrite <- (rne_inject (K * 2 ^ (1074 - j - s))). apply rne_le. rewrite Eq. apply Qle_refl.
    - rewrite <- (rne_inject (K * 2 ^ (1074 - j - s))) at 1. apply rne_le. rewrite Eq.
      apply Qle_refl. }
  rewrite Er.
  replace (2 ^ s * (K * 2 ^ (1074 - j - s)))%Z with (K * 2 ^ (1074 - j))%Z.
  - rewrite <- En. unfold n. pose proof unit64_pos. field. split; lra.
  - replace (1074 - j)%Z with (s + (1074 - j - s))%Z at 1 by lia.
    rewrite Z.pow_add_r by lia. ring.
Qed.


(** Below the threshold the quotient rounds to the double nearest to
    9/10 or to a smaller one. *)
Lemma round64_under_threshold x :
  x < completion_threshold -> round64 x <= nearest_to_nine_tenths.
Proof.
  intros Hx. destruct (Qlt_le_dec x nearest_to_nine_tenths) as [Hlow | Hhigh].
  { apply Qlt_le_weak, round64_le in Hlow. eapply Qle_trans; [exact Hlow |].
    by vm_compute. }
  set (M := 8106479329266893%Z).
  assert (H0 : 0 < x).
  { eapply Qlt_le_trans; [| exact Hhigh]. reflexivity. }
  unfold round64.
  destruct (Qcompare_spec 0 x) as [E | _ | E]; [exfalso; lra | | exfalso; lra].
  unfold round64_pos.
  rewrite Qred_correct.
  set (n := x * unit64).
  assert (Ln : inject_Z (M * 2 ^ 1021) <= n).
  { unfold n. eapply Qle_trans; [| apply Qmult_le_compat_r; [exact Hhigh | by vm_compute]].
    by vm_compute. }
  assert (Un : n < inject_Z (M * 2 ^ 1021) + inject_Z (2 ^ 1020)).
  { unfold n. eapply Qlt_le_trans; [apply Qmult_lt_compat_r; [reflexivity | exact Hx] |].
    by vm_compute. }
  assert (Lf : (M * 2 ^ 1021 <= Qfloor n)%Z).
  { apply Qfloor_resp_le in Ln. by rewrite Qfloor_Z in Ln. }
  assert (Uf : (Qfloor n < M * 2 ^ 1021 + 2 ^ 1020)%Z).
  { rewrite Zlt_Qlt, inject_Z_plus. eapply Qle_lt_trans; [apply Qfloor_le | exact Un]. }
  assert (Hlog : Z.log2 (Qfloor n) = 1073%Z).
  { apply Z.log2_unique; [done |]. split.
    - etransitivity; [| exact Lf]. by vm_compute.
    - eapply Z.lt_le_trans; [exact Uf |]. by vm_compute. }
  assert (Hs : shift64 n = 1021%Z) by (unfold shift64; by rewrite Hlog).
  unfold round_units. rewrite Hs.
  rewrite (rne_down (n / inject_Z (2 ^ 1021)) M).
  - by vm_compute.
  - apply Qle_shift_div_l; [reflexivity |]. rewrite <- inject_Z_mult. exact Ln.
  - apply Qlt_shift_div_r; [reflexivity |]. eapply Qlt_le_trans; [exact Un |].
    by vm_compute.
Qed.

(** *** The percentage and the completed flag *)

Lemma Qltb_true x y : Qltb x y = true <-> x < y.
Proof.
  unfold Qltb. rewrite negb_true_iff, <- not_true_iff_false, Qle_bool_iff.
  split; [apply Qnot_le_lt | apply Qlt_not_le].
Qed.

Lemma Qltb_false x y : Qltb x y = false <-> y <= x.
Proof. unfold Qltb. by rewrite negb_false_iff, Qle_bool_iff. Qed.

(** Every call with a signed-in user, a media item and a position of at
    least 60 s sends exactly one upsert, of the row written out here. *)
Lemma updateWatchProgress_sends a w u m position duration :
  currentUser w = Some u -> 60 <= position ->
  exists rest w',
    let row :=
      {| row_media_type := media_type m;
         row_title := or_else (title m) (name m);
         row_poster_path := poster_path m;
         watch_progress := Qfloor position;
         total_duration := Qfloor duration;
         last_watched_at := clock a;
         completed := Qltb 90 (progressPercent position duration);
         season := if String.eqb (media_type m) "tv" then Some (currentSeason w) else None;
         episode := if String.eqb (media_type m) "tv" then Some (currentEpisode w) else None |} in
    updateWatchProgress a (Some m) position duration w = (Normal tt, w')
    /\ trace w' = (trace w ++ UpsertSent (id u) (media_id m) row :: rest)%list
    /\ (upsert_reply a = Answers ->
          continue_watching w' !! (id u, media_id m) = Some row).
Proof.
  intros Hu Hpos. apply Qltb_false in Hpos.
  unfold updateWatchProgress, upsert, try_catch, emit, modify, gets, bind, ret, throw.
  rewrite Hu, Hpos.
  destruct (upsert_reply a); simpl; eexists; eexists;
    (split; [reflexivity |]); simpl; rewrite <- ?app_assoc; simpl;
    (split; [reflexivity |]); intros; try done.
  by rewrite lookup_insert_eq.
Qed.

Lemma progressPercent_pos position duration :
  0 < duration -> progressPercent position duration = mul64 (div64 position duration) 100.
Proof. intros H. unfold progressPercent. apply Qltb_true in H. by rewrite H. Qed.


(** The percentage grows with the quotient. *)
Lemma progressPercent_at_most position duration t :
  0 < duration -> position / duration <= t ->
  progressPercent position duration <= mul64 (round64 t) 100.
Proof.
  intros Hd H. rewrite (progressPercent_pos _ _ Hd), div64_nonzero by lra.
  apply mul64_le; [by compute |]. by apply round64_le.
Qed.

Lemma progressPercent_at_least position duration t :
  0 < duration -> t <= position / duration ->
  mul64 (round64 t) 100 <= progressPercent position duration.
Proof.
  intros Hd H. rewrite (progressPercent_pos _ _ Hd), div64_nonzero by lra.
  apply mul64_le; [by compute |]. by apply round64_le.
Qed.

(** The percentage exceeds 90 from [completion_threshold] on, and not
    before. *)
Lemma progressPercent_above_90 position duration :
  0 < duration ->
  90 < progressPercent position duration <-> completion_threshold <= position / duration.
Proof.
  intros Hd. split.
  - intros H. destruct (Qlt_le_dec (position / duration) completion_threshold) as [Hlt | Hge];
      [exfalso | exact Hge].
    apply round64_under_threshold in Hlt.
    apply (Qlt_not_le _ _ H). rewrite (progressPercent_pos _ _ Hd), div64_nonzero by lra.
    eapply Qle_trans; [apply mul64_le; [by compute | exact Hlt] |]. by vm_compute.
  - intros H. eapply Qlt_le_trans; [| apply (progressPercent_at_least _ _ _ Hd H)].
    by vm_compute.
Qed.

(** On doubles the percentage is the one the floats of the kernel
    give. *)
Lemma progressPercent_on_floats :
  percent_on_floats 400 500 = Some (progressPercent 400 500)
  /\ percent_on_floats 460 500 = Some (progressPercent 460 500)
  /\ percent_on_floats 6480 7200 = Some (progressPercent 6480 7200)
  /\ percent_on_floats 2430 2700 = Some (progressPercent 2430 2700)
  /\ percent_on_floats 100 300 = Some (progressPercent 100 300)
  /\ percent_on_floats just_above_90 just_above_100
     = Some (progressPercent just_above_90 just_above_100)
  /\ percent_on_floats 8106479329266894 9007199254740992
     = Some (progressPercent 8106479329266894 9007199254740992).
Proof. split_and!; vm_compute; reflexivity. Qed.

(** C7, as stated, fails: 90 + 2^-46 seconds of 100 + 2^-46 seconds are
    more than nine tenths, but the quotient rounds to the double nearest
    to 0.9 and its hundredfold to 90 exactly, so the row is sent with
    [completed = false]. *)
Lemma updateWatchProgress_above_nine_tenths_not_completed :
  60 <= just_above_90 /\ 0 < just_above_100
  /\ 9 # 10 < just_above_90 / just_above_100
  /\ progressPercent just_above_90 just_above_100 = 90
  /\ trace (snd (updateWatchProgress store_up (Some some_film)
                   just_above_90 just_above_100 watching))
     = [UpsertSent "user-1" 550
          {| row_media_type := "movie"; row_title := Some "Fight Club";
             row_poster_path := Some "/poster.jpg";
             watch_progress := 90; total_duration := 100; last_watched_at := 9000;
             completed := false; season := None; episode := None |}].
Proof. split_and!; by vm_compute. Qed.

(** C7, amended: an upsert with position at least 60 s and a positive
    duration stores [completed = true] exactly when the percentage the
    code computes in double precision, the quotient position / duration
    rounded and its hundredfold rounded again, exceeds 90; that is the
    case exactly when position / duration is at least
    [completion_threshold], a little more than 9/10, and so never when
    position / duration is 9/10 or less.  The row sent for 400 s of
    500 s has [completed = false] and is rendered by
    [loadContinueWatching] with progress_percentage 80, and the row sent
    for 460 s of 500 s has [completed = true]. *)
Theorem updateWatchProgress_completed
    (a : answers) (w : world) (u : user) (m : media_item) :
  currentUser w = Some u ->
  (forall position duration, 60 <= position -> 0 < duration ->
     exists row rest w',
       updateWatchProgress a (Some m) position duration w = (Normal tt, w')
       /\ trace w' = (trace w ++ UpsertSent (id u) (media_id m) row :: rest)%list
       /\ (upsert_reply a = Answers ->
             continue_watching w' !! (id u, media_id m) = Some row)
       /\ (completed row = true <-> 90 < mul64 (div64 position duration) 100)
       /\ (completed row = true <-> completion_threshold <= position / duration)
       /\ (completed row = true -> 9 # 10 < position / duration))
  /\ (exists row rest w',
        updateWatchProgress a (Some m) 400 500 w = (Normal tt, w')
        /\ trace w' = (trace w ++ UpsertSent (id u) (media_id m) row :: rest)%list
        /\ (upsert_reply a = Answers ->
              continue_watching w' !! (id u, media_id m) = Some row)
        /\ completed row = false
        /\ progress_percentage (to_item (media_id m) row) = 80)
  /\ (exists row rest w',
        updateWatchProgress a (Some m) 460 500 w = (Normal tt, w')
        /\ trace w' = (trace w ++ UpsertSent (id u) (media_id m) row :: rest)%list
        /\ (upsert_reply a = Answers ->
              continue_watching w' !! (id u, media_id m) = Some row)
        /\ completed row = true).
Proof.
  intros Hu. split; [| split].
  - intros position duration Hpos Hdur.
    destruct (updateWatchProgress_sends a w u m position duration Hu Hpos)
      as (rest & w' & Hrun & Htr & Hst).
    eexists; exists rest, w'. split; [exact Hrun |]. split; [exact Htr |].
    split; [exact Hst |]. cbn [completed].
    rewrite Qltb_true.
    pose proof (progressPercent_above_90 position duration Hdur) as Hthr.
    split_and!.
    + by rewrite (progressPercent_pos _ _ Hdur).
    + exact Hthr.
    + intros H. apply Hthr in H. eapply Qlt_le_trans; [| exact H]. reflexivity.
  - destruct (updateWatchProgress_sends a w u m 400 500 Hu) as (rest & w' & Hrun & Htr & Hst);
      [by compute |].
    eexists; exists rest, w'. split; [exact Hrun |]. split; [exact Htr |].
    split; [exact Hst |]. split; by vm_compute.
  - destruct (updateWatchProgress_sends a w u m 460 500 Hu) as (rest & w' & Hrun & Htr & Hst);
      [by compute |].
    eexists; exists rest, w'. split; [exact Hrun |]. split; [exact Htr |].
    split; [exact Hst |]. by vm_compute.
Qed.

Lemma updateWatchProgress_completed_witness :
  currentUser watching = Some alice
  /\ (exists row rest w',
        updateWatchProgress store_up (Some some_film) 6500 7200 watching = (Normal tt, w')
        /\ trace w' = (trace watching ++ UpsertSent "user-1" 550 row :: rest)%list
        /\ (upsert_reply store_up = Answers ->
              continue_watching w' !! ("user-1", 550%Z) = Some row)
        /\ (completed row = true <-> 90 < mul64 (div64 6500 7200) 100)
        /\ (completed row = true <-> completion_threshold <= 6500 / 7200)
        /\ (completed row = true -> 9 # 10 < 6500 / 7200))
  /\ (exists row rest w',
        updateWatchProgress store_up (Some some_film) 400 500 watching = (Normal tt, w')
        /\ trace w' = (trace watching ++ UpsertSent "user-1" 550 row :: rest)%list
        /\ (upsert_reply store_up = Answers ->
              continue_watching w' !! ("user-1", 550%Z) = Some row)
        /\ completed row = false
        /\ progress_percentage (to_item 550 row) = 80)
  /\ map progress_percentage
         (continueWatching
            (snd (loadContinueWatching store_up
               (snd (updateWatchProgress store_up (Some some_film) 400 500 watching)))))
     = [80].
Proof.
  pose proof (updateWatchProgress_completed store_up watching alice some_film eq_refl)
    as (Hgeneral & H400 & _).
  split; [reflexivity |]. split; [| split].
  - apply (Hgeneral 6500 7200); by compute.
  - exact H400.
  - vm_compute. reflexivity.
Defined.

End WatchProgress.

Section ContinueWatchingQuery.
Import Progress Scenario Cases.

Lemma more_recent_total : Total more_recent.
Proof. intros x y. unfold more_recent. lia. Qed.

Lemma more_recent_transitive : Transitive more_recent.
Proof. intros x y z. unfold more_recent. lia. Qed.

(** What the query returns: at most twelve rows, most recent first, one
    per title, each of them resumable; a resumable row that is not
    returned is left out only because twelve rows at least as recent
    are. *)
Lemma query_rows_spec uid t :
  (length (query_rows uid t) <= 12)%nat
  /\ StronglySorted more_recent (query_rows uid t)
  /\ NoDup (query_rows uid t).*1
  /\ (forall m r, (m, r) ∈ query_rows uid t -> resumable uid t m r)
  /\ (forall m r, resumable uid t m r ->
        (m, r) ∈ query_rows uid t
        \/ (length (query_rows uid t) = 12%nat
            /\ forall x, x ∈ query_rows uid t -> more_recent x (m, r))).
Proof.
  unfold query_rows.
  set (f := fun kr : string * Z * cw_row =>
              let '(u, m, r) := kr in
              if String.eqb u uid && negb (completed r) && (60 <=? watch_progress r)
              then Some (m, r) else None).
  assert (Hf : forall u m r y, f (u, m, r) = Some y ->
                u = uid /\ y = (m, r) /\ completed r = false /\ 60 <= watch_progress r).
  { intros u m r y. unfold f.
    destruct (String.eqb_spec u uid); [| discriminate]. cbn [andb].
    destruct (completed r); [discriminate |]. cbn [negb andb].
    destruct (Z.leb_spec 60 (watch_progress r)); [| discriminate].
    intros [= <-]. by split_and!. }
  assert (Hgen : forall l : list (string * Z * cw_row), NoDup l.*1 -> NoDup (omap f l).*1).
  { induction l as [| [[u m] r] l IH]; intros Hk; [constructor |].
    rewrite fmap_cons in Hk. apply NoDup_cons in Hk as [Hnin Hk].
    cbn [omap list_omap]. fold (omap f l).
    destruct (f (u, m, r)) as [y |] eqn:Hy; [| by apply IH].
    apply Hf in Hy as (-> & -> & _). rewrite fmap_cons. apply NoDup_cons.
    split; [| by apply IH]. cbn [fst].
    intros Hin. apply Hnin. apply list_elem_of_fmap in Hin as ([m' r'] & Hm & Hin).
    cbn in Hm. subst m'. apply list_elem_of_omap in Hin as ([[u' m''] r''] & Hin & Hfx).
    apply Hf in Hfx as (-> & [= <- <-] & _).
    apply list_elem_of_fmap. by exists (uid, m, r'). }
  set (mine := omap f (map_to_list t)).
  set (s := merge_sort more_recent mine).
  assert (Hmine : forall m r, (m, r) ∈ mine <-> resumable uid t m r).
  { intros m r. unfold mine. rewrite list_elem_of_omap. split.
    - intros ([[u m'] r'] & Hin & Hfx). apply Hf in Hfx as (-> & [= <- <-] & Hc & Hp).
      apply elem_of_map_to_list in Hin. by split_and!.
    - intros (Hl & Hc & Hp). exists (uid, m, r). split; [by apply elem_of_map_to_list |].
      unfold f. rewrite String.eqb_refl, Hc. cbn [negb andb].
      by destruct (Z.leb_spec 60 (watch_progress r)); [| lia]. }
  assert (Hnd : NoDup mine.*1) by apply Hgen, NoDup_fst_map_to_list.
  assert (HP : s ≡ₚ mine) by apply merge_sort_Permutation.
  assert (HS : StronglySorted more_recent s).
  { apply (@StronglySorted_merge_sort _ more_recent _ more_recent_transitive
             more_recent_total). }
  pose proof (take_drop 12 s) as Hsplit.
  split_and!.
  - rewrite length_take. lia.
  - rewrite <- Hsplit in HS. by apply StronglySorted_app_1_l in HS.
  - rewrite <- HP in Hnd. rewrite <- Hsplit, fmap_app in Hnd.
    by apply NoDup_app in Hnd as (Hnd & _).
  - intros m r Hin. apply Hmine. rewrite <- HP, <- Hsplit. apply elem_of_app. by left.
  - intros m r Hr. apply Hmine in Hr. rewrite <- HP, <- Hsplit in Hr.
    apply elem_of_app in Hr as [Hr | Hr]; [by left | right].
    split.
    + rewrite length_take. apply list_elem_of_lookup in Hr as (i & Hi).
      apply lookup_lt_Some in Hi. rewrite length_drop in Hi. lia.
    + intros x Hx. rewrite <- Hsplit in HS.
      by apply (StronglySorted_app_1_elem_of _ _ _ _ _ HS Hx Hr).
Qed.

End ContinueWatchingQuery.

Section DivisionGuard.
Import Binary64 Progress Scenario Cases.
Local Open Scope Q_scope.



End DivisionGuard.

(** ** EmbedPlayer *)

Section PlayerFacts.
Import Player Scenario.

(** Decides the comparisons of the scheduler from the arithmetic facts
    in the context. *)
Ltac decide_order :=
  repeat match goal with
  | |- context [Z.leb ?x ?y] =>
      first [ rewrite (proj2 (Z.leb_le x y)) by lia
            | rewrite (proj2 (Z.leb_gt x y)) by lia ]
  | |- context [Z.ltb ?x ?y] =>
      first [ rewrite (proj2 (Z.ltb_lt x y)) by lia
            | rewrite (proj2 (Z.ltb_ge x y)) by lia ]
  | |- context [Z.max ?x ?y] =>
      first [ rewrite (Z.max_r x y) by lia
            | rewrite (Z.max_l x y) by lia ]
  end.

(** Unfolds the player code and the event loop, leaving arithmetic,
    strings and list operations on unknown lists as they are. *)
Ltac sim :=
  cbv beta iota zeta delta
    [step deliver fire run_job as_callback attemptLoad navigate
     onerror_handler loadTimeout_expired setTimeout clearTimeout
     showNotification hideVideoLoadingState showVideoLoadingState
     emit with_dom with_state modify gets bind ret throw try_catch
     set_video_frame set_closures set_timers set_navigations set_now
     earliest mbind option_bind
     video_frame dom state trace closures timers next_timer_id navigations now
     pending onerror onload load_once src contentWindow_length
     timer_id due callback index captured_source retryCount loadTimeout
     fst snd maxRetries].

Lemma lookup_last_closure (cs : list closure) (c : closure) :
  (cs ++ [c]) !! length cs = Some c.
Proof. by apply list_lookup_middle. Qed.

Lemma insert_last_closure (cs : list closure) (c c' : closure) :
  <[length cs := c']> (cs ++ [c]) = cs ++ [c'].
Proof.
  rewrite insert_app_r_alt by lia. by rewrite Nat.sub_diag.
Qed.

Ltac tidy :=
  repeat first
    [ progress decide_order
    | progress cbn [app]
    | rewrite lookup_last_closure
    | rewrite insert_last_closure
    | rewrite filter_cons
    | rewrite filter_nil
    | rewrite decide_True by (cbn; lia)
    | rewrite decide_False by (cbn; lia) ].

Lemma loadSource_eq a v f cs tms tid n t trc i s :
  source_at (embedSources v) i = Some s ->
  0 <= i < Z.of_nat (length (embedSources v)) ->
  loadSource a i
    {| state := v;
       dom := {| video_frame := Some f; closures := cs; timers := tms;
                 next_timer_id := tid; navigations := n; now := t |};
       trace := trc |}
  = (Normal tt,
     {| state := v;
        dom := {| video_frame :=
                    Some {| src := address s t;
                            contentWindow_length := contentWindow_length f;
                            onerror := Some (length cs); onload := true;
                            load_once := load_once f ++ [tid];
                            pending :=
                              match network a n (address s t) with
                              | Hangs => None
                              | ErrorsAfter d => Some (t + d, ErrorEvent)
                              | LoadsAfter d k => Some (t + d, LoadEvent k)
                              end |};
                  closures := cs ++ [{| index := i; captured_source := s;
                                        retryCount := 0; loadTimeout := tid |}];
                  timers := tms ++ [{| timer_id := tid; due := t + 10000;
                                       callback := LoadTimeoutExpired i |}];
                  next_timer_id := S tid; navigations := S n; now := t |};
        trace := trc ++ [VideoLoadingShown; SrcAssigned i (address s t)] |}).
Proof.
  intros Hs [Hi0 Hi1]. unfold loadSource.
  rewrite bind_eq. cbn [gets state].
  apply Z.ltb_ge in Hi0. rewrite Hi0.
  assert (Hi2 : (Z.of_nat (length (embedSources v)) <=? i) = false) by (apply Z.leb_gt; lia).
  rewrite Hi2. cbn [orb]. rewrite Hs.
  cbn. rewrite lookup_last_closure. cbn. unfold emit, modify, address. cbn.
  rewrite <- app_assoc. reflexivity.
Qed.

Lemma filter_everything {A} (P : A -> Prop) `{!forall x, Decision (P x)} (l : list A) :
  (forall x, P x) -> filter P l = l.
Proof.
  intros HP. induction l as [| x l IH]; [done |].
  rewrite filter_cons_True by done. by rewrite IH.
Qed.

Lemma fire_load_listeners_eq (l : list nat) v b trc :
  fire_load_listeners l {| state := v; dom := b; trace := trc |}
  = (Normal tt,
     {| state := v;
        dom := set_timers (filter (fun t => timer_id t ∉ l) (timers b))
                          (next_timer_id b) b;
        trace := trc |}).
Proof.
  revert b. induction l as [| x l IH]; intros b.
  - destruct b as [vf cs tms k n t]. unfold set_timers. cbn -[filter].
    rewrite filter_everything; [reflexivity | intros tm; set_solver].
  - change (fire_load_listeners (x :: l))
      with (let* _ := clearTimeout x in fire_load_listeners l).
    unfold bind, clearTimeout, with_dom, modify. rewrite IH.
    destruct b as [vf cs tms k n t]. unfold set_timers. cbn -[filter].
    rewrite list_filter_filter.
    rewrite (list_filter_iff _ (fun t0 => timer_id t0 ∉ x :: l));
      [reflexivity | intros tm; rewrite not_elem_of_cons; tauto].
Qed.

Lemma idle_run a w n :
  timers (dom w) = [] -> video_frame (dom w) ≫= pending = None -> run a n w = w.
Proof.
  intros Ht Hp. destruct n as [| n]; [done |].
  cbn [run]. unfold step, bind, gets, ret. by rewrite Hp, Ht.
Qed.

Lemma own_timer_cleared (l : list nat) (tid : nat) (due : Z) (cb : job) :
  filter (fun t => timer_id t ∉ l ++ [tid])
         [{| timer_id := tid; due := due; callback := cb |}] = [].
Proof. apply filter_singleton_False; [exact [] | cbn; set_solver]. Qed.

Lemma handleSourceFailure_enters i w :
  exists rest,
    trace (snd (handleSourceFailure i w))
    = trace w ++ SourceFailureHandled i :: VideoLoadingHidden :: rest.
Proof.
  unfold handleSourceFailure, hideVideoLoadingState, showNotification, setTimeout,
    emit, with_dom, modify, gets, bind, ret, throw.
  cbn [state trace dom embedSources fst snd].
  destruct (embedSources (state w)) as [| s0 l]; cbn [trace snd].
  - exists []. by rewrite <- app_assoc.
  - destruct (negb _); [destruct (source_at _ _) |]; cbn [trace snd];
      rewrite <- ?app_assoc; cbn [app]; eexists; reflexivity.
Qed.

(** The terminal notice is what a list of exactly one source gets. *)
Lemma single_source_gives_up v b trc s :
  embedSources v = [s] ->
  handleSourceFailure 0 {| state := v; dom := b; trace := trc |}
  = (Normal tt,
     {| state := v; dom := b;
        trace := trc ++ [SourceFailureHandled 0; VideoLoadingHidden; terminal_notice] |}).
Proof.
  intros Hs. unfold handleSourceFailure, hideVideoLoadingState, showNotification,
    emit, modify, gets, bind, ret. cbn [state dom trace]. rewrite Hs.
  change (negb (Z.rem (0 + 1) (Z.of_nat (length [s])) =? 0)) with false.
  cbn [state dom trace]. by rewrite <- !app_assoc.
Qed.

(** The third consecutive error of one [loadSource] call gives up on the
    source. *)
Lemma third_error_fails_source w c cl :
  closures (dom w) !! c = Some cl -> retryCount cl = 2 ->
  exists rest,
    trace (snd (onerror_handler c w))
    = trace w ++ SourceFailureHandled (index cl) :: VideoLoadingHidden :: rest.
Proof.
  intros Hc Hr. unfold onerror_handler. rewrite bind_eq. cbn [gets].
  rewrite Hc, Hr. change (2 + 1 <=? maxRetries) with false. cbv iota.
  rewrite bind_eq. cbn [with_dom modify].
  match goal with
  | |- context [handleSourceFailure _ ?w1] =>
      destruct (handleSourceFailure_enters (index cl) w1) as [rest Hrest]
  end.
  exists rest. exact Hrest.
Qed.

(** C6, as stated, fails: the first source errors after 3 s, errors again
    3 s into the second attempt and loads 1.5 s into the third, at
    10.5 s; the timer armed at the start has expired at 10 s and entered
    [handleSourceFailure] for it, and at 11 s the player moves on to the
    second source although the first has loaded. *)
Lemma third_attempt_loads_after_the_timer :
  let net := twice_failing 3000 3000 1500 in
  let w := run net 7 (snd (openPlayer net film (home true))) in
  trace w =
    [PlayerHeaderRendered (Some "Fight Club"); SourceButtonsPopulated 4;
     VideoLoadingShown; SrcAssigned 0 "https://111movies.com/movie/550?t=0";
     PlayerModalOpened;
     Notification "Retrying Source 1... (1/2)" "warning";
     SrcAssigned 0 "https://111movies.com/movie/550?t=4000";
     Notification "Retrying Source 1... (2/2)" "warning";
     SrcAssigned 0 "https://111movies.com/movie/550?t=9000";
     SourceFailureHandled 0; VideoLoadingHidden;
     Notification "Trying Source 2..." "warning";
     VideoLoadingHidden;
     VideoLoadingShown;
     SrcAssigned 1 "https://player.videasy.net/movie/550?t=11000"]
  /\ SourceFailureHandled 0 ∈ trace w.
Proof.
  split; [vm_compute; reflexivity |].
  apply list_elem_of_In. vm_compute. tauto.
Qed.

(** C6, amended: when [loadSource i] starts from a browser with no timer
    pending, and the source signals a load error on the first two
    attempts and loads on the third before the 10 s timer armed at the
    start expires (the three delays sum to less than 7 s, the backoffs
    taking the other 3 s), then the same source is tried three times, at
    the start, 1 s after the first error and 2 s after the second;
    [handleSourceFailure] is never entered; the load clears the timer;
    and nothing remains to run.  Any third consecutive error, on the
    other hand, enters [handleSourceFailure] for that source. *)
Theorem loadSource_two_errors_then_load
    (a : answers) (w : world) (i : Z) (s : source) (f : iframe)
    (d1 d2 d3 : Z) (k : nat) :
  source_at (embedSources (state w)) i = Some s ->
  0 <= i < Z.of_nat (length (embedSources (state w))) ->
  video_frame (dom w) = Some f ->
  timers (dom w) = [] ->
  (forall u, network a (navigations (dom w)) u = ErrorsAfter d1) ->
  (forall u, network a (S (navigations (dom w))) u = ErrorsAfter d2) ->
  (forall u, network a (S (S (navigations (dom w)))) u = LoadsAfter d3 k) ->
  0 <= d1 -> 0 <= d2 -> 0 <= d3 -> d1 + d2 + d3 < 7000 ->
  (exists w5,
     run a 5 (snd (loadSource a i w)) = w5
     /\ trace w5 = trace w ++
          [VideoLoadingShown; SrcAssigned i (address s (now (dom w)));
           retry_notice s 1; SrcAssigned i (address s (now (dom w) + d1 + 1000));
           retry_notice s 2;
           SrcAssigned i (address s (now (dom w) + d1 + 1000 + d2 + 2000));
           VideoLoadingHidden]
     /\ timers (dom w5) = []
     /\ (forall n, run a n w5 = w5))
  /\ (forall w' c cl,
        closures (dom w') !! c = Some cl -> retryCount cl = 2 ->
        exists rest,
          trace (snd (onerror_handler c w'))
          = trace w' ++ SourceFailureHandled (index cl) :: VideoLoadingHidden :: rest).
Proof.
  intros Hs Hi Hf Ht N1 N2 N3 P1 P2 P3 Hsum.
  split; [| apply third_error_fails_source].
  destruct w as [v [vf cs tms tid n t] trc]. cbn in Hs, Hi, Hf, Ht, N1, N2, N3.
  subst vf tms. cbn [now dom trace].
  rewrite (loadSource_eq a v f cs [] tid n t trc i s Hs Hi). cbn [snd app].
  rewrite N1.
  eexists. split.
  { cbn [run]. do 8 (sim; tidy; rewrite ?N2, ?N3).
    rewrite fire_load_listeners_eq. sim. reflexivity. }
  cbn [trace dom timers set_timers].
  split; [| split].
  - rewrite <- !app_assoc. reflexivity.
  - apply own_timer_cleared.
  - intros m. apply idle_run; [apply own_timer_cleared | reflexivity].
Qed.

Lemma loadSource_two_errors_then_load_witness :
  exists w5,
    run (twice_failing 300 300 200) 5
        (snd (loadSource (twice_failing 300 300 200) 0 lobby)) = w5
    /\ trace w5 =
         [VideoLoadingShown; SrcAssigned 0 "https://111movies.com/movie/550?t=0";
          Notification "Retrying Source 1... (1/2)" "warning";
          SrcAssigned 0 "https://111movies.com/movie/550?t=1300";
          Notification "Retrying Source 1... (2/2)" "warning";
          SrcAssigned 0 "https://111movies.com/movie/550?t=3600";
          VideoLoadingHidden]
    /\ timers (dom w5) = []
    /\ (forall n, run (twice_failing 300 300 200) n w5 = w5).
Proof.
  refine (proj1 (loadSource_two_errors_then_load (twice_failing 300 300 200) lobby 0
                   {| source_name := "Source 1";
                      url := "https://111movies.com/movie/550" |}
                   blank_frame 300 300 200 3 _ _ _ _ _ _ _ _ _ _ _)).
  - reflexivity.
  - simpl. lia.
  - reflexivity.
  - reflexivity.
  - intros u. reflexivity.
  - intros u. reflexivity.
  - intros u. reflexivity.
  - lia.
  - lia.
  - lia.
  - lia.
Defined.

(** *** The gate of openPlayer *)

(** C5: with nobody signed in, [openPlayer] only reports the error; with
    a user whose entitlement flag is false, it only reports that premium
    access is required and opens the payment modal.  In both cases the
    module state and the browser are left exactly as they were: no source
    list is built, no address is assigned to the embedded document, no
    timer is armed; and if nothing was pending before, nothing ever runs
    afterwards. *)
Theorem openPlayer_gate (a : answers) (m : media_item) (w : world) :
  (currentUser (state w) = None ->
     openPlayer a m w =
       (Normal tt,
        {| state := state w; dom := dom w;
           trace := trace w ++ [Notification "Please log in to stream content" "error"] |}))
  /\ (currentUser (state w) <> None -> isUserApproved (state w) = false ->
       openPlayer a m w =
         (Normal tt,
          {| state := state w; dom := dom w;
             trace := trace w ++
               [Notification
                  "Premium access required to watch content. Please subscribe to continue."
                  "error";
                PaymentModalOpened] |}))
  /\ (currentUser (state w) = None \/ isUserApproved (state w) = false ->
       let w' := snd (openPlayer a m w) in
       embedSources (state w') = embedSources (state w)
       /\ dom w' = dom w
       /\ load_attempts (trace w') = load_attempts (trace w)
       /\ (timers (dom w) = [] -> video_frame (dom w) ≫= pending = None ->
             forall n, run a n w' = w')).
Proof.
  assert (H1 : currentUser (state w) = None ->
     openPlayer a m w =
       (Normal tt,
        {| state := state w; dom := dom w;
           trace := trace w ++ [Notification "Please log in to stream content" "error"] |})).
  { intros Hu. unfold openPlayer. rewrite bind_eq. cbn [gets]. rewrite Hu.
    rewrite bool_decide_eq_false_2 by (by intros [? ?]). reflexivity. }
  assert (H2 : currentUser (state w) <> None -> isUserApproved (state w) = false ->
     openPlayer a m w =
       (Normal tt,
        {| state := state w; dom := dom w;
           trace := trace w ++
             [Notification
                "Premium access required to watch content. Please subscribe to continue."
                "error";
              PaymentModalOpened] |})).
  { intros Hu Ha. unfold openPlayer. rewrite bind_eq. cbn [gets].
    rewrite bool_decide_eq_true_2
      by (destruct (currentUser (state w)); [by eexists | done]).
    rewrite Ha. cbn. unfold openPaymentModal, emit, modify. cbn.
    rewrite <- ?app_assoc. reflexivity. }
  split; [exact H1 |]. split; [exact H2 |].
  intros Hcase.
  assert (Hw' : exists extra,
            openPlayer a m w
            = (Normal tt, {| state := state w; dom := dom w; trace := trace w ++ extra |})
            /\ load_attempts extra = []).
  { destruct (currentUser (state w)) as [u|] eqn:Hu.
    - destruct Hcase as [? | Ha]; [done |].
      eexists. split; [apply H2; done | reflexivity].
    - eexists. split; [apply H1; done | reflexivity]. }
  destruct Hw' as (extra & -> & Hextra). cbn [snd state dom trace].
  repeat split.
  - unfold load_attempts in *. by rewrite omap_app, Hextra, app_nil_r.
  - intros Ht Hp n. by apply idle_run.
Qed.

Lemma openPlayer_gate_witness :
  let w' := snd (openPlayer all_hang film (home false)) in
  embedSources (state w') = []
  /\ dom w' = dom (home false)
  /\ PaymentModalOpened ∈ trace w'
  /\ load_attempts (trace w') = []
  /\ (forall n, run all_hang n w' = w').
Proof.
  destruct (openPlayer_gate all_hang film (home false)) as (_ & Hdenied & Hnothing).
  destruct Hnothing as (Hs & Hd & Hl & Hrun); [by right |].
  cbv zeta. rewrite Hdenied in * by done. cbn [snd] in *.
  split; [exact Hs |]. split; [exact Hd |]. split; [set_solver |].
  split; [exact Hl |]. apply Hrun; reflexivity.
Defined.

(** *** One turn of the failover ring *)

Lemma match_nonempty {A B} (l : list A) (x y : B) :
  (1 <= length l)%nat -> match l with [] => x | _ :: _ => y end = y.
Proof. destruct l; cbn; [lia | done]. Qed.

(** With two sources or more, the next index of the ring is never the
    current one, whatever the current one is. *)
Lemma next_index_differs (n : nat) i :
  (2 <= n)%nat -> Z.rem (i + 1) (Z.of_nat n) <> i.
Proof.
  intros Hn H. pose proof (Z.quot_rem' (i + 1) (Z.of_nat n)) as Hq.
  rewrite H in Hq.
  set (q := (i + 1) ÷ Z.of_nat n) in *.
  assert (Hone : Z.of_nat n * q = 1) by lia.
  destruct (Z.le_gt_cases q 0); nia.
Qed.

Lemma truthy_address s t : truthy_str (address s t) = true.
Proof.
  unfold address. destruct (url s); [| reflexivity].
  by destruct (includes EmptyString "?").
Qed.

Lemma next_index_in_range (n : nat) i :
  (1 <= n)%nat -> 0 <= i < Z.of_nat n ->
  0 <= Z.rem (i + 1) (Z.of_nat n) < Z.of_nat n.
Proof.
  intros Hn Hi. rewrite Z.rem_mod_nonneg by lia. apply Z.mod_pos_bound. lia.
Qed.

Lemma source_at_in_range (l : list source) i :
  0 <= i < Z.of_nat (length l) -> exists s, source_at l i = Some s.
Proof.
  intros [H0 H1]. unfold source_at. apply Z.ltb_ge in H0. rewrite H0.
  apply lookup_lt_is_Some. lia.
Qed.

Lemma handleSourceFailure_eq v b trc i nx :
  (2 <= length (embedSources v))%nat ->
  source_at (embedSources v) (Z.rem (i + 1) (Z.of_nat (length (embedSources v)))) = Some nx ->
  handleSourceFailure i {| state := v; dom := b; trace := trc |}
  = (Normal tt,
     {| state := v;
        dom := set_timers
                 (timers b ++
                  [{| timer_id := next_timer_id b; due := now b + 1000;
                      callback :=
                        LoadNext (Z.rem (i + 1) (Z.of_nat (length (embedSources v)))) |}])
                 (S (next_timer_id b)) b;
        trace := trc ++
          [SourceFailureHandled i; VideoLoadingHidden;
           Notification ("Trying " +:+ source_name nx +:+ "...") "warning"] |}).
Proof.
  intros Hlen Hnx. unfold handleSourceFailure, hideVideoLoadingState, showNotification,
    setTimeout, emit, with_dom, modify, gets, bind, ret.
  cbn [state dom trace]. rewrite match_nonempty by lia.
  destruct (Z.eqb_spec (Z.rem (i + 1) (Z.of_nat (length (embedSources v)))) i) as [E | _];
    [by apply next_index_differs in E |].
  cbn [negb]. rewrite Hnx. cbn [state dom trace]. rewrite <- !app_assoc. reflexivity.
Qed.

(** While the providers hang, the timer of source [i] hands over to the
    next source of the ring in two turns of the loop, with one more load
    attempt. *)
Lemma hang_turn a l i w :
  (2 <= length l)%nat -> 0 <= i < Z.of_nat (length l) ->
  (forall n u, network a n u = Hangs) ->
  awaiting l i w ->
  exists w2,
    (forall m, run a (S (S m)) w = run a m w2)
    /\ awaiting l (Z.rem (i + 1) (Z.of_nat (length l))) w2
    /\ load_attempts (trace w2)
       = load_attempts (trace w) ++ [Z.rem (i + 1) (Z.of_nat (length l))].
Proof.
  intros Hlen Hi Hnet (Hl & f & tid & at_ & Hf & Hp & Hsrc & Hk & Ht).
  destruct w as [v [vf cs tms next n t] trc]. cbn in Hl, Hf, Ht. subst vf tms.
  destruct f as [fsrc fk fe fl fo fp]. cbn in Hp, Hsrc, Hk. subst fp fk.
  pose proof (next_index_in_range (length l) i ltac:(lia) Hi) as Hi'.
  destruct (source_at_in_range l _ Hi') as [nx Hnx].
  rewrite <- Hl in Hlen, Hnx, Hi'.
  eexists. split; [| split].
  - intros m. cbn [run].
    sim; tidy. rewrite Hsrc. cbn [andb Nat.eqb].
    rewrite (handleSourceFailure_eq _ _ _ _ nx Hlen Hnx).
    sim; tidy.
    rewrite (loadSource_eq a _ _ _ _ _ _ _ _ _ nx Hnx Hi'). rewrite Hnet.
    sim. reflexivity.
  - split; [exact Hl |]. cbn [dom video_frame timers].
    eexists _, _, _. repeat split; try reflexivity.
    + cbn. apply truthy_address.
    + cbn. rewrite Hl. reflexivity.
  - cbn [trace]. unfold load_attempts. rewrite !omap_app. cbn. rewrite Hl. 
    by rewrite app_nil_r.
Qed.

(** *** Failover never gives up with two sources or more *)

Create HintDb keeps.

Section NeverGivesUp.
Variable l : list source.
Hypothesis two_sources : (2 <= length l)%nat.

Let I := not_given_up l.

Lemma keeps_ret {A} (x : A) : keeps I (ret x).
Proof. by intros w H. Qed.

Lemma keeps_throw {A} e : keeps I (@throw world A e).
Proof. by intros w H. Qed.

Lemma keeps_bind {A B} (c : eff world A) (k : A -> eff world B) :
  keeps I c -> (forall x, keeps I (k x)) -> keeps I (bind c k).
Proof.
  intros Hc Hk w H. unfold bind. specialize (Hc w H).
  destruct (c w) as [[x | e] w']; [by apply Hk | done].
Qed.

Lemma keeps_try_catch {A} (c : eff world A) h :
  keeps I c -> (forall e, keeps I (h e)) -> keeps I (try_catch c h).
Proof.
  intros Hc Hh w H. unfold try_catch. specialize (Hc w H).
  destruct (c w) as [[x | e] w']; [done | by apply Hh].
Qed.

Lemma keeps_gets {A} (f : world -> A) : keeps I (gets f).
Proof. by intros w H. Qed.

Lemma keeps_with_dom f : keeps I (with_dom f).
Proof. by intros w H. Qed.

Lemma keeps_emit e : e <> terminal_notice -> keeps I (emit e).
Proof.
  intros He w [Hl Ht]. split; [done |]. cbn. rewrite elem_of_app, list_elem_of_singleton.
  intros [? | ?]; [done | congruence].
Qed.

Hint Resolve keeps_ret keeps_throw keeps_gets keeps_with_dom : keeps.

Lemma keeps_setTimeout j d : keeps I (setTimeout j d).
Proof.
  unfold setTimeout. apply keeps_bind; [auto with keeps |]. intros b.
  apply keeps_bind; auto with keeps.
Qed.

Lemma keeps_clearTimeout tid : keeps I (clearTimeout tid).
Proof. apply keeps_with_dom. Qed.

Lemma keeps_handleSourceFailure i : keeps I (handleSourceFailure i).
Proof.
  intros w H. pose proof H as [Hl _]. revert w H Hl.
  unfold handleSourceFailure.
  intros w H Hl. 
  pose proof (keeps_emit (SourceFailureHandled i) ltac:(discriminate) w H) as H1.
  unfold bind at 1. cbn [emit modify] in *. cbn [snd] in H1.
  pose proof (keeps_emit VideoLoadingHidden ltac:(discriminate) _ H1) as H2.
  unfold hideVideoLoadingState, bind at 1. cbn [emit modify] in *. cbn [snd] in H2.
  unfold bind at 1. cbn [gets state]. rewrite Hl.
  rewrite match_nonempty by lia.
  destruct (Z.eqb_spec (Z.rem (i + 1) (Z.of_nat (length l))) i) as [E | _];
    [by apply next_index_differs in E |].
  cbn [negb]. destruct (source_at l _) as [next |]; [| done].
  refine (keeps_bind _ _ _ _ _ H2).
  - apply keeps_emit. discriminate.
  - intros _. apply keeps_bind; [apply keeps_setTimeout | auto with keeps].
Qed.

Hint Resolve keeps_setTimeout keeps_clearTimeout keeps_handleSourceFailure : keeps.

Lemma keeps_navigate a i u : keeps I (navigate a i u).
Proof.
  unfold navigate. apply keeps_bind; [auto with keeps |]. intros b.
  destruct (video_frame b); [| auto with keeps].
  apply keeps_bind; [auto with keeps |]. intros _. apply keeps_emit. discriminate.
Qed.

Lemma keeps_attemptLoad a c : keeps I (attemptLoad a c).
Proof.
  unfold attemptLoad. apply keeps_bind; [auto with keeps |]. intros b.
  destruct (closures b !! c), (video_frame b); auto with keeps.
  apply keeps_bind; [auto with keeps |]. intros _. apply keeps_navigate.
Qed.

Lemma keeps_onerror_handler c : keeps I (onerror_handler c).
Proof.
  unfold onerror_handler. apply keeps_bind; [auto with keeps |]. intros b.
  destruct (closures b !! c); [| auto with keeps].
  apply keeps_bind; [auto with keeps |]. intros _.
  destruct (_ <=? _); [| auto with keeps].
  apply keeps_bind; [apply keeps_emit; discriminate |]. intros _.
  apply keeps_bind; auto with keeps.
Qed.

Lemma keeps_loadSource a i : keeps I (loadSource a i).
Proof.
  unfold loadSource. apply keeps_bind; [auto with keeps |]. intros srcs.
  destruct (_ || _); [auto with keeps |].
  destruct (source_at srcs i); [| auto with keeps].
  apply keeps_bind; [auto with keeps |]. intros b.
  destruct (video_frame b); [| auto with keeps].
  apply keeps_bind; [apply keeps_emit; discriminate |]. intros _.
  apply keeps_bind; [auto with keeps |]. intros tid.
  apply keeps_bind; [auto with keeps |]. intros _.
  apply keeps_bind; [auto with keeps |]. intros _.
  apply keeps_attemptLoad.
Qed.

Lemma keeps_loadTimeout_expired i : keeps I (loadTimeout_expired i).
Proof.
  unfold loadTimeout_expired. apply keeps_bind; [auto with keeps |]. intros b.
  destruct (video_frame b); [| auto with keeps].
  destruct (_ && _); auto with keeps.
Qed.

Lemma keeps_as_callback c : keeps I c -> keeps I (as_callback c).
Proof.
  intros Hc. apply keeps_try_catch; [done |]. intros e. apply keeps_emit. discriminate.
Qed.

Lemma keeps_fire a t : keeps I (fire a t).
Proof.
  unfold fire. apply keeps_bind; [auto with keeps |]. intros _.
  apply keeps_bind; [auto with keeps |]. intros _.
  apply keeps_as_callback. destruct (callback t); cbn [run_job].
  - apply keeps_attemptLoad.
  - apply keeps_loadTimeout_expired.
  - apply keeps_loadSource.
Qed.

Lemma keeps_fire_load_listeners ids : keeps I (fire_load_listeners ids).
Proof.
  induction ids as [| x ids IH]; [apply keeps_ret |].
  change (fire_load_listeners (x :: ids))
    with (let* _ := clearTimeout x in fire_load_listeners ids).
  apply keeps_bind; [auto with keeps | done].
Qed.

Lemma keeps_deliver at_ ev : keeps I (deliver at_ ev).
Proof.
  unfold deliver. apply keeps_bind; [auto with keeps |]. intros _.
  apply keeps_bind; [auto with keeps |]. intros b.
  destruct (video_frame b); [| auto with keeps]. destruct ev.
  - apply keeps_bind; [auto with keeps |]. intros _.
    destruct (onerror _); [| auto with keeps].
    apply keeps_as_callback, keeps_onerror_handler.
  - apply keeps_bind; [auto with keeps |]. intros _.
    apply keeps_bind; [apply keeps_fire_load_listeners |]. intros _.
    destruct (onload _); [apply keeps_emit; discriminate | auto with keeps].
Qed.

Lemma keeps_step a : keeps I (step a).
Proof.
  unfold step. apply keeps_bind; [auto with keeps |]. intros b.
  destruct (video_frame b ≫= pending) as [[t ev] |], (earliest (timers b)) as [tm |];
    try destruct (_ <=? _);
    try (apply keeps_bind; [first [apply keeps_deliver | apply keeps_fire] |]);
    auto with keeps.
Qed.

Lemma run_keeps a n w : I w -> I (run a n w).
Proof.
  revert w. induction n as [| n IH]; intros w H; [done |].
  cbn [run]. pose proof (keeps_step a w H) as Hs.
  destruct (step a w) as [[[] | e] w']; cbn [snd] in Hs; auto.
Qed.

End NeverGivesUp.

(** *** The failover of a playback start whose sources all hang *)

Lemma hang_ring a l :
  (2 <= length l)%nat ->
  (forall n u, network a n u = Hangs) ->
  forall k i w,
    0 <= i < Z.of_nat (length l) -> awaiting l i w ->
    load_attempts (trace (run a (2 * k) w))
    = load_attempts (trace w) ++ ring_from (Z.of_nat (length l)) i k.
Proof.
  intros Hlen Hnet k. induction k as [| k IH]; intros i w Hi Hw.
  - cbn. by rewrite app_nil_r.
  - destruct (hang_turn a l i w Hlen Hi Hnet Hw) as (w2 & Hrun & Hw2 & Hatt).
    replace (2 * S k)%nat with (S (S (2 * k))) by lia.
    rewrite Hrun.
    rewrite (IH (Z.rem (i + 1) (Z.of_nat (length l))) w2);
      [| apply next_index_in_range; [lia | done] | done].
    rewrite Hatt, <- app_assoc. reflexivity.
Qed.

(** C1 on the code: a playback start with the four sources of a film,
    none of which ever answers.  After the fourth source the ring wraps
    around: the fifth load attempt goes to source 0 again, the attempts
    go on for ever (after 2k turns of the loop there have been k + 1 of
    them), and the notice that all sources failed is never shown. *)
Theorem failover_ring_never_ends :
  let w := snd (openPlayer all_hang film (home true)) in
  embedSources (state w) = film_sources
  /\ load_attempts (trace (run all_hang 8 w)) = [0; 1; 2; 3; 0]
  /\ (forall k, load_attempts (trace (run all_hang (2 * k) w)) = 0 :: ring_from 4 0 k)
  /\ (forall n, terminal_notice ∉ trace (run all_hang n w)).
Proof.
  cbv zeta.
  set (w := snd (openPlayer all_hang film (home true))).
  assert (Hs : embedSources (state w) = film_sources) by (vm_compute; reflexivity).
  assert (Ht : load_attempts (trace w) = [0]) by (vm_compute; reflexivity).
  assert (Hw : awaiting film_sources 0 w).
  { split; [exact Hs |].
    exists {| src := "https://111movies.com/movie/550?t=0"; contentWindow_length := 0;
              onerror := Some 0%nat; onload := true; load_once := [0%nat];
              pending := None |}, 0%nat, 10000.
    split_and!; vm_compute; reflexivity. }
  assert (Hn : not_given_up film_sources w).
  { split; [exact Hs |]. rewrite list_elem_of_In. vm_compute.
    intuition discriminate. }
  assert (Hlen : (2 <= length film_sources)%nat) by (cbn; lia).
  split; [exact Hs |]. split; [vm_compute; reflexivity |]. split.
  - intros k.
    rewrite (hang_ring all_hang film_sources Hlen (fun _ _ => eq_refl) k 0 w
               ltac:(cbn; lia) Hw).
    rewrite Ht. reflexivity.
  - intros n. apply (run_keeps film_sources Hlen all_hang n w Hn).
Qed.

End PlayerFacts.

(** * Further properties of the modelled code *)

(** ** SessionGuard: teardown, logout and takeover *)

Section SessionLifecycle.
Import Session Scenario Cases.

(** The two stops of a teardown always complete and leave neither a
    heartbeat nor a channel; storage and table are not touched. *)
Lemma teardown_run w :
  exists w',
    (let* _ := stopHeartbeat in stopSessionRealtimeSubscription) w = (Normal tt, w')
    /\ _heartbeatIntervalId w' = None /\ _sessionChannel w' = None
    /\ localStorage w' = localStorage w /\ active_sessions w' = active_sessions w
    /\ trace w' = trace w ++ (if _sessionChannel w is Some _ then [ChannelRemoved] else []).
Proof.
  unfold stopHeartbeat, stopSessionRealtimeSubscription, emit, modify, gets, bind, ret.
  destruct w as [ls tbl [ch |] [hb |] ivs tr]; cbn;
    eexists; (split; [reflexivity |]); cbn; rewrite ?app_nil_r; by split_and!.
Qed.

(** X1: [forceLocalSignOut] is safe to call again: both calls complete
    whatever the identity provider answers, and the second finds nothing
    to stop, so it removes no channel and leaves storage, table,
    heartbeat and channel as the first left them. *)
Theorem forceLocalSignOut_twice (a a' : answers) (m m' : string) (w : world) :
  exists w1 w2,
    forceLocalSignOut a m w = (Normal tt, w1)
    /\ forceLocalSignOut a' m' w1 = (Normal tt, w2)
    /\ _heartbeatIntervalId w2 = None /\ _sessionChannel w2 = None
    /\ localStorage w2 = localStorage w /\ active_sessions w2 = active_sessions w
    /\ trace w2 = trace w1
         ++ AuthSignOut
         :: (if signOut_reply a' is Rejects
             then [ConsoleWarn "force signout supabase.auth.signOut failed"] else [])
         ++ [Notification m' "warning"; UnauthenticatedUI].
Proof.
  assert (Hrun : forall a m w,
    exists w', forceLocalSignOut a m w = (Normal tt, w')
      /\ trace w' = trace w ++ teardown_events a w
                            ++ [Notification m "warning"; UnauthenticatedUI]
      /\ _heartbeatIntervalId w' = None /\ _sessionChannel w' = None
      /\ localStorage w' = localStorage w /\ active_sessions w' = active_sessions w).
  { clear. intros a m w.
    unfold forceLocalSignOut, stopHeartbeat, stopSessionRealtimeSubscription,
      auth_signOut, showNotification, showUnauthenticatedUI, try_catch, emit,
      modify, gets, bind, ret, throw, teardown_events.
    destruct (_heartbeatIntervalId w) eqn:Hh; simpl;
      destruct (_sessionChannel w) eqn:Hc; simpl;
      destruct (signOut_reply a); simpl;
      eexists; (split; [reflexivity |]); simpl;
      rewrite <- ?app_assoc; by simpl. }
  destruct (Hrun a m w) as (w1 & H1 & _ & Hh1 & Hc1 & Hl1 & Ht1).
  destruct (Hrun a' m' w1) as (w2 & H2 & Htr & Hh2 & Hc2 & Hl2 & Ht2).
  exists w1, w2. split_and!; try done; try congruence.
  rewrite Htr. unfold teardown_events. by rewrite Hc1.
Qed.

Lemma forced_signouts_other t e :
  e <> UnauthenticatedUI -> forced_signouts (t ++ [e]) = forced_signouts t.
Proof.
  intros He. rewrite forced_signouts_app. unfold forced_signouts at 2.
  rewrite filter_cons_False by done. rewrite filter_nil. cbn. lia.
Qed.

(** What [endSessionForUser] leaves behind. *)
Lemma endSessionForUser_run (a : answers) (u : user) (w : world) :
  exists w',
    endSessionForUser a u w = (Normal tt, w')
    /\ _heartbeatIntervalId w' = None /\ _sessionChannel w' = None
    /\ (forall B, localStorage w !! KEY = Some B -> B <> EmptyString ->
          upsert_reply a = Answers ->
          active_sessions w' = <[id u := closed_row B (clock a)]> (active_sessions w))
    /\ (upsert_reply a <> Answers -> active_sessions w' = active_sessions w)
    /\ forced_signouts (trace w') = forced_signouts (trace w).
Proof.
  set (body := try_catch
       (let* deviceId := getDeviceId a in
        upsert a (id u)
          {| device_id := Some deviceId; is_active := Some false;
             session_flag := Some "N"; last_heartbeat := Some (clock a) |})
       (fun _ => emit (ConsoleError "endSessionForUser error"))).
  assert (Hbody : exists w1,
    body w = (Normal tt, w1)
    /\ (forall B, localStorage w !! KEY = Some B -> B <> EmptyString ->
          upsert_reply a = Answers ->
          active_sessions w1 = <[id u := closed_row B (clock a)]> (active_sessions w))
    /\ (upsert_reply a <> Answers -> active_sessions w1 = active_sessions w)
    /\ forced_signouts (trace w1) = forced_signouts (trace w)).
  { subst body. unfold try_catch. rewrite bind_eq.
    destruct (truthy_ostr (localStorage w !! KEY)) eqn:Hk.
    - destruct (localStorage w !! KEY) as [d |] eqn:Hd; [| discriminate Hk].
      apply truthy_str_true in Hk. rewrite (getDeviceId_stored a w d Hd Hk).
      unfold upsert, emit, modify, bind, ret, throw.
      destruct (upsert_reply a) eqn:Hr; cbn -[forced_signouts]; eexists; (split; [reflexivity |]);
        cbn -[forced_signouts];
        rewrite ?forced_signouts_other by discriminate;
        (split; [intros B [= <-] _ HA; try discriminate HA
                | split; [intros HA; try done | reflexivity]]).
      destruct (active_sessions w !! id u); reflexivity.
    - rewrite (getDeviceId_fresh a w Hk).
      unfold upsert, emit, modify, bind, ret, throw.
      destruct (setItem_throws a), (upsert_reply a) eqn:Hr; cbn -[forced_signouts]; eexists;
        (split; [reflexivity |]); cbn -[forced_signouts];
        rewrite ?forced_signouts_other by discriminate;
        (split; [intros B HB HB'; rewrite HB in Hk; cbn in Hk;
                 apply truthy_str_true in HB'; congruence
                | split; [intros HA; try done | reflexivity]]). }
  destruct Hbody as (w1 & Hb & Hstore & Hkeep & Hcount).
  destruct (teardown_run w1) as (w' & Hfin & Hh & Hc & _ & Ht & Htr).
  exists w'. unfold endSessionForUser, try_finally. fold body. rewrite Hb, Hfin.
  split_and!; try done.
  - intros B HB HB' HA. rewrite Ht. by apply Hstore.
  - intros HA. rewrite Ht. by apply Hkeep.
  - rewrite Htr, forced_signouts_app, Hcount. by destruct (_sessionChannel w1).
Qed.



(** What a registration that returned true has done, when this browser
    holds the device id B. *)
Lemma registerSessionForUser_true_inv a u w B w1 :
  localStorage w !! KEY = Some B -> B <> EmptyString ->
  registerSessionForUser a u w = (Normal true, w1) ->
  localStorage w1 = localStorage w
  /\ _sessionChannel w1 = Some (id u, B)
  /\ _heartbeatIntervalId w1 = Some (id u, B)
  /\ (upsert_reply a = Answers ->
        active_sessions w1 = <[id u := claimed_row B (clock a)]> (active_sessions w)).
Proof.
  intros Hk HB. unfold registerSessionForUser.
  rewrite bind_eq, (getDeviceId_stored a w B Hk HB).
  unfold try_catch, select_maybeSingle.
  assert (Hacc : forall w0 : world,
    localStorage w0 = localStorage w -> active_sessions w0 = active_sessions w ->
    forall r,
    match (let* _ := upsert a (id u) (claimed_row B (clock a)) in
           let* _ := startSessionRealtimeSubscription (id u) B in
           let* _ := startHeartbeat (id u) B in
           ret true) w0 with
    | (Normal b, w') => (Normal b, w')
    | (Thrown _, w') =>
        (let* _ := emit (ConsoleError "registerSessionForUser error") in ret false) w'
    end = (Normal true, r) ->
    localStorage r = localStorage w
    /\ _sessionChannel r = Some (id u, B)
    /\ _heartbeatIntervalId r = Some (id u, B)
    /\ (upsert_reply a = Answers ->
          active_sessions r = <[id u := claimed_row B (clock a)]> (active_sessions w))).
  { intros w0 Hl0 Ht0 r.
    destruct (upsert_reply a) eqn:Hup.
    - destruct (accept_branch a u B w0 ltac:(congruence))
        as (w' & -> & _ & Hst & _ & Hc & Hh & Hl).
      intros [= <-]. split_and!; try congruence. intros _. rewrite <- Ht0. apply Hst, Hup.
    - destruct (accept_branch a u B w0 ltac:(congruence))
        as (w' & -> & _ & _ & _ & Hc & Hh & Hl).
      intros [= <-]. split_and!; congruence.
    - unfold upsert, emit, modify, bind, ret, throw. rewrite Hup. cbn. discriminate. }
  destruct (select_reply a) eqn:Hsel.
  - rewrite bind_eq. unfold gets at 1. rewrite bind_eq. unfold ret at 1.
    destruct (foreign_active (active_sessions w !! id u) B).
    + unfold auth_signOut, showNotification, emit, modify, bind, ret, throw.
      destruct (signOut_reply a); cbn; discriminate.
    + apply (Hacc w); reflexivity.
  - rewrite bind_eq. unfold ret at 1. rewrite bind_eq.
    cbn [emit modify]. unfold foreign_active.
    apply Hacc; reflexivity.
  - unfold throw, bind, emit, modify, ret. cbn. discriminate.
Qed.

(** A registration is accepted when the lookup answers with a row that
    is not an active row of another device. *)
Lemma registerSessionForUser_accepts a u w B :
  localStorage w !! KEY = Some B -> B <> EmptyString ->
  select_reply a = Answers -> upsert_reply a <> Rejects ->
  foreign_active (active_sessions w !! id u) B = false ->
  exists w',
    registerSessionForUser a u w = (Normal true, w')
    /\ trace w' = trace w ++ UpsertSent (id u) (claimed_row B (clock a))
                          :: (if _sessionChannel w is Some _ then [ChannelRemoved] else []).
Proof.
  intros Hk HB Hsel Hup Hfa.
  destruct (accept_branch a u B w Hup) as (w' & Hrun & Htr & _).
  exists w'. split; [| done].
  unfold registerSessionForUser. rewrite bind_eq, (getDeviceId_stored a w B Hk HB).
  unfold try_catch, select_maybeSingle. rewrite Hsel.
  rewrite bind_eq. unfold gets at 1. rewrite bind_eq. unfold ret at 1.
  rewrite Hfa. unfold claimed_row in Hrun. by rewrite Hrun.
Qed.

(** X3: a logout frees the account for another device.  When device A
    has ended its session against an answering datastore, a registration
    from any device B that sees the resulting table succeeds and B
    becomes the stored device, although the row was A's. *)
Theorem logout_frees_the_account
    (a a' : answers) (u : user) (wA wB : world) (A B : string) :
  localStorage wA !! KEY = Some A -> A <> EmptyString -> upsert_reply a = Answers ->
  localStorage wB !! KEY = Some B -> B <> EmptyString ->
  select_reply a' = Answers -> upsert_reply a' = Answers ->
  active_sessions wB = active_sessions (snd (endSessionForUser a u wA)) ->
  exists wB',
    registerSessionForUser a' u wB = (Normal true, wB')
    /\ active_sessions wB' !! id u = Some (claimed_row B (clock a')).
Proof.
  intros HA HA' Hup HB HB' Hsel Hup' Hshared.
  destruct (endSessionForUser_run a u wA)
    as (wA' & Hend & _ & _ & Hstore & _).
  rewrite Hend in Hshared. cbn [snd] in Hshared.
  rewrite (Hstore A HA HA' Hup) in Hshared.
  destruct (registerSessionForUser_accepts a' u wB B HB HB' Hsel) as (wB' & Hrun & _).
  { congruence. }
  { rewrite Hshared, lookup_insert_eq. unfold foreign_active, closed_row. cbn.
    by rewrite bool_decide_eq_false_2. }
  exists wB'. split; [exact Hrun |].
  destruct (registerSessionForUser_true_inv a' u wB B wB' HB HB' Hrun) as (_ & _ & _ & Hst).
  rewrite (Hst Hup'). apply lookup_insert_eq.
Qed.

Lemma logout_frees_the_account_witness :
  exists wB',
    registerSessionForUser healthy alice
      {| localStorage := {[ KEY := "device-B" ]};
         active_sessions :=
           active_sessions
             (snd (endSessionForUser healthy alice
                     (browser_of (Some "device-A") (Some (row_of "device-A" true "S")))));
         _sessionChannel := None; _heartbeatIntervalId := None;
         intervals := []; trace := [] |}
    = (Normal true, wB')
    /\ active_sessions wB' !! "user-1" = Some (claimed_row "device-B" 5000).
Proof.
  apply (logout_frees_the_account healthy healthy alice
           (browser_of (Some "device-A") (Some (row_of "device-A" true "S")))
           _ "device-A" "device-B");
    first [reflexivity | discriminate].
Defined.

(** The intervals of the page after a registration that returned
    true: the heartbeat that was running is cleared and one is set. *)
Lemma registerSessionForUser_true_intervals a u w B w1 :
  localStorage w !! KEY = Some B -> B <> EmptyString ->
  registerSessionForUser a u w = (Normal true, w1) ->
  intervals w1 = intervals_without (_heartbeatIntervalId w) (intervals w) ++ [(id u, B)].
Proof.
  intros Hk HB. unfold registerSessionForUser.
  rewrite bind_eq, (getDeviceId_stored a w B Hk HB).
  unfold try_catch, select_maybeSingle.
  assert (Hacc : forall w0 : world,
    _heartbeatIntervalId w0 = _heartbeatIntervalId w -> intervals w0 = intervals w ->
    forall r,
    match (let* _ := upsert a (id u) (claimed_row B (clock a)) in
           let* _ := startSessionRealtimeSubscription (id u) B in
           let* _ := startHeartbeat (id u) B in
           ret true) w0 with
    | (Normal b, w') => (Normal b, w')
    | (Thrown _, w') =>
        (let* _ := emit (ConsoleError "registerSessionForUser error") in ret false) w'
    end = (Normal true, r) ->
    intervals r = intervals_without (_heartbeatIntervalId w) (intervals w) ++ [(id u, B)]).
  { intros w0 Hh0 Hi0 r. rewrite <- Hh0, <- Hi0.
    unfold upsert, startSessionRealtimeSubscription, startHeartbeat, stopHeartbeat,
      setInterval, clearInterval, emit, modify, gets, bind, ret, throw, intervals_without.
    destruct (upsert_reply a); cbn;
      destruct (_sessionChannel w0); cbn;
      destruct (_heartbeatIntervalId w0); cbn;
      first [discriminate | by intros [= <-]]. }
  destruct (select_reply a) eqn:Hsel.
  - rewrite bind_eq. unfold gets at 1. rewrite bind_eq. unfold ret at 1.
    destruct (foreign_active (active_sessions w !! id u) B).
    + unfold auth_signOut, showNotification, emit, modify, bind, ret, throw.
      destruct (signOut_reply a); cbn; discriminate.
    + apply (Hacc w); reflexivity.
  - rewrite bind_eq. unfold ret at 1. rewrite bind_eq.
    cbn [emit modify]. unfold foreign_active.
    apply Hacc; reflexivity.
  - unfold throw, bind, emit, modify, ret. cbn. discriminate.
Qed.

Lemma without_last_snoc h l : without_last h (l ++ [h]) = l.
Proof.
  unfold without_last. rewrite reverse_app. cbn.
  rewrite decide_True by done. apply reverse_involutive.
Qed.

(** X4: registering again from the same browser (sign-in followed by
    the load of the user both register) is accepted; it removes the
    channel of the first registration before opening the new one and
    clears the heartbeat interval of the first before setting the new
    one, so the heartbeat intervals that tick after the second
    registration are those that ticked after the first: one heartbeat
    and one channel, for this user and device, on a page where none
    ticked before. *)
Theorem registerSessionForUser_again
    (a a' : answers) (u : user) (w w1 : world) (B : string) :
  localStorage w !! KEY = Some B -> B <> EmptyString ->
  registerSessionForUser a u w = (Normal true, w1) -> upsert_reply a = Answers ->
  select_reply a' = Answers -> upsert_reply a' <> Rejects ->
  exists w2,
    registerSessionForUser a' u w1 = (Normal true, w2)
    /\ trace w2 = trace w1 ++ [UpsertSent (id u) (claimed_row B (clock a')); ChannelRemoved]
    /\ _sessionChannel w2 = Some (id u, B)
    /\ _heartbeatIntervalId w2 = Some (id u, B)
    /\ intervals w1 = intervals_without (_heartbeatIntervalId w) (intervals w) ++ [(id u, B)]
    /\ intervals w2 = intervals w1
    /\ (intervals w = [] -> intervals w2 = [(id u, B)]).
Proof.
  intros Hk HB Hrun Hup Hsel' Hup'.
  destruct (registerSessionForUser_true_inv a u w B w1 Hk HB Hrun) as (Hl & Hc & Hh & Hst).
  specialize (Hst Hup).
  pose proof (registerSessionForUser_true_intervals a u w B w1 Hk HB Hrun) as Hi1.
  assert (Hk1 : localStorage w1 !! KEY = Some B) by (by rewrite Hl).
  destruct (registerSessionForUser_accepts a' u w1 B Hk1 HB Hsel' Hup') as (w2 & Hrun2 & Htr).
  { rewrite Hst, lookup_insert_eq. unfold foreign_active, claimed_row. cbn.
    rewrite (bool_decide_eq_true_2 (Some B = Some B)) by done.
    by rewrite andb_false_r. }
  exists w2. split; [exact Hrun2 |]. rewrite Hc in Htr. split; [exact Htr |].
  destruct (registerSessionForUser_true_inv a' u w1 B w2 Hk1 HB Hrun2) as (_ & Hc2 & Hh2 & _).
  pose proof (registerSessionForUser_true_intervals a' u w1 B w2 Hk1 HB Hrun2) as Hi2.
  rewrite Hh in Hi2. cbn [intervals_without] in Hi2.
  assert (Hsame : intervals w2 = intervals w1).
  { rewrite Hi2, Hi1 at 1. by rewrite without_last_snoc. }
  split_and!; try done.
  intros Hnone. rewrite Hsame, Hi1, Hnone. by destruct (_heartbeatIntervalId w).
Qed.

Lemma registerSessionForUser_again_witness :
  exists w2,
    registerSessionForUser healthy alice
      (snd (registerSessionForUser healthy alice (browser_of (Some "device-B") None)))
    = (Normal true, w2)
    /\ _sessionChannel w2 = Some ("user-1", "device-B")
    /\ _heartbeatIntervalId w2 = Some ("user-1", "device-B")
    /\ intervals w2 = [("user-1", "device-B")].
Proof.
  destruct (registerSessionForUser_again healthy healthy alice
              (browser_of (Some "device-B") None)
              (snd (registerSessionForUser healthy alice (browser_of (Some "device-B") None)))
              "device-B")
    as (w2 & Hrun & _ & Hc & Hh & _ & _ & Hone);
    [reflexivity | discriminate | reflexivity | reflexivity | reflexivity | discriminate |].
  exists w2. split_and!; try done. by apply Hone.
Defined.

(** X5: a takeover reaches the displaced device.  The row that a
    successful registration from device B stores, delivered as an insert
    or update event, is ignored by B itself and makes every listener
    with another device id A sign out locally, once, with the 'used on
    another device' message. *)
Theorem takeover_signs_out_the_old_device
    (a aA aB : answers) (u : user) (w w1 wA : world) (A B kind : string)
    (o : option session_row) :
  localStorage w !! KEY = Some B -> B <> EmptyString ->
  registerSessionForUser a u w = (Normal true, w1) -> upsert_reply a = Answers ->
  A <> B -> kind <> "DELETE" ->
  exists r wA',
    active_sessions w1 !! id u = Some r
    /\ handleSessionChange aB (carries kind r o) B w1 = (Normal tt, w1)
    /\ handleSessionChange aA (carries kind r o) A wA = (Normal tt, wA')
    /\ forced_signouts (trace wA') = (forced_signouts (trace wA) + 1)%nat
    /\ Notification msg_other_device "warning" ∈ trace wA'
    /\ _heartbeatIntervalId wA' = None /\ _sessionChannel wA' = None.
Proof.
  intros Hk HB Hrun Hup HAB Hkind.
  destruct (registerSessionForUser_true_inv a u w B w1 Hk HB Hrun) as (_ & _ & _ & Hst).
  specialize (Hst Hup).
  destruct (forceLocalSignOut_counts aA msg_other_device wA)
    as (wA' & Hf & Hn & Hmsg & _ & Hh & Hc).
  exists (claimed_row B (clock a)), wA'.
  split; [by rewrite Hst, lookup_insert_eq |].
  assert (Hne : bool_decide (or_else (Some kind) None = Some "DELETE") = false).
  { apply bool_decide_eq_false_2. unfold or_else.
    destruct (truthy_ostr (Some kind)); congruence. }
  assert (HBt : truthy_str B = true) by (by destruct B).
  unfold handleSessionChange, carries, try_catch.
  cbn [eventType event_ new old]. rewrite Hne.
  cbn [claimed_row is_active device_id session_flag flag_is_N truthy_ostr].
  rewrite (bool_decide_eq_false_2 (Some true = Some false)) by done.
  rewrite HBt. unfold flag_is_N. cbn [session_flag claimed_row orb andb].
  change (truthy_str "S" && String.eqb (toUpperCase "S") "N") with false. cbn [orb andb].
  rewrite (bool_decide_eq_true_2 (Some B = Some B)) by done.
  rewrite (bool_decide_eq_false_2 (Some B = Some A)) by congruence.
  cbn [negb]. rewrite Hf. by split_and!.
Qed.

Lemma takeover_signs_out_the_old_device_witness :
  exists r wA',
    active_sessions
      (snd (registerSessionForUser lookup_down alice
              (browser_of (Some "device-B") (Some (row_of "device-A" true "S")))))
      !! "user-1" = Some r
    /\ handleSessionChange healthy (carries "UPDATE" r (Some (row_of "device-A" true "S")))
         "device-A" (browser_of (Some "device-A") (Some (row_of "device-A" true "S")))
       = (Normal tt, wA')
    /\ forced_signouts (trace wA') = 1%nat.
Proof.
  destruct (takeover_signs_out_the_old_device lookup_down healthy healthy alice
              (browser_of (Some "device-B") (Some (row_of "device-A" true "S")))
              (snd (registerSessionForUser lookup_down alice
                      (browser_of (Some "device-B") (Some (row_of "device-A" true "S")))))
              (browser_of (Some "device-A") (Some (row_of "device-A" true "S")))
              "device-A" "device-B" "UPDATE" (Some (row_of "device-A" true "S")))
    as (r & wA' & Hr & _ & HA & Hn & _);
    [reflexivity | discriminate | reflexivity | reflexivity | discriminate | discriminate |].
  exists r, wA'. by split_and!.
Defined.

(** X6: a logout reaches every listener.  The row that
    [endSessionForUser] stores against an answering datastore, delivered
    as an insert or update event, makes any listener sign out locally,
    once, with the 'session disabled' message, whatever its device id
    (another tab of the same browser included). *)
Theorem logout_signs_out_every_listener
    (a a' : answers) (u : user) (w w' : world) (B my kind : string)
    (o : option session_row) :
  localStorage w !! KEY = Some B -> B <> EmptyString -> upsert_reply a = Answers ->
  kind <> "DELETE" ->
  exists r w1,
    active_sessions (snd (endSessionForUser a u w)) !! id u = Some r
    /\ handleSessionChange a' (carries kind r o) my w' = (Normal tt, w1)
    /\ forced_signouts (trace w1) = (forced_signouts (trace w') + 1)%nat
    /\ Notification msg_disabled "warning" ∈ trace w1
    /\ _heartbeatIntervalId w1 = None /\ _sessionChannel w1 = None.
Proof.
  intros Hk HB Hup Hkind.
  destruct (endSessionForUser_run a u w) as (we & Hend & _ & _ & Hst & _).
  rewrite Hend. cbn [snd]. rewrite (Hst B Hk HB Hup).
  destruct (forceLocalSignOut_counts a' msg_disabled w')
    as (w1 & Hf & Hn & Hmsg & _ & Hh & Hc).
  exists (closed_row B (clock a)), w1.
  split; [by rewrite lookup_insert_eq |].
  assert (Hne : bool_decide (or_else (Some kind) None = Some "DELETE") = false).
  { apply bool_decide_eq_false_2. unfold or_else.
    destruct (truthy_ostr (Some kind)); congruence. }
  unfold handleSessionChange, carries, try_catch.
  cbn [eventType event_ new old]. rewrite Hne.
  cbn [closed_row is_active].
  rewrite (bool_decide_eq_true_2 (Some false = Some false)) by done.
  cbn [orb]. rewrite Hf. by split_and!.
Qed.

Lemma logout_signs_out_every_listener_witness :
  exists r w1,
    active_sessions
      (snd (endSessionForUser healthy alice
              (browser_of (Some "device-A") (Some (row_of "device-A" true "S")))))
      !! "user-1" = Some r
    /\ handleSessionChange healthy (carries "UPDATE" r None) "device-A"
         (browser_of (Some "device-A") None) = (Normal tt, w1)
    /\ forced_signouts (trace w1) = 1%nat.
Proof.
  destruct (logout_signs_out_every_listener healthy healthy alice
              (browser_of (Some "device-A") (Some (row_of "device-A" true "S")))
              (browser_of (Some "device-A") None)
              "device-A" "device-A" "UPDATE" None)
    as (r & w1 & Hr & Hrun & Hn & _);
    [reflexivity | discriminate | reflexivity | discriminate |].
  exists r, w1. by split_and!.
Defined.

(** X7: a heartbeat never throws and touches neither the heartbeat, the
    channel nor the local store; against an answering datastore it
    rewrites the device id and the time of the user's row and keeps the
    row's [is_active] and [session_flag], so that it neither revives a
    closed session nor closes an open one, and it puts this device's id
    on a row another device had claimed. *)
Theorem heartbeat_tick_keeps_status (a : answers) (uid d : string) (w : world) :
  exists w',
    heartbeat_tick a uid d w = (Normal tt, w')
    /\ _heartbeatIntervalId w' = _heartbeatIntervalId w
    /\ _sessionChannel w' = _sessionChannel w
    /\ localStorage w' = localStorage w
    /\ (upsert_reply a = Answers ->
        forall r, active_sessions w !! uid = Some r ->
          active_sessions w' !! uid
          = Some {| device_id := Some d; is_active := is_active r;
                    session_flag := session_flag r;
                    last_heartbeat := Some (clock a) |})
    /\ (upsert_reply a <> Answers -> active_sessions w' = active_sessions w).
Proof.
  unfold heartbeat_tick, try_catch, upsert, emit, modify, bind, ret, throw.
  destruct (upsert_reply a) eqn:Hup; cbn; eexists; (split; [reflexivity |]); cbn;
    split_and!; try done.
  intros _ r Hr. by rewrite lookup_insert_eq, Hr.
Qed.

Lemma heartbeat_tick_keeps_status_witness :
  exists w',
    heartbeat_tick healthy "user-1" "device-A"
      (browser_of (Some "device-A") (Some (closed_row "device-B" 10))) = (Normal tt, w')
    /\ active_sessions w' !! "user-1" = Some (closed_row "device-A" 5000).
Proof.
  destruct (heartbeat_tick_keeps_status healthy "user-1" "device-A"
              (browser_of (Some "device-A") (Some (closed_row "device-B" 10))))
    as (w' & Hrun & _ & _ & _ & Hst & _).
  exists w'. split; [exact Hrun |].
  apply (Hst eq_refl (closed_row "device-B" 10)). reflexivity.
Defined.

End SessionLifecycle.

(** ** WatchProgressTracker: the Continue Watching list *)

Section ContinueWatching.
Import Progress Scenario Cases.

(** X8: with a signed-in user and an answering datastore,
    [loadContinueWatching] replaces the list by the items of at most
    twelve rows, most recently watched first and one per title id, all
    of them this user's rows stored as not completed and at least 60 s
    in; a row of that kind is missing from the list only when twelve
    rows at least as recent are on it.  The table and the trace are left
    as they were. *)
Theorem loadContinueWatching_lists_resumable (a : answers) (u : user) (w : world) :
  currentUser w = Some u -> select_reply a = Answers ->
  exists rows w',
    loadContinueWatching a w = (Normal tt, w')
    /\ continueWatching w' = map (fun mr => to_item (fst mr) (snd mr)) rows
    /\ continue_watching w' = continue_watching w /\ trace w' = trace w
    /\ (length rows <= 12)%nat
    /\ StronglySorted more_recent rows
    /\ NoDup (map item_id (continueWatching w'))
    /\ (forall m r, (m, r) ∈ rows -> resumable (id u) (continue_watching w) m r)
    /\ (forall m r, resumable (id u) (continue_watching w) m r ->
          (m, r) ∈ rows
          \/ (length rows = 12%nat /\ forall x, x ∈ rows -> more_recent x (m, r))).
Proof.
  intros Hu Hsel.
  destruct (query_rows_spec (id u) (continue_watching w)) as (Hlen & Hs & Hnd & Hin & Hall).
  exists (query_rows (id u) (continue_watching w)). eexists.
  unfold loadContinueWatching, try_catch, gets, modify, bind, ret.
  rewrite Hu, Hsel. cbn. split; [reflexivity |]. cbn.
  split_and!; try done.
  rewrite map_map. cbn. exact Hnd.
Qed.

Lemma loadContinueWatching_lists_resumable_witness :
  exists rows w',
    loadContinueWatching store_up shelf = (Normal tt, w')
    /\ continueWatching w' = map (fun mr => to_item (fst mr) (snd mr)) rows
    /\ (length rows <= 12)%nat.
Proof.
  destruct (loadContinueWatching_lists_resumable store_up alice shelf eq_refl eq_refl)
    as (rows & w' & Hrun & Hl & _ & _ & Hlen & _).
  exists rows, w'. by split_and!.
Defined.

(** X9: [loadContinueWatching] never throws and never writes to the
    table; without a signed-in user it does nothing, and with one, any
    failure of the query (a reported error or a rejected call) leaves
    the list empty rather than stale. *)
Theorem loadContinueWatching_fails_safe (a : answers) (w : world) :
  exists w',
    loadContinueWatching a w = (Normal tt, w')
    /\ continue_watching w' = continue_watching w
    /\ currentUser w' = currentUser w
    /\ (currentUser w = None -> w' = w)
    /\ (currentUser w <> None -> select_reply a <> Answers -> continueWatching w' = []).
Proof.
  unfold loadContinueWatching, try_catch, emit, gets, modify, bind, ret, throw.
  destruct w as [[u |] cs ce t l tr]; cbn; [| by eexists].
  destruct (select_reply a) as [| c |]; cbn.
  - eexists. split; [reflexivity |]. by split_and!.
  - destruct (String.eqb c "42P01" || includes (select_error_message a) "does not exist");
      cbn; eexists; (split; [reflexivity |]); by split_and!.
  - eexists. split; [reflexivity |]. by split_and!.
Qed.

Lemma loadContinueWatching_fails_safe_witness :
  exists w',
    loadContinueWatching store_down
      (set_continueWatching [to_item 1399 (progress_row store_up shelf some_film 100 200)] shelf)
    = (Normal tt, w')
    /\ continueWatching w' = [].
Proof.
  destruct (loadContinueWatching_fails_safe store_down
              (set_continueWatching
                 [to_item 1399 (progress_row store_up shelf some_film 100 200)] shelf))
    as (w' & Hrun & _ & _ & _ & Hempty).
  exists w'. split; [exact Hrun |]. apply Hempty; discriminate.
Defined.

(** What a call that passes the guards of [updateWatchProgress] leaves
    behind when the datastore answers. *)
Lemma updateWatchProgress_stores a w u m position duration :
  currentUser w = Some u -> (60 <= position)%Q -> upsert_reply a = Answers ->
  exists w',
    updateWatchProgress a (Some m) position duration w = (Normal tt, w')
    /\ continue_watching w'
       = <[(id u, media_id m) := progress_row a w m position duration]> (continue_watching w)
    /\ currentUser w' = Some u
    /\ continueWatching w' = continueWatching w.
Proof.
  intros Hu Hpos Hup. apply Qltb_false in Hpos.
  unfold updateWatchProgress, upsert, try_catch, emit, modify, gets, bind, ret, throw.
  rewrite Hu, Hpos, Hup. cbn. eexists. split; [reflexivity |]. by split_and!.
Qed.

(** X10: [updateWatchProgress] never throws, whatever the datastore
    does, and leaves the signed-in user, the season, the episode and the
    in-memory list alone; it can change the table only at the key of
    this user and this title, and without a user, without a media item
    or before 60 s it does nothing at all (no request is sent). *)
Theorem updateWatchProgress_footprint
    (a : answers) (mi : option media_item) (position duration : Q) (w : world) :
  exists w',
    updateWatchProgress a mi position duration w = (Normal tt, w')
    /\ currentUser w' = currentUser w
    /\ currentSeason w' = currentSeason w /\ currentEpisode w' = currentEpisode w
    /\ continueWatching w' = continueWatching w
    /\ (forall k,
          (forall u m, currentUser w = Some u -> mi = Some m -> k <> (id u, media_id m)) ->
          continue_watching w' !! k = continue_watching w !! k)
    /\ (currentUser w = None \/ mi = None \/ (position < 60)%Q -> w' = w).
Proof.
  unfold updateWatchProgress, upsert, try_catch, emit, modify, gets, bind, ret, throw.
  destruct w as [[u |] cs ce t l tr], mi as [m |]; cbn;
    try (eexists; split; [reflexivity |]; by split_and!).
  destruct (Qltb position 60) eqn:Hlt; cbn.
  { eexists. split; [reflexivity |]. by split_and!. }
  apply Qltb_false in Hlt.
  destruct (upsert_reply a); cbn; eexists; (split; [reflexivity |]); cbn;
    split_and!; try done;
    try (intros [H | [H | H]]; [discriminate | discriminate |];
         exfalso; by apply (Qlt_not_le _ _ H)).
  intros k Hk. apply lookup_insert_ne. intros E. by apply (Hk u m).
Qed.

Lemma updateWatchProgress_footprint_witness :
  exists w',
    updateWatchProgress store_up (Some some_film) 59 7200 shelf = (Normal tt, w')
    /\ w' = shelf.
Proof.
  destruct (updateWatchProgress_footprint store_up (Some some_film) 59 7200 shelf)
    as (w' & Hrun & _ & _ & _ & _ & _ & Hsame).
  exists w'. split; [exact Hrun |]. apply Hsame. right. right. reflexivity.
Defined.

(** X11: a title that has been watched past 90 % leaves the list.  After
    an update at [position] of a positive [duration] whose percentage,
    as the code computes it in double precision, exceeds 90 (that is,
    with position / duration at least [completion_threshold], a little
    more than 9/10), stored by an answering datastore, the next
    successful [loadContinueWatching] lists no item with this title's
    id, whatever the table held for it before. *)
Theorem completed_title_leaves_the_list
    (a a' : answers) (u : user) (m : media_item) (position duration : Q) (w : world) :
  currentUser w = Some u -> (60 <= position)%Q -> (0 < duration)%Q ->
  (completion_threshold <= position / duration)%Q ->
  upsert_reply a = Answers -> select_reply a' = Answers ->
  exists w1 w2,
    updateWatchProgress a (Some m) position duration w = (Normal tt, w1)
    /\ (90 < progressPercent position duration)%Q
    /\ loadContinueWatching a' w1 = (Normal tt, w2)
    /\ media_id m ∉ map item_id (continueWatching w2).
Proof.
  intros Hu Hpos Hdur Hratio Hup Hsel.
  destruct (updateWatchProgress_stores a w u m position duration Hu Hpos Hup)
    as (w1 & Hrun1 & Ht1 & Hu1 & _).
  apply (progressPercent_above_90 _ _ Hdur) in Hratio.
  exists w1. eexists. split; [exact Hrun1 |]. split; [exact Hratio |].
  unfold loadContinueWatching, try_catch, gets, modify, bind, ret.
  rewrite Hu1, Hsel. cbn. split; [reflexivity |]. cbn.
  rewrite map_map. cbn. intros Hin.
  apply list_elem_of_fmap in Hin as ([m' r] & Hm & Hin). cbn in Hm. subst m'.
  apply query_rows_spec in Hin as (Hl & Hc & _).
  rewrite Ht1, lookup_insert_eq in Hl. injection Hl as <-.
  cbn [progress_row completed] in Hc. apply Qltb_false in Hc.
  by apply (Qlt_not_le _ _ Hratio).
Qed.

Lemma completed_title_leaves_the_list_witness :
  exists w1 w2,
    updateWatchProgress store_up (Some some_film) 6600 7200
      (set_continue_watching
         {[ ("user-1", 550) := progress_row store_up shelf some_film 100 7200 ]} shelf)
    = (Normal tt, w1)
    /\ (90 < progressPercent 6600 7200)%Q
    /\ loadContinueWatching store_up w1 = (Normal tt, w2)
    /\ 550 ∉ map item_id (continueWatching w2).
Proof.
  apply (completed_title_leaves_the_list store_up store_up alice some_film 6600 7200
           (set_continue_watching
              {[ ("user-1", 550) := progress_row store_up shelf some_film 100 7200 ]} shelf));
    [reflexivity | by compute | by compute | by compute | reflexivity | reflexivity].
Defined.

(** A resumable row that is newer than every other row of the user is
    the first the query returns. *)
Lemma query_rows_head uid t m row :
  resumable uid t m row ->
  (forall m' r', t !! (uid, m') = Some r' -> m' <> m ->
     last_watched_at r' < last_watched_at row) ->
  head (query_rows uid t) = Some (m, row).
Proof.
  intros Hrow Hnew.
  destruct (query_rows_spec uid t) as (_ & Hs & _ & Hin & Hall).
  assert (Hother : forall m' r', (m', r') ∈ query_rows uid t ->
                     (m', r') = (m, row) \/ last_watched_at r' < last_watched_at row).
  { intros m' r' Hx. apply Hin in Hx as (Hl & _).
    destruct (decide (m' = m)) as [-> | Hne].
    - left. destruct Hrow as (Hl' & _). congruence.
    - right. by apply (Hnew m'). }
  destruct (query_rows uid t) as [| [m' r'] rest] eqn:Hq.
  { destruct (Hall _ _ Hrow) as [Hx | [Hx _]]; [by apply elem_of_nil in Hx | discriminate]. }
  cbn. destruct (Hother m' r') as [[= -> ->] | Hold]; [left | done |].
  exfalso.
  assert (Hge : more_recent (m', r') (m, row)).
  { destruct (Hall _ _ Hrow) as [Hx | [_ Hx]]; [| apply Hx; left].
    apply elem_of_cons in Hx as [[= E1 E2] | Hx].
    - subst r'. unfold more_recent. cbn. lia.
    - apply StronglySorted_cons in Hs as [Hs _].
      by apply (proj1 (Forall_forall _ _) Hs). }
  unfold more_recent in Hge. cbn in Hge. lia.
Qed.

(** The row of an update that does not exceed 90 % is resumable. *)
Lemma progress_row_resumable a w u m position duration t :
  (60 <= position)%Q -> (progressPercent position duration <= 90)%Q ->
  t !! (id u, media_id m) = Some (progress_row a w m position duration) ->
  resumable (id u) t (media_id m) (progress_row a w m position duration).
Proof.
  intros Hpos Hpct Hl. split_and!; [exact Hl | |].
  - cbn [progress_row completed]. by apply Qltb_false.
  - cbn [progress_row watch_progress]. change 60 with (Qfloor 60). by apply Qfloor_resp_le.
Qed.

(** X12: the title just watched comes first.  After an update at 60 s or
    more that does not exceed 90 % (in particular any update with a
    duration that is not positive), stored at a time later than every
    other row of this user, the next successful [loadContinueWatching]
    puts the item of that very row at the head of the list. *)
Theorem just_watched_comes_first
    (a a' : answers) (u : user) (m : media_item) (position duration : Q) (w : world) :
  currentUser w = Some u -> (60 <= position)%Q ->
  (progressPercent position duration <= 90)%Q ->
  (forall m' r', continue_watching w !! (id u, m') = Some r' -> m' <> media_id m ->
     last_watched_at r' < clock a) ->
  upsert_reply a = Answers -> select_reply a' = Answers ->
  exists w1 w2,
    updateWatchProgress a (Some m) position duration w = (Normal tt, w1)
    /\ loadContinueWatching a' w1 = (Normal tt, w2)
    /\ head (continueWatching w2)
       = Some (to_item (media_id m) (progress_row a w m position duration)).
Proof.
  intros Hu Hpos Hpct Hnew Hup Hsel.
  destruct (updateWatchProgress_stores a w u m position duration Hu Hpos Hup)
    as (w1 & Hrun1 & Ht1 & Hu1 & _).
  exists w1. eexists. split; [exact Hrun1 |].
  unfold loadContinueWatching, try_catch, gets, modify, bind, ret.
  rewrite Hu1, Hsel. cbn. split; [reflexivity |]. cbn.
  pose proof (query_rows_head (id u) (continue_watching w1) (media_id m)
                (progress_row a w m position duration)) as Hhead.
  apply head_Some in Hhead as [rest ->]; [reflexivity | |].
  - apply progress_row_resumable; [done | done |]. by rewrite Ht1, lookup_insert_eq.
  - intros m' r' Hl Hne. rewrite Ht1, lookup_insert_ne in Hl by congruence.
    by apply (Hnew m').
Qed.

Lemma just_watched_comes_first_witness :
  exists w1 w2,
    updateWatchProgress store_up (Some some_film) 400 0 shelf = (Normal tt, w1)
    /\ loadContinueWatching store_up w1 = (Normal tt, w2)
    /\ head (continueWatching w2)
       = Some (to_item 550 (progress_row store_up shelf some_film 400 0)).
Proof.
  apply (just_watched_comes_first store_up store_up alice some_film 400 0 shelf);
    [reflexivity | by compute | by compute | | reflexivity | reflexivity].
  intros m' r' Hl Hne. cbn in Hl.
  destruct (decide (m' = 1399)) as [-> | Hm].
  - rewrite lookup_singleton_eq in Hl. injection Hl as <-. reflexivity.
  - rewrite lookup_singleton_ne in Hl by congruence. discriminate.
Defined.

End ContinueWatching.

(** ** EntitlementGate: the subscription label *)

Section SubscriptionLabel.
Import Entitlement Subscription Scenario Cases.

Lemma ceil_div_bounds x d :
  0 < d -> (ceil_div x d - 1) * d < x <= ceil_div x d * d.
Proof.
  intros Hd. unfold ceil_div.
  pose proof (Z.div_mod (- x) d ltac:(lia)) as Hdm.
  pose proof (Z.mod_pos_bound (- x) d Hd) as Hm. nia.
Qed.

(** X13: for a date that parses, [updateSubscriptionStatus] shows a day
    count exactly when the expiry lies strictly after now; the count is
    then the number of started days, at least 1, and the text is in the
    singular exactly when at most one day is left; an expiry at or
    before now shows 'Subscription expired'. *)
Theorem updateSubscriptionStatus_label
    (Date_parse : string -> option Z) (now expiry : Z) (d : string) (el : status_text) :
  truthy_str d = true -> Date_parse d = Some expiry ->
  (now < expiry ->
     exists days,
       updateSubscriptionStatus Date_parse now (Some d) (Some el) = Some (remaining days)
       /\ 1 <= days /\ (days - 1) * day_ms < expiry - now <= days * day_ms
       /\ (days = 1 <-> expiry - now <= day_ms))
  /\ (expiry <= now ->
       updateSubscriptionStatus Date_parse now (Some d) (Some el) = Some expired_label).
Proof.
  intros Hd He. unfold updateSubscriptionStatus, daysRemaining. rewrite Hd, He. cbn [negb].
  pose proof (ceil_div_bounds (expiry - now) day_ms ltac:(reflexivity)) as Hb.
  set (days := ceil_div (expiry - now) day_ms) in *.
  assert (Hday : day_ms = 86400000) by reflexivity.
  split; intros Hcmp.
  - exists days. assert (1 <= days) by nia.
    destruct (Z.ltb_spec 0 days); [| lia]. split_and!; try done; lia.
  - destruct (Z.ltb_spec 0 days); [nia | done].
Qed.

Lemma updateSubscriptionStatus_label_witness :
  updateSubscriptionStatus toy_Date_parse (1893456000000 - 86400001) (Some "2030-01-01")
    (Some blank_label) = Some (remaining 2)
  /\ updateSubscriptionStatus toy_Date_parse 1893456000000 (Some "2030-01-01")
       (Some blank_label) = Some expired_label.
Proof.
  destruct (updateSubscriptionStatus_label toy_Date_parse (1893456000000 - 86400001)
              1893456000000 "2030-01-01" blank_label eq_refl eq_refl) as [Hleft _].
  destruct (updateSubscriptionStatus_label toy_Date_parse 1893456000000
              1893456000000 "2030-01-01" blank_label eq_refl eq_refl) as [_ Hdue].
  split; [| apply Hdue; lia].
  destruct (Hleft ltac:(lia)) as (days & Hrun & _ & Hb & _). rewrite Hrun.
  assert (days = 2) as -> by (change day_ms with 86400000 in Hb; lia). reflexivity.
Defined.

(** X14: the gate and the label disagree on a date that does not parse.
    For an approved row whose expiry date is a non-empty string that is
    not a date, [isAllowedUser] grants access and hands that string on,
    and [updateSubscriptionStatus], given it, shows 'Subscription
    expired', at any time. *)
Theorem unparsable_expiry_allowed_but_shown_expired
    (a : answers) (Date_parse : string -> option Z) (email d : string)
    (r : allowed_row) (w : world) (later : Z) (el : status_text) :
  lookup_reply a = Answers -> allowed_users w !! email = Some r ->
  approved r = Some true -> expiry_date r = Some d ->
  truthy_str d = true -> Date_parse d = None ->
  exists acc,
    isAllowedUser a Date_parse email w = (Normal acc, w)
    /\ allowed acc = true /\ expiryDate acc = Some d
    /\ updateSubscriptionStatus Date_parse later (expiryDate acc) (Some el)
       = Some expired_label.
Proof.
  intros Hl Hr Ha He Hd Hp.
  unfold isAllowedUser, select_single, try_catch, gets, bind, ret.
  rewrite Hl, Hr. cbn. rewrite Ha, He. cbn. rewrite Hd, Hp. cbn.
  eexists. split; [reflexivity |]. cbn. split_and!; try done.
  unfold updateSubscriptionStatus, daysRemaining. by rewrite Hd, Hp.
Qed.

Lemma unparsable_expiry_allowed_but_shown_expired_witness :
  exists acc,
    isAllowedUser mid_2025 toy_Date_parse "dave@example.org" odd_subscribers
    = (Normal acc, odd_subscribers)
    /\ allowed acc = true
    /\ updateSubscriptionStatus toy_Date_parse 1750000000500 (expiryDate acc)
         (Some blank_label) = Some expired_label.
Proof.
  destruct (unparsable_expiry_allowed_but_shown_expired mid_2025 toy_Date_parse
              "dave@example.org" "next spring"
              {| approved := Some true; expiry_date := Some "next spring" |}
              odd_subscribers 1750000000500 blank_label)
    as (acc & Hrun & Hal & _ & Hlabel); try reflexivity.
  exists acc. by split_and!.
Defined.

End SubscriptionLabel.

(** ** SourceFailover: changing the episode and closing the player *)

Section PlayerAfterwards.
Import Player PlayerControls Scenario Cases.

Ltac order_facts :=
  repeat match goal with
  | |- context [Z.leb ?x ?y] =>
      first [ rewrite (proj2 (Z.leb_le x y)) by lia
            | rewrite (proj2 (Z.leb_gt x y)) by lia ]
  | |- context [Z.ltb ?x ?y] =>
      first [ rewrite (proj2 (Z.ltb_lt x y)) by lia
            | rewrite (proj2 (Z.ltb_ge x y)) by lia ]
  | |- context [Z.max ?x ?y] =>
      first [ rewrite (Z.max_r x y) by lia
            | rewrite (Z.max_l x y) by lia ]
  end.

Ltac unfold_player :=
  cbv beta iota zeta delta
    [step deliver fire run_job as_callback attemptLoad navigate
     onerror_handler loadTimeout_expired setTimeout clearTimeout
     showNotification hideVideoLoadingState showVideoLoadingState
     populateSourceButtons cleanupPlayer
     emit with_dom with_state modify gets bind ret throw try_catch
     set_video_frame set_closures set_timers set_navigations set_now
     set_watch set_season_episode set_embedSources set_media
     earliest mbind option_bind
     video_frame dom state trace closures timers next_timer_id navigations now
     pending onerror onload load_once src contentWindow_length
     timer_id due callback index captured_source retryCount loadTimeout
     currentUser isUserApproved currentMediaType currentMediaId currentMediaTitle
     currentMediaData currentSeason currentEpisode embedSources watchStartTime
     playerInterval
     fst snd maxRetries].

Ltac tidy_lists :=
  repeat first
    [ progress order_facts
    | progress cbn [app]
    | rewrite lookup_last_closure
    | rewrite insert_last_closure
    | rewrite filter_cons
    | rewrite filter_nil
    | rewrite decide_True by (cbn; lia)
    | rewrite decide_False by (cbn; lia) ].

Lemma buildEmbedSources_tv v b trc :
  currentMediaType v = Some "tv" ->
  buildEmbedSources {| state := v; dom := b; trace := trc |}
  = (Normal tt,
     {| state := set_embedSources
                   (episode_sources (currentMediaId v) (currentSeason v) (currentEpisode v)) v;
        dom := b; trace := trc |}).
Proof.
  intros Htv. unfold buildEmbedSources. rewrite bind_eq. cbn [gets state].
  rewrite Htv. rewrite bool_decide_eq_false_2 by discriminate.
  rewrite bool_decide_eq_true_2 by reflexivity. reflexivity.
Qed.

(** What [reloadTVContent] does for a show: four fresh sources, the
    first of them requested, a new 10 s timer next to whatever was
    pending. *)
Lemma reloadTVContent_eq a v f cs tms tid n t trc :
  currentMediaType v = Some "tv" ->
  let l := episode_sources (currentMediaId v) (currentSeason v) (currentEpisode v) in
  let s := {| source_name := "Source 1";
              url := "https://111movies.com/tv/" +:+ show (currentMediaId v) +:+ "/"
                     +:+ pretty (currentSeason v) +:+ "/" +:+ pretty (currentEpisode v) |} in
  reloadTVContent a
    {| state := v;
       dom := {| video_frame := Some f; closures := cs; timers := tms;
                 next_timer_id := tid; navigations := n; now := t |};
       trace := trc |}
  = (Normal tt,
     {| state := set_watch (Some t) (playerInterval v) (set_embedSources l v);
        dom := {| video_frame :=
                    Some {| src := address s t;
                            contentWindow_length := contentWindow_length f;
                            onerror := Some (length cs); onload := true;
                            load_once := load_once f ++ [tid];
                            pending :=
                              match network a n (address s t) with
                              | Hangs => None
                              | ErrorsAfter d => Some (t + d, ErrorEvent)
                              | LoadsAfter d k => Some (t + d, LoadEvent k)
                              end |};
                  closures := cs ++ [{| index := 0; captured_source := s;
                                        retryCount := 0; loadTimeout := tid |}];
                  timers := tms ++ [{| timer_id := tid; due := t + 10000;
                                       callback := LoadTimeoutExpired 0 |}];
                  next_timer_id := S tid; navigations := S n; now := t |};
        trace := trc ++ [VideoLoadingShown; SourceButtonsPopulated 4;
                         VideoLoadingShown; SrcAssigned 0 (address s t)] |}).
Proof.
  intros Htv l s. unfold reloadTVContent.
  rewrite bind_eq. cbn [showVideoLoadingState emit modify state dom trace].
  rewrite bind_eq, (buildEmbedSources_tv _ _ _ Htv).
  rewrite bind_eq. unfold populateSourceButtons at 1. rewrite bind_eq.
  cbn [gets state embedSources set_embedSources].
  cbn [emit modify state dom trace].
  rewrite bind_eq.
  rewrite (loadSource_eq a _ f cs tms tid n t _ 0 s); [| reflexivity | cbn; lia].
  cbn. rewrite <- !app_assoc. reflexivity.
Qed.

(** X15: a new episode inherits the deadline of the load it replaces.
    When an episode is chosen while the 10 s timer of an earlier
    [loadSource i] is still pending and the frame shows no sub-frames,
    and the new address does not answer before that old deadline, the
    very next turn of the event loop is the old timer: at the old
    deadline, less than 10 s (possibly no time at all) after the new
    episode was requested, [handleSourceFailure i] declares the source
    failed and schedules the source after [i] instead of the one just
    requested. *)
Theorem stale_deadline_fails_the_new_episode
    (a : answers) (w : world) (f : iframe) (tid : nat) (deadline i episode : Z) :
  currentMediaType (state w) = Some "tv" ->
  video_frame (dom w) = Some f -> contentWindow_length f = 0%nat ->
  timers (dom w)
  = [{| timer_id := tid; due := deadline; callback := LoadTimeoutExpired i |}] ->
  now (dom w) <= deadline <= now (dom w) + 10000 ->
  next_timer_id (dom w) <> tid -> 0 <= i < 4 ->
  silent_until a (navigations (dom w)) (now (dom w)) deadline ->
  exists w1 w2 first nx,
    selectEpisode a episode w = (Normal tt, w1)
    /\ embedSources (state w1)
       = episode_sources (currentMediaId (state w)) (currentSeason (state w)) episode
    /\ trace w1 = trace w ++ [VideoLoadingShown; SourceButtonsPopulated 4;
                              VideoLoadingShown; SrcAssigned 0 first]
    /\ step a w1 = (Normal true, w2)
    /\ now (dom w2) = deadline
    /\ source_at (embedSources (state w1)) (Z.rem (i + 1) 4) = Some nx
    /\ trace w2 = trace w1 ++ [SourceFailureHandled i; VideoLoadingHidden;
                               Notification ("Trying " +:+ source_name nx +:+ "...") "warning"]
    /\ timers (dom w2)
       = [{| timer_id := next_timer_id (dom w); due := now (dom w) + 10000;
             callback := LoadTimeoutExpired 0 |};
          {| timer_id := S (next_timer_id (dom w)); due := deadline + 1000;
             callback := LoadNext (Z.rem (i + 1) 4) |}].
Proof.
  intros Htv Hf Hk Ht Hdl Hid Hi Hnet.
  destruct w as [v [vf cs tms next n t] trc]. cbn in Htv, Hf, Ht, Hdl, Hid, Hnet.
  subst vf tms. cbn [state dom trace now next_timer_id currentMediaId currentSeason].
  destruct f as [fsrc fk fe fl fo fp]. cbn in Hk. subst fk.
  set (v1 := set_season_episode (currentSeason v) episode v).
  set (l := episode_sources (currentMediaId v) (currentSeason v) episode).
  assert (Hnx : exists nx, source_at l (Z.rem (i + 1) 4) = Some nx).
  { apply source_at_in_range. change (Z.of_nat (length l)) with 4.
    apply (next_index_in_range 4 i); [lia | exact Hi]. }
  destruct Hnx as [nx Hnx].
  set (s0 := {| source_name := "Source 1";
               url := "https://111movies.com/tv/" +:+ show (currentMediaId v1) +:+ "/"
                      +:+ pretty (currentSeason v1) +:+ "/"
                      +:+ pretty (currentEpisode v1) |}).
  specialize (Hnet (address s0 t)).
  assert (Hsel : selectEpisode a episode
                   {| state := v;
                      dom := {| video_frame :=
                                  Some {| src := fsrc; contentWindow_length := 0;
                                          onerror := fe; onload := fl; load_once := fo;
                                          pending := fp |};
                                closures := cs;
                                timers := [{| timer_id := tid; due := deadline;
                                              callback := LoadTimeoutExpired i |}];
                                next_timer_id := next; navigations := n; now := t |};
                      trace := trc |}
                 = reloadTVContent a
                     {| state := v1;
                        dom := {| video_frame :=
                                    Some {| src := fsrc; contentWindow_length := 0;
                                            onerror := fe; onload := fl; load_once := fo;
                                            pending := fp |};
                                  closures := cs;
                                  timers := [{| timer_id := tid; due := deadline;
                                                callback := LoadTimeoutExpired i |}];
                                  next_timer_id := next; navigations := n; now := t |};
                        trace := trc |}) by reflexivity.
  rewrite Hsel, (reloadTVContent_eq a v1 _ cs _ next n t trc Htv). fold s0.
  destruct (network a n (address s0 t)) as [| d | d k] eqn:Hn;
    (eexists _, _, _, nx; split; [reflexivity |];
     cbn [state trace dom embedSources set_watch set_embedSources];
     split; [reflexivity |]; split; [reflexivity |];
     split;
     [ do 3 (unfold_player; tidy_lists);
       rewrite truthy_address; cbn [andb Nat.eqb];
       erewrite handleSourceFailure_eq; [| cbn; lia | exact Hnx];
       cbn; reflexivity
     | cbn; split; [lia |]; split; [exact Hnx |]; split; [reflexivity |];
       repeat f_equal; lia ]).
Qed.

Lemma stale_deadline_fails_the_new_episode_witness :
  exists w1 w2 first nx,
    selectEpisode all_hang 2 stalled_show = (Normal tt, w1)
    /\ embedSources (state w1) = episode_sources (Some 1399) 2 2
    /\ trace w1 = [VideoLoadingShown; SourceButtonsPopulated 4;
                   VideoLoadingShown; SrcAssigned 0 first]
    /\ step all_hang w1 = (Normal true, w2)
    /\ now (dom w2) = 10000
    /\ source_at (embedSources (state w1)) (Z.rem (0 + 1) 4) = Some nx
    /\ trace w2 = trace w1 ++ [SourceFailureHandled 0; VideoLoadingHidden;
                               Notification ("Trying " +:+ source_name nx +:+ "...") "warning"]
    /\ timers (dom w2)
       = [{| timer_id := 1%nat; due := 9000 + 10000; callback := LoadTimeoutExpired 0 |};
          {| timer_id := 2%nat; due := 10000 + 1000; callback := LoadNext (Z.rem (0 + 1) 4) |}].
Proof.
  apply (stale_deadline_fails_the_new_episode all_hang stalled_show
           {| src := "https://111movies.com/tv/1399/2/1?t=0"; contentWindow_length := 0;
              onerror := Some 0%nat; onload := true; load_once := [0%nat];
              pending := None |} 0%nat 10000 0 2);
    [reflexivity | reflexivity | reflexivity | reflexivity | cbn; lia | discriminate | lia |].
  intros u. exact I.
Defined.

(** X16: closing the player does not stop the failover.  When the
    player is closed while the hand-over to source [i] is pending (the
    second after a source was given up), [cleanupPlayer] stops the
    progress interval, clears the watch clock and blanks the frame, and
    the load event of the blank page removes only the 10 s timers; one
    turn of the loop later the pending hand-over runs all the same: the
    closed player requests source [i] and arms a new 10 s timer for
    it. *)
Theorem closed_player_loads_the_next_source
    (a : answers) (w : world) (f : iframe) (tid : nat) (at_ i : Z) (s : source) :
  video_frame (dom w) = Some f ->
  timers (dom w) = [{| timer_id := tid; due := at_; callback := LoadNext i |}] ->
  tid ∉ load_once f ->
  now (dom w) <= at_ ->
  source_at (embedSources (state w)) i = Some s ->
  0 <= i < Z.of_nat (length (embedSources (state w))) ->
  exists w1 f1 w3 f3,
    cleanupPlayer w = (Normal tt, w1)
    /\ watchStartTime (state w1) = None /\ playerInterval (state w1) = false
    /\ embedSources (state w1) = embedSources (state w)
    /\ video_frame (dom w1) = Some f1 /\ src f1 = "about:blank"
    /\ timers (dom w1) = timers (dom w)
    /\ run a 2 w1 = w3
    /\ state w3 = state w1
    /\ video_frame (dom w3) = Some f3 /\ src f3 = address s at_
    /\ load_attempts (trace w3) = load_attempts (trace w) ++ [i]
    /\ timers (dom w3)
       = [{| timer_id := next_timer_id (dom w); due := at_ + 10000;
             callback := LoadTimeoutExpired i |}].
Proof.
  intros Hf Ht Hfresh Hnow Hs Hi.
  destruct w as [v [vf cs tms next n t] trc]. cbn in Hf, Ht, Hnow, Hs, Hi.
  subst vf tms. destruct f as [fsrc fk fe fl fo fp]. cbn in Hfresh.
  destruct v as [cu ap mt mi mti md se ep es ws pi]. cbn in Hs, Hi.
  assert (Hkeep : filter (fun tm => timer_id tm ∉ fo)
                    [{| timer_id := tid; due := at_; callback := LoadNext i |}]
                  = [{| timer_id := tid; due := at_; callback := LoadNext i |}]).
  { rewrite filter_cons_True by exact Hfresh. by rewrite filter_nil. }
  unfold timer_id in Hkeep.
  destruct pi, (bool_decide (mt = Some "tv")) eqn:Htv, fl;
    (eexists _, _, _, _;
     split; [unfold_player; rewrite ?Htv; unfold_player; reflexivity |];
     cbn [state dom trace watchStartTime playerInterval embedSources video_frame timers];
     split; [reflexivity |]; split; [reflexivity |]; split; [reflexivity |];
     split; [reflexivity |]; split; [reflexivity |]; split; [reflexivity |];
     split;
     [ cbn [run]; unfold_player; tidy_lists;
       rewrite fire_load_listeners_eq; unfold_player; rewrite Hkeep;
       unfold_player; tidy_lists;
       erewrite loadSource_eq; [| exact Hs | exact Hi];
       reflexivity |];
     cbn [state dom trace video_frame timers src next_timer_id];
     split; [reflexivity |]; split; [reflexivity |]; split; [reflexivity |];
     split; [| reflexivity];
     unfold load_attempts; rewrite ?omap_app; cbn; by rewrite ?app_nil_r).
Qed.

Lemma closed_player_loads_the_next_source_witness :
  exists w1 f1 w3 f3,
    cleanupPlayer between_sources = (Normal tt, w1)
    /\ watchStartTime (state w1) = None /\ playerInterval (state w1) = false
    /\ embedSources (state w1) = show_sources
    /\ video_frame (dom w1) = Some f1 /\ src f1 = "about:blank"
    /\ timers (dom w1) = timers (dom between_sources)
    /\ run all_hang 2 w1 = w3
    /\ state w3 = state w1
    /\ video_frame (dom w3) = Some f3
    /\ src f3 = "https://player.videasy.net/tv/1399/2/1?t=11000"
    /\ load_attempts (trace w3) = [1]
    /\ timers (dom w3)
       = [{| timer_id := 2%nat; due := 11000 + 10000; callback := LoadTimeoutExpired 1 |}].
Proof.
  apply (closed_player_loads_the_next_source all_hang between_sources
           {| src := "https://111movies.com/tv/1399/2/1?t=0"; contentWindow_length := 0;
              onerror := Some 0%nat; onload := true; load_once := [0%nat];
              pending := None |} 1%nat 11000 1
           {| source_name := "Source 2";
              url := "https://player.videasy.net/tv/1399/2/1" |});
    [reflexivity | reflexivity | | cbn; lia | reflexivity | cbn; lia].
  cbn. intros H. apply list_elem_of_singleton in H. discriminate H.
Defined.

End PlayerAfterwards.

(** ** WatchProgressTracker: what the player records *)

Section PlayerTracking.
Import Tracker Scenario Cases.

Lemma Qltb_Zltb (x y : Q) (b : bool) :
  ((x < y)%Q <-> b = true) -> Progress.Qltb x y = b.
Proof.
  intros H. destruct b.
  - apply Qltb_true. by apply H.
  - apply not_true_is_false. intros E. apply Qltb_true in E. apply H in E. discriminate.
Qed.

(** Seconds against a whole number of seconds, in milliseconds. *)
Lemma seconds_above (k start now : Z) :
  Progress.Qltb (inject_Z k) (seconds_since start now) = (k * 1000 <? now - start).
Proof.
  apply Qltb_Zltb. rewrite Z.ltb_lt. unfold Qlt, seconds_since. cbn. lia.
Qed.

Lemma seconds_below (k start now : Z) :
  Progress.Qltb (seconds_since start now) (inject_Z k) = (now - start <? k * 1000).
Proof.
  apply Qltb_Zltb. rewrite Z.ltb_lt. unfold Qlt, seconds_since. cbn. lia.
Qed.

Lemma seconds_floor (start now : Z) :
  Qfloor (seconds_since start now) = (now - start) / 1000.
Proof. unfold seconds_since. cbn. by rewrite Z.mul_1_r. Qed.

(** Against the two durations the player assumes, the percentage of a
    whole number of milliseconds exceeds 90 exactly beyond nine tenths
    of the duration. *)
Lemma percent_of_film (start now : Z) :
  (90 < Progress.progressPercent (seconds_since start now) 7200)%Q
  <-> 6480000 < now - start.
Proof.
  rewrite progressPercent_above_90 by reflexivity.
  unfold completion_threshold, seconds_since, Qle. cbn. lia.
Qed.

Lemma percent_of_episode (start now : Z) :
  (90 < Progress.progressPercent (seconds_since start now) 2700)%Q
  <-> 2430000 < now - start.
Proof.
  rewrite progressPercent_above_90 by reflexivity.
  unfold completion_threshold, seconds_since, Qle. cbn. lia.
Qed.

Lemma seconds_le (start now k : Z) :
  now - start <= k -> (seconds_since start now <= inject_Z k / 1000)%Q.
Proof. intros H. unfold seconds_since, Qle. cbn. lia. Qed.

Lemma seconds_ge (start now k : Z) :
  k <= now - start -> (inject_Z k / 1000 <= seconds_since start now)%Q.
Proof. intros H. unfold seconds_since, Qle. cbn. lia. Qed.

(** The code has the double nearest to [seconds_since].  For every
    number of milliseconds that double passes and fails the same tests
    as the quotient itself, and for a span of less than 2^43 seconds it
    has the same whole seconds. *)
Lemma rounded_seconds (start now : Z) :
  let d := seconds_since start now in
  Progress.Qltb 30 (Binary64.round64 d) = Progress.Qltb 30 d
  /\ Progress.Qltb 60 (Binary64.round64 d) = Progress.Qltb 60 d
  /\ Progress.Qltb (Binary64.round64 d) 60 = Progress.Qltb d 60
  /\ Progress.Qltb 90 (Progress.progressPercent (Binary64.round64 d) 7200)
     = Progress.Qltb 90 (Progress.progressPercent d 7200)
  /\ Progress.Qltb 90 (Progress.progressPercent (Binary64.round64 d) 2700)
     = Progress.Qltb 90 (Progress.progressPercent d 2700)
  /\ (0 <= now - start < 2 ^ 43 * 1000 -> Qfloor (Binary64.round64 d) = Qfloor d).
Proof.
  intros d.
  assert (Hup : forall k, now - start <= k ->
                  (Binary64.round64 d <= Binary64.round64 (inject_Z k / 1000))%Q).
  { intros k H. by apply round64_le, seconds_le. }
  assert (Hdown : forall k, k <= now - start ->
                    (Binary64.round64 (inject_Z k / 1000) <= Binary64.round64 d)%Q).
  { intros k H. by apply round64_le, seconds_ge. }
  split_and!.
  - change 30%Q with (inject_Z 30). unfold d. rewrite seconds_above. apply Qltb_Zltb. rewrite Z.ltb_lt.
    split; intros H.
    + destruct (Z.lt_ge_cases (30 * 1000) (now - start)) as [? | Hle]; [done | exfalso].
      apply (Qlt_not_le _ _ H). eapply Qle_trans; [apply (Hup 30000); lia |]. by vm_compute.
    + eapply Qlt_le_trans; [| apply (Hdown 30001); lia]. by vm_compute.
  - change 60%Q with (inject_Z 60). unfold d. rewrite seconds_above. apply Qltb_Zltb. rewrite Z.ltb_lt.
    split; intros H.
    + destruct (Z.lt_ge_cases (60 * 1000) (now - start)) as [? | Hle]; [done | exfalso].
      apply (Qlt_not_le _ _ H). eapply Qle_trans; [apply (Hup 60000); lia |]. by vm_compute.
    + eapply Qlt_le_trans; [| apply (Hdown 60001); lia]. by vm_compute.
  - change 60%Q with (inject_Z 60). unfold d. rewrite seconds_below. apply Qltb_Zltb. rewrite Z.ltb_lt.
    split; intros H.
    + destruct (Z.lt_ge_cases (now - start) (60 * 1000)) as [? | Hge]; [done | exfalso].
      apply (Qlt_not_le _ _ H). eapply Qle_trans; [| apply (Hdown 60000); lia]. by vm_compute.
    + eapply Qle_lt_trans; [apply (Hup 59999); lia |]. by vm_compute.
  - apply Qltb_Zltb. rewrite Qltb_true. unfold d at 2.
    rewrite percent_of_film, progressPercent_above_90 by reflexivity.
    split; intros H.
    + destruct (Z.lt_ge_cases 6480000 (now - start)) as [? | Hle]; [done | exfalso].
      apply (Qle_not_lt _ _ H).
      eapply Qle_lt_trans;
        [apply Qmult_le_compat_r; [apply (Hup 6480000); lia | by compute] |].
      by vm_compute.
    + eapply Qle_trans;
        [| apply Qmult_le_compat_r; [apply (Hdown 6480001); lia | by compute]].
      by vm_compute.
  - apply Qltb_Zltb. rewrite Qltb_true. unfold d at 2.
    rewrite percent_of_episode, progressPercent_above_90 by reflexivity.
    split; intros H.
    + destruct (Z.lt_ge_cases 2430000 (now - start)) as [? | Hle]; [done | exfalso].
      apply (Qle_not_lt _ _ H).
      eapply Qle_lt_trans;
        [apply Qmult_le_compat_r; [apply (Hup 2430000); lia | by compute] |].
      by vm_compute.
    + eapply Qle_trans;
        [| apply Qmult_le_compat_r; [apply (Hdown 2430001); lia | by compute]].
      by vm_compute.
  - intros He. unfold d at 2. rewrite seconds_floor.
    pose proof (eq_refl : 2 ^ 43 = 8796093022208) as P43.
    pose proof (eq_refl : 2 ^ 53 = 9007199254740992) as P53.
    set (N := (now - start) / 1000).
    assert (HN : 0 <= N < 2 ^ 43).
    { unfold N. split; [apply Z.div_pos; lia | apply Z.div_lt_upper_bound; lia]. }
    assert (Hrem : 1000 * N <= now - start <= 1000 * N + 999).
    { unfold N. pose proof (Z.div_mod (now - start) 1000 ltac:(lia)).
      pose proof (Z.mod_pos_bound (now - start) 1000 ltac:(lia)). lia. }
    clearbody N. apply Qfloor_unique.
    + eapply Qle_trans with (y := Binary64.round64 (inject_Z N / inject_Z (2 ^ 0))).
      * rewrite (round64_dyadic N 0) by lia. change (2 ^ 0) with 1. unfold Qle. cbn. lia.
      * apply round64_le. change (2 ^ 0) with 1. unfold d, seconds_since, Qle. cbn. lia.
    + set (K := (N + 1) * 1024 - 1).
      eapply Qle_lt_trans with (y := Binary64.round64 (inject_Z K / inject_Z (2 ^ 10))).
      * apply round64_le. change (2 ^ 10) with 1024.
        unfold d, seconds_since, K, Qle. cbn. lia.
      * rewrite (round64_dyadic K 10) by (unfold K; lia). change (2 ^ 10) with 1024.
        unfold K, Qlt. cbn. lia.
Qed.


Lemma updateWatchProgress_early a mi position duration w :
  Progress.Qltb position 60 = true ->
  Progress.updateWatchProgress a mi position duration w = (Normal tt, w).
Proof.
  intros Hlt. unfold Progress.updateWatchProgress, gets, bind, ret.
  destruct (Progress.currentUser w), mi; try reflexivity. by rewrite Hlt.
Qed.

Lemma updateWatchProgress_late a w u m position duration :
  Progress.currentUser w = Some u -> Progress.Qltb position 60 = false ->
  exists w' rest,
    Progress.updateWatchProgress a (Some m) position duration w = (Normal tt, w')
    /\ Progress.trace w'
       = Progress.trace w
         ++ Progress.UpsertSent (id u) (Progress.media_id m)
              (progress_row a w m position duration) :: rest
    /\ Progress.currentUser w' = Progress.currentUser w
    /\ Progress.currentSeason w' = Progress.currentSeason w
    /\ Progress.currentEpisode w' = Progress.currentEpisode w
    /\ Progress.continueWatching w' = Progress.continueWatching w
    /\ Progress.continue_watching w'
       = (if Progress.upsert_reply a is Answers
          then <[(id u, Progress.media_id m) := progress_row a w m position duration]>
                 (Progress.continue_watching w)
          else Progress.continue_watching w)
    /\ rest = (if Progress.upsert_reply a is Answers then []
               else [Progress.ConsoleError "Error updating watch progress:"]).
Proof.
  intros Hu Hpos.
  unfold Progress.updateWatchProgress, Progress.upsert, try_catch, Progress.emit,
    modify, gets, bind, ret, throw.
  rewrite Hu, Hpos.
  destruct (Progress.upsert_reply a); cbn; eexists; eexists;
    (split; [reflexivity |]); cbn; rewrite <- ?app_assoc; cbn; by split_and!.
Qed.

Ltac unfold_tracker :=
  cbv beta iota zeta delta
    [closePlayer trackPlayerProgress recordWatchHistory updateWatchTimeStats
     continueCard_click emit in_player in_progress view absorb
     PlayerControls.cleanupPlayer
     Player.with_dom Player.with_state Player.set_video_frame Player.set_watch
     Player.set_season_episode
     modify gets bind ret throw try_catch
     player continue_watching continueWatching requests home_active log timeline
     Player.state Player.dom Player.trace
     Player.video_frame Player.closures Player.timers Player.next_timer_id
     Player.navigations Player.now
     Player.src Player.contentWindow_length Player.onerror Player.onload
     Player.load_once Player.pending
     Player.currentUser Player.isUserApproved Player.currentMediaType
     Player.currentMediaId Player.currentMediaTitle Player.currentMediaData
     Player.currentSeason Player.currentEpisode Player.embedSources
     Player.watchStartTime Player.playerInterval
     Progress.currentUser Progress.currentSeason Progress.currentEpisode
     Progress.continue_watching Progress.continueWatching Progress.trace
     fst snd].

(** The two halves of [closePlayer]: what is recorded for a session of
    [d] seconds, and the cleanup that follows in every case. *)
Lemma recording_run pa poster_path_of w u m mid mty mti mnm se ep d est :
  Player.currentUser (Player.state (player w)) = Some u ->
  Progress.Qltb 30 d = true ->
  exists w1,
    (let* _ := recordWatchHistory mid mty mti mnm se ep d in
     let* _ := in_progress
                 (Progress.updateWatchProgress pa
                    (Some (as_progress_item poster_path_of m)) d est) in
     updateWatchTimeStats d) w = (Normal tt, w1)
    /\ player w1 = player w /\ home_active w1 = home_active w
    /\ continueWatching w1 = continueWatching w
    /\ log w1 = log w ++ WatchHistorySent (id u) mid mty (or_else mti mnm) se ep d
                  :: (if Progress.Qltb d 60 then [] else [ProfileRequested (id u)])
    /\ (if Progress.Qltb d 60
        then requests w1 = requests w /\ continue_watching w1 = continue_watching w
        else (exists rest,
                requests w1
                = requests w
                  ++ Progress.UpsertSent (id u) (Player.media_id m)
                       (progress_row pa (view w) (as_progress_item poster_path_of m) d est)
                     :: rest)
             /\ continue_watching w1
                = (if Progress.upsert_reply pa is Answers
                   then <[(id u, Player.media_id m) :=
                            progress_row pa (view w) (as_progress_item poster_path_of m) d est]>
                          (continue_watching w)
                   else continue_watching w))
    /\ timeline w1
       = timeline w
         ++ Logged (WatchHistorySent (id u) mid mty (or_else mti mnm) se ep d)
         :: (if Progress.Qltb d 60 then []
             else [Requested
                     (Progress.UpsertSent (id u) (Player.media_id m)
                        (progress_row pa (view w) (as_progress_item poster_path_of m) d est));
                   Logged (ProfileRequested (id u))]).
Proof.
  intros Hu H30.
  assert (Hnz : Qeq_bool d 0 = false).
  { apply not_true_is_false. intros E. apply Qeq_bool_iff in E.
    apply Qltb_true in H30. rewrite E in H30. by compute in H30. }
  destruct w as [[[cu ap mt mi mtl md cs ce es ws pi] b ptr] tbl items reqs home lg tl].
  cbn in Hu. subst cu.
  destruct (Progress.Qltb d 60) eqn:H60.
  - unfold_tracker.
    rewrite (updateWatchProgress_early _ _ _ _ _ H60). unfold_tracker.
    rewrite Hnz, H60. cbn [orb].
    eexists. split; [reflexivity |]. cbn [player home_active continueWatching log requests
      continue_watching timeline]. rewrite drop_all, app_nil_r, <- ?app_assoc.
    by split_and!.
  - set (p := {| Progress.currentUser := Some u; Progress.currentSeason := cs;
                 Progress.currentEpisode := ce; Progress.continue_watching := tbl;
                 Progress.continueWatching := items; Progress.trace := reqs |}).
    destruct (updateWatchProgress_late pa p u (as_progress_item poster_path_of m) d est
                eq_refl H60)
      as (p' & rest & Hrun & Htr & Hcu & Hcs & Hce & Hit & Htb & Hrest).
    destruct p' as [cu' cs' ce' tbl' items' tr'].
    cbn in Htr, Hcu, Hcs, Hce, Hit, Htb. subst cu' cs' ce' items' tbl' tr'.
    unfold_tracker. fold p. rewrite Hrun. unfold_tracker.
    rewrite Hnz, H60. cbn [orb].
    eexists. split; [reflexivity |]. cbn [player home_active continueWatching log requests
      continue_watching timeline].
    rewrite drop_app_length, <- ?app_assoc.
    assert (Hnone : omap requested rest = []).
    { rewrite Hrest. by destruct (Progress.upsert_reply pa). }
    cbn [omap list_omap requested]. fold (omap requested rest). rewrite Hnone.
    split_and!; try done. by exists rest.
Qed.

Lemma closing_run w :
  exists w',
    (let* _ := in_player PlayerControls.cleanupPlayer in
     let* _ := emit PlayerModalClosed in
     let* home := gets home_active in
     if home then emit ContinueWatchingReloadRequested else ret tt) w = (Normal tt, w')
    /\ Player.watchStartTime (Player.state (player w')) = None
    /\ Player.playerInterval (Player.state (player w')) = false
    /\ Player.embedSources (Player.state (player w'))
       = Player.embedSources (Player.state (player w))
    /\ (Player.currentUser (Player.state (player w'))
        = Player.currentUser (Player.state (player w))
        /\ Player.isUserApproved (Player.state (player w'))
           = Player.isUserApproved (Player.state (player w)))
    /\ Player.timers (Player.dom (player w')) = Player.timers (Player.dom (player w))
    /\ (Player.video_frame (Player.dom (player w)) <> None ->
        exists f, Player.video_frame (Player.dom (player w')) = Some f
                  /\ Player.src f = "about:blank")
    /\ (Player.currentMediaType (Player.state (player w)) = Some "tv" ->
        Player.currentSeason (Player.state (player w')) = 1
        /\ Player.currentEpisode (Player.state (player w')) = 1)
    /\ continue_watching w' = continue_watching w
    /\ continueWatching w' = continueWatching w
    /\ requests w' = requests w
    /\ log w' = log w ++ PlayerModalClosed
                  :: (if home_active w then [ContinueWatchingReloadRequested] else [])
    /\ timeline w' = timeline w ++ Logged PlayerModalClosed
                       :: (if home_active w
                           then [Logged ContinueWatchingReloadRequested] else []).
Proof.
  destruct w as [[[cu ap mt mi mtl md cs ce es ws pi] [vf cl tms nx nv t] ptr]
                 tbl items reqs home lg tl].
  destruct pi, vf as [f |], (bool_decide (mt = Some "tv")) eqn:Htv, home;
    (eexists; split; [unfold_tracker; rewrite ?Htv; unfold_tracker; reflexivity |];
     cbn; rewrite <- ?app_assoc; split_and!; try done;
     try (intros _; eexists; by split);
     try (intros E; rewrite E in Htv; by rewrite bool_decide_eq_true_2 in Htv)).
Qed.

(** X17: [closePlayer] always completes and always cleans up: the
    progress interval is stopped, the watch clock cleared, the frame, if
    there is one, blanked, season and episode are back to 1 for a show,
    and the source list and the pending timers are left in place; the
    modal is closed whatever was recorded. *)
Theorem closePlayer_always_cleans_up
    (pa : Progress.answers) (poster_path_of : Player.media_item -> option string)
    (w : world) :
  exists w',
    closePlayer pa poster_path_of w = (Normal tt, w')
    /\ Player.watchStartTime (Player.state (player w')) = None
    /\ Player.playerInterval (Player.state (player w')) = false
    /\ Player.embedSources (Player.state (player w'))
       = Player.embedSources (Player.state (player w))
    /\ Player.timers (Player.dom (player w')) = Player.timers (Player.dom (player w))
    /\ (Player.video_frame (Player.dom (player w)) <> None ->
        exists f, Player.video_frame (Player.dom (player w')) = Some f
                  /\ Player.src f = "about:blank")
    /\ (Player.currentMediaType (Player.state (player w)) = Some "tv" ->
        Player.currentSeason (Player.state (player w')) = 1
        /\ Player.currentEpisode (Player.state (player w')) = 1)
    /\ PlayerModalClosed ∈ log w'.
Proof.
  assert (Hfin : forall w1, player w1 = player w ->
    exists w',
      (let* _ := in_player PlayerControls.cleanupPlayer in
       let* _ := emit PlayerModalClosed in
       let* home := gets home_active in
       if home then emit ContinueWatchingReloadRequested else ret tt) w1 = (Normal tt, w')
      /\ Player.watchStartTime (Player.state (player w')) = None
      /\ Player.playerInterval (Player.state (player w')) = false
      /\ Player.embedSources (Player.state (player w'))
         = Player.embedSources (Player.state (player w))
      /\ Player.timers (Player.dom (player w')) = Player.timers (Player.dom (player w))
      /\ (Player.video_frame (Player.dom (player w)) <> None ->
          exists f, Player.video_frame (Player.dom (player w')) = Some f
                    /\ Player.src f = "about:blank")
      /\ (Player.currentMediaType (Player.state (player w)) = Some "tv" ->
          Player.currentSeason (Player.state (player w')) = 1
          /\ Player.currentEpisode (Player.state (player w')) = 1)
      /\ PlayerModalClosed ∈ log w').
  { intros w1 Hp.
    destruct (closing_run w1)
      as (w' & Hrun & H1 & H2 & H3 & _ & H4 & H5 & H6 & _ & _ & _ & Hl & _).
    exists w'. rewrite Hp in *. split_and!; try done. rewrite Hl.
    apply elem_of_app. right. left. }
  unfold closePlayer. rewrite bind_eq. cbn [gets]. rewrite bind_eq.
  destruct (Player.watchStartTime (Player.state (player w))) as [start |];
    [| by apply Hfin].
  destruct (Player.currentUser (Player.state (player w))) as [u |] eqn:Hu;
    [| by apply Hfin].
  destruct (Player.currentMediaData (Player.state (player w))) as [m |];
    [| by apply Hfin].
  destruct (Progress.Qltb 30 _) eqn:H30; [| by apply Hfin].
  match goal with
  | |- context [recordWatchHistory ?mid ?mty ?mti ?mnm ?se ?ep ?d] =>
      destruct (recording_run pa poster_path_of w u m mid mty mti mnm se ep d
                  (estimatedDuration (Player.state (player w))) Hu H30)
        as (w1 & Hrec & Hp & _)
  end.
  rewrite Hrec. by apply Hfin.
Qed.

Lemma closePlayer_always_cleans_up_witness :
  exists w',
    closePlayer store_up no_poster (evening 45000) = (Normal tt, w')
    /\ Player.watchStartTime (Player.state (player w')) = None
    /\ Player.playerInterval (Player.state (player w')) = false
    /\ (exists f, Player.video_frame (Player.dom (player w')) = Some f
                  /\ Player.src f = "about:blank")
    /\ Player.currentSeason (Player.state (player w')) = 1
    /\ Player.currentEpisode (Player.state (player w')) = 1.
Proof.
  destruct (closePlayer_always_cleans_up store_up no_poster (evening 45000))
    as (w' & Hrun & Hws & Hpi & _ & _ & Hframe & Hreset & _).
  exists w'. split; [exact Hrun |]. split; [exact Hws |]. split; [exact Hpi |].
  split; [apply Hframe; discriminate |]. by apply Hreset.
Defined.

(** X18: what [closePlayer] records depends on how long the player was
    open.  With a user, a title and a running watch clock: up to 30 s
    nothing is recorded; between 30 s and 60 s (exclusive) the watch
    history entry is sent and nothing else, [updateWatchProgress] and
    [updateWatchTimeStats] being called and returning at their own 60 s
    guards; from 60 s on the history entry, the progress row and the
    profile request are sent, in this order, and the modal is closed
    after these calls.  The progress row holds the whole seconds the
    player was open and the season and episode as they were before the
    cleanup reset them. *)
Theorem closePlayer_thresholds
    (pa : Progress.answers) (poster_path_of : Player.media_item -> option string)
    (w : world) (u : user) (m : Player.media_item) (start : Z) :
  let v := Player.state (player w) in
  let elapsed := Player.now (Player.dom (player w)) - start in
  let d := seconds_since start (Player.now (Player.dom (player w))) in
  let row := progress_row pa (view w) (as_progress_item poster_path_of m) d
               (estimatedDuration v) in
  Player.watchStartTime v = Some start -> Player.currentUser v = Some u ->
  Player.currentMediaData v = Some m ->
  exists w',
    closePlayer pa poster_path_of w = (Normal tt, w')
    /\ (elapsed <= 30000 ->
        log w' = log w ++ closing_events (home_active w)
        /\ requests w' = requests w /\ continue_watching w' = continue_watching w
        /\ timeline w' = timeline w ++ map Logged (closing_events (home_active w)))
    /\ (30000 < elapsed < 60000 ->
        log w' = log w ++ history_entry u v d :: closing_events (home_active w)
        /\ requests w' = requests w /\ continue_watching w' = continue_watching w
        /\ timeline w'
           = timeline w ++ map Logged (history_entry u v d :: closing_events (home_active w)))
    /\ (60000 <= elapsed ->
        log w' = log w ++ history_entry u v d :: ProfileRequested (id u)
                   :: closing_events (home_active w)
        /\ (exists rest,
              requests w'
              = requests w ++ Progress.UpsertSent (id u) (Player.media_id m) row :: rest)
        /\ timeline w'
           = timeline w
             ++ Logged (history_entry u v d)
             :: Requested (Progress.UpsertSent (id u) (Player.media_id m) row)
             :: Logged (ProfileRequested (id u))
             :: map Logged (closing_events (home_active w))
        /\ (Progress.upsert_reply pa = Answers ->
            continue_watching w'
            = <[(id u, Player.media_id m) := row]> (continue_watching w))
        /\ Progress.watch_progress row = elapsed / 1000
        /\ Progress.season row
           = (if String.eqb (default EmptyString (Player.media_type m)) "tv"
              then Some (Player.currentSeason v) else None)
        /\ Progress.episode row
           = (if String.eqb (default EmptyString (Player.media_type m)) "tv"
              then Some (Player.currentEpisode v) else None)).
Proof.
  intros v elapsed d row Hws Hu Hm.
  pose proof (seconds_above 30 start (Player.now (Player.dom (player w)))) as H30.
  pose proof (seconds_below 60 start (Player.now (Player.dom (player w)))) as H60.
  change (inject_Z 30) with 30%Q in H30. change (inject_Z 60) with 60%Q in H60.
  fold d elapsed in H30, H60.
  assert (Hclosing : forall home,
            map Logged (closing_events home)
            = Logged PlayerModalClosed
              :: (if home then [Logged ContinueWatchingReloadRequested] else [])).
  { by intros []. }
  unfold closePlayer. rewrite bind_eq. cbn [gets]. rewrite bind_eq.
  fold v. rewrite Hws, Hu, Hm. fold d.
  destruct (Progress.Qltb 30 d) eqn:E30; symmetry in H30.
  - apply Z.ltb_lt in H30.
    destruct (recording_run pa poster_path_of w u m
                (Player.currentMediaId v) (Player.currentMediaType v)
                (Player.currentMediaTitle v) None
                (if bool_decide (Player.currentMediaType v = Some "tv")
                 then Some (Player.currentSeason v) else None)
                (if bool_decide (Player.currentMediaType v = Some "tv")
                 then Some (Player.currentEpisode v) else None)
                d (estimatedDuration v) Hu E30)
      as (w1 & Hrec & Hp & Hh & Hit & Hlog & Hrest & Htl1).
    rewrite Hrec.
    destruct (closing_run w1)
      as (w' & Hrun & _ & _ & _ & _ & _ & _ & _ & Htb & _ & Hrq & Hl & Htl).
    exists w'. split; [exact Hrun |].
    rewrite Hl, Htl, Htl1, Hlog, Hh, Htb, Hrq, <- !app_assoc. cbn [app].
    destruct (Progress.Qltb d 60) eqn:E60; symmetry in H60.
    + apply Z.ltb_lt in H60. destruct Hrest as [Hr Ht].
      split_and!; try (intros; lia). intros _. split_and!; try done.
      cbn [app map]. by rewrite Hclosing.
    + apply Z.ltb_ge in H60. destruct Hrest as [Hr Ht].
      split_and!; try (intros; lia). intros _. split_and!; try done.
      * cbn [app]. by rewrite Hclosing.
      * intros Ha. by rewrite Ht, Ha.
      * subst row. cbn [progress_row Progress.watch_progress]. apply seconds_floor.
  - apply Z.ltb_ge in H30.
    destruct (closing_run w)
      as (w' & Hrun & _ & _ & _ & _ & _ & _ & _ & Htb & _ & Hrq & Hl & Htl).
    exists w'. split; [exact Hrun |].
    split_and!; try (intros; lia). intros _. split_and!; try done.
    by rewrite Hclosing.
Qed.

Lemma closePlayer_thresholds_witness :
  exists w',
    closePlayer store_up no_poster (evening 45000) = (Normal tt, w')
    /\ log w'
       = [WatchHistorySent "user-1" (Some 1399) (Some "tv") (Some "Thrones")
            (Some 2) (Some 5) (seconds_since 0 45000);
          PlayerModalClosed; ContinueWatchingReloadRequested]
    /\ requests w' = [] /\ continue_watching w' = ∅
    /\ timeline w'
       = [Logged (WatchHistorySent "user-1" (Some 1399) (Some "tv") (Some "Thrones")
                    (Some 2) (Some 5) (seconds_since 0 45000));
          Logged PlayerModalClosed; Logged ContinueWatchingReloadRequested].
Proof.
  destruct (closePlayer_thresholds store_up no_poster (evening 45000) alice thrones 0
              eq_refl eq_refl eq_refl) as (w' & Hrun & _ & Hmid & _).
  exists w'. split; [exact Hrun |]. apply Hmid. cbn. lia.
Defined.

(** X19: a tick of the progress interval saves only after more than
    60 s (at 60 s sharp it does not, although [updateWatchProgress]
    would accept 60 s), with the time the player has been open as the
    position and 7200 s for a film and 2700 s for anything else as the
    duration; the row it stores is therefore marked completed exactly
    when the player has been open for more than 6480 s (film) or 2430 s
    (otherwise). *)
Theorem trackPlayerProgress_tick
    (pa : Progress.answers) (poster_path_of : Player.media_item -> option string)
    (w : world) (u : user) (m : Player.media_item) (f : Player.iframe) (start : Z) :
  let v := Player.state (player w) in
  let elapsed := Player.now (Player.dom (player w)) - start in
  let d := seconds_since start (Player.now (Player.dom (player w))) in
  let row := progress_row pa (view w) (as_progress_item poster_path_of m) d
               (estimatedDuration v) in
  Player.currentUser v = Some u -> Player.currentMediaData v = Some m ->
  Player.video_frame (Player.dom (player w)) = Some f ->
  truthy_str (Player.src f) = true ->
  Player.watchStartTime v = Some start ->
  exists w',
    trackPlayerProgress pa poster_path_of w = (Normal tt, w')
    /\ player w' = player w /\ log w' = log w
    /\ (elapsed <= 60000 -> w' = w)
    /\ (60000 < elapsed ->
        (exists rest,
           requests w'
           = requests w ++ Progress.UpsertSent (id u) (Player.media_id m) row :: rest)
        /\ (Progress.upsert_reply pa = Answers ->
            continue_watching w'
            = <[(id u, Player.media_id m) := row]> (continue_watching w))
        /\ Progress.watch_progress row = elapsed / 1000
        /\ Progress.total_duration row
           = (if bool_decide (Player.currentMediaType v = Some "movie") then 7200 else 2700)
        /\ (Progress.completed row = true
            <-> (if bool_decide (Player.currentMediaType v = Some "movie")
                 then 6480000 else 2430000) < elapsed)).
Proof.
  intros v elapsed d row Hu Hm Hf Hsrc Hws.
  pose proof (seconds_above 60 start (Player.now (Player.dom (player w)))) as H60.
  pose proof (seconds_below 60 start (Player.now (Player.dom (player w)))) as H60'.
  change (inject_Z 60) with 60%Q in H60, H60'. fold d elapsed in H60, H60'.
  unfold trackPlayerProgress. rewrite bind_eq. cbn [gets].
  fold v. rewrite Hu, Hm, Hf, Hsrc, Hws. fold d.
  destruct (Progress.Qltb 60 d) eqn:E60; symmetry in H60.
  - apply Z.ltb_lt in H60.
    assert (E60' : Progress.Qltb d 60 = false).
    { rewrite H60'. apply Z.ltb_ge. lia. }
    subst row d v elapsed.
    destruct w as [[[cu ap mt mi mtl md cs ce es ws pi] b ptr] tbl items reqs home lg tl].
    cbn in Hu, Hm, Hf, Hws, H60, E60' |- *. subst cu md ws.
    set (d := seconds_since start (Player.now b)) in *.
    set (p := {| Progress.currentUser := Some u; Progress.currentSeason := cs;
                 Progress.currentEpisode := ce; Progress.continue_watching := tbl;
                 Progress.continueWatching := items; Progress.trace := reqs |}).
    set (est := estimatedDuration _).
    destruct (updateWatchProgress_late pa p u (as_progress_item poster_path_of m) d est
                eq_refl E60') as (p' & rest & Hrun & Htr & Hcu & Hcs & Hce & Hit & Htb & _).
    destruct p' as [cu' cs' ce' tbl' items' tr'].
    cbn in Htr, Hcu, Hcs, Hce, Hit, Htb. subst cu' cs' ce' items' tbl' tr'.
    unfold in_progress, view. cbn [player Player.state Player.currentUser Player.currentSeason
      Player.currentEpisode continue_watching continueWatching requests].
    fold p. rewrite Hrun. eexists. split; [reflexivity |]. cbn.
    split_and!; try done; try (intros; lia). intros _.
    split_and!.
    + by exists rest.
    + by intros ->.
    + apply seconds_floor.
    + subst est. unfold estimatedDuration. cbn. by destruct (bool_decide _).
    + rewrite Qltb_true. subst est. unfold estimatedDuration. cbn [Player.currentMediaType].
      destruct (bool_decide (mt = Some "movie")).
      * subst d. apply percent_of_film.
      * subst d. apply percent_of_episode.
  - apply Z.ltb_ge in H60. exists w. split; [reflexivity |].
    split_and!; try done. intros; lia.
Qed.

Lemma trackPlayerProgress_tick_witness :
  exists w',
    trackPlayerProgress store_up no_poster (evening 60000) = (Normal tt, w')
    /\ w' = evening 60000.
Proof.
  destruct (trackPlayerProgress_tick store_up no_poster (evening 60000) alice thrones
              {| Player.src := "https://111movies.com/tv/1399/2/5?t=0";
                 Player.contentWindow_length := 3;
                 Player.onerror := Some 0%nat; Player.onload := true;
                 Player.load_once := []; Player.pending := None |} 0
              eq_refl eq_refl eq_refl eq_refl eq_refl) as (w' & Hrun & _ & _ & Hsame & _).
  exists w'. split; [exact Hrun |]. apply Hsame. cbn. lia.
Defined.

(** [loadSource] always returns and leaves the player's variables
    alone. *)
Lemma loadSource_keeps_state a i w :
  exists w',
    Player.loadSource a i w = (Normal tt, w')
    /\ Player.state w' = Player.state w
    /\ Player.now (Player.dom w') = Player.now (Player.dom w).
Proof.
  destruct w as [v [vf cs tms tid n t] trc].
  destruct (decide (0 <= i < Z.of_nat (length (Player.embedSources v)))) as [Hi | Hi].
  - destruct (source_at_in_range _ _ Hi) as [s Hs]. destruct vf as [f |].
    + rewrite (loadSource_eq a v f cs tms tid n t trc i s Hs Hi).
      eexists. by split_and!.
    + unfold Player.loadSource. rewrite bind_eq. cbn [gets Player.state].
      destruct (_ || _); [by eexists |]. rewrite Hs. by eexists.
  - unfold Player.loadSource. rewrite bind_eq. cbn [gets Player.state].
    assert ((i <? 0) || (Z.of_nat (length (Player.embedSources v)) <=? i) = true) as ->.
    { apply orb_true_iff. destruct (Z.ltb_spec i 0); [by left | right].
      apply Z.leb_le. lia. }
    by eexists.
Qed.

(** Opening a show: season and episode are the ones to resume, 1 when
    absent or 0, and the sources are those of that episode. *)
Lemma openPlayer_tv a mi w u :
  Player.currentUser (Player.state w) = Some u ->
  Player.isUserApproved (Player.state w) = true ->
  Player.media_type mi = Some "tv" ->
  exists w',
    Player.openPlayer a mi w = (Normal tt, w')
    /\ Player.currentMediaId (Player.state w') = Some (Player.media_id mi)
    /\ Player.currentSeason (Player.state w') = Player.or_one (Player.resumeSeason mi)
    /\ Player.currentEpisode (Player.state w') = Player.or_one (Player.resumeEpisode mi)
    /\ Player.embedSources (Player.state w')
       = episode_sources (Some (Player.media_id mi))
           (Player.or_one (Player.resumeSeason mi)) (Player.or_one (Player.resumeEpisode mi))
    /\ Player.watchStartTime (Player.state w') = Some (Player.now (Player.dom w)).
Proof.
  intros Hu Hap Htv.
  destruct w as [[cu ap mt mid mtl md cs ce es ws pi] b trc]. cbn in Hu, Hap. subst cu ap.
  unfold Player.openPlayer. rewrite bind_eq. cbn [gets Player.state Player.currentUser
    Player.isUserApproved].
  rewrite bool_decide_eq_true_2 by (by eexists). cbn [negb].
  rewrite Htv. rewrite bool_decide_eq_true_2 by reflexivity.
  rewrite bind_eq. cbn [Player.with_state modify Player.state Player.dom Player.trace
    Player.set_media Player.currentUser Player.isUserApproved Player.currentSeason
    Player.currentEpisode Player.embedSources Player.watchStartTime Player.playerInterval].
  rewrite bind_eq. cbn [Player.emit modify Player.state Player.dom Player.trace].
  rewrite bind_eq. rewrite bind_eq.
  cbn [Player.with_state modify Player.state Player.dom Player.trace
    Player.set_season_episode Player.currentUser Player.isUserApproved
    Player.currentMediaType Player.currentMediaId Player.currentMediaTitle
    Player.currentMediaData Player.embedSources Player.watchStartTime Player.playerInterval].
  cbn [Player.emit modify Player.state Player.dom Player.trace].
  rewrite bind_eq. rewrite buildEmbedSources_tv by reflexivity.
  rewrite bind_eq. unfold Player.populateSourceButtons at 1. rewrite bind_eq.
  cbn [gets Player.state Player.emit modify Player.dom Player.trace].
  rewrite bind_eq.
  match goal with
  | |- context [Player.loadSource a 0 ?W] =>
      destruct (loadSource_keeps_state a 0 W) as (w1 & Hload & Hst & Hnow)
  end.
  rewrite Hload. destruct w1 as [v1 b1 t1]. cbn in Hst, Hnow. subst v1.
  unfold bind, gets, Player.with_state, Player.emit, modify, ret. cbn.
  eexists. split; [reflexivity |]. cbn. rewrite Hnow.
  split_and!; reflexivity.
Qed.

Lemma loadContinueWatching_lifted pa w u :
  Player.currentUser (Player.state (player w)) = Some u ->
  Progress.select_reply pa = Answers ->
  exists w2,
    in_progress (Progress.loadContinueWatching pa) w = (Normal tt, w2)
    /\ continueWatching w2
       = map (fun mr => Progress.to_item (fst mr) (snd mr))
           (Progress.query_rows (id u) (continue_watching w))
    /\ Player.currentUser (Player.state (player w2)) = Some u
    /\ Player.isUserApproved (Player.state (player w2))
       = Player.isUserApproved (Player.state (player w)).
Proof.
  intros Hu Hsel.
  destruct w as [[[cu ap mt mi mtl md cs ce es ws pi] b ptr] tbl items reqs home lg tl].
  cbn in Hu. subst cu.
  unfold in_progress, Progress.loadContinueWatching, try_catch, gets, modify, bind, ret.
  cbn. rewrite Hsel. cbn. eexists. split; [reflexivity |]. by split_and!.
Qed.

(** X20: resuming restores the episode.  When a show is closed after at
    least 60 s and at most 2430 s (90 % of the assumed 2700 s), the row
    is stored and no other row of the user is as recent, then the next
    successful [loadContinueWatching] has the show at the head of the
    list, and clicking that card opens the player on the season and the
    episode that were playing when it was closed, with the sources of
    that episode, although [closePlayer] had reset both to 1. *)
Theorem resume_restores_the_episode
    (a : Player.answers) (pa pa' : Progress.answers)
    (poster_path_of : Player.media_item -> option string)
    (w : world) (u : user) (m : Player.media_item) (start : Z) :
  let v := Player.state (player w) in
  let elapsed := Player.now (Player.dom (player w)) - start in
  Player.watchStartTime v = Some start -> Player.currentUser v = Some u ->
  Player.isUserApproved v = true ->
  Player.currentMediaData v = Some m -> Player.media_type m = Some "tv" ->
  Player.currentMediaType v = Some "tv" ->
  60000 <= elapsed <= 2430000 ->
  Player.currentSeason v <> 0 -> Player.currentEpisode v <> 0 ->
  Progress.upsert_reply pa = Answers -> Progress.select_reply pa' = Answers ->
  (forall m' r', continue_watching w !! (id u, m') = Some r' -> m' <> Player.media_id m ->
     Progress.last_watched_at r' < Progress.clock pa) ->
  exists w1 w2 item w3,
    closePlayer pa poster_path_of w = (Normal tt, w1)
    /\ Player.currentSeason (Player.state (player w1)) = 1
    /\ Player.currentEpisode (Player.state (player w1)) = 1
    /\ in_progress (Progress.loadContinueWatching pa') w1 = (Normal tt, w2)
    /\ head (continueWatching w2) = Some item
    /\ Progress.item_id item = Player.media_id m
    /\ continueCard_click a item w2 = (Normal tt, w3)
    /\ Player.currentMediaId (Player.state (player w3)) = Some (Player.media_id m)
    /\ Player.currentSeason (Player.state (player w3)) = Player.currentSeason v
    /\ Player.currentEpisode (Player.state (player w3)) = Player.currentEpisode v
    /\ Player.embedSources (Player.state (player w3))
       = episode_sources (Some (Player.media_id m))
           (Player.currentSeason v) (Player.currentEpisode v).
Proof.
  intros v elapsed Hws Hu Hap Hm Hmt Hty Hel Hs0 He0 Hup Hsel Hnew.
  set (d := seconds_since start (Player.now (Player.dom (player w)))).
  set (row := progress_row pa (view w) (as_progress_item poster_path_of m) d
                (estimatedDuration v)).
  pose proof (seconds_above 30 start (Player.now (Player.dom (player w)))) as H30.
  pose proof (seconds_below 60 start (Player.now (Player.dom (player w)))) as H60.
  change (inject_Z 30) with 30%Q in H30. change (inject_Z 60) with 60%Q in H60.
  fold d elapsed in H30, H60.
  assert (E30 : Progress.Qltb 30 d = true) by (rewrite H30; apply Z.ltb_lt; lia).
  assert (E60 : Progress.Qltb d 60 = false) by (rewrite H60; apply Z.ltb_ge; lia).
  assert (Hest : estimatedDuration v = 2700%Q).
  { unfold estimatedDuration. rewrite Hty. by rewrite bool_decide_eq_false_2. }
  (* closing *)
  destruct (recording_run pa poster_path_of w u m
              (Player.currentMediaId v) (Player.currentMediaType v)
              (Player.currentMediaTitle v) None
              (if bool_decide (Player.currentMediaType v = Some "tv")
               then Some (Player.currentSeason v) else None)
              (if bool_decide (Player.currentMediaType v = Some "tv")
               then Some (Player.currentEpisode v) else None)
              d (estimatedDuration v) Hu E30)
    as (w0 & Hrec & Hp0 & _ & _ & _ & Hrest & _).
  rewrite E60, Hup in Hrest. destruct Hrest as [_ Htb0]. fold row in Htb0.
  destruct (closing_run w0)
    as (w1 & Hrun & _ & _ & _ & [Hu1 Hap1] & _ & _ & Hreset & Htb1 & _ & _ & _).
  rewrite Hp0 in Hu1, Hap1, Hreset. fold v in Hu1, Hap1, Hreset.
  rewrite Hu in Hu1. rewrite Hap in Hap1. specialize (Hreset Hty).
  rewrite Htb0 in Htb1.
  (* reloading *)
  destruct (loadContinueWatching_lifted pa' w1 u Hu1 Hsel) as (w2 & Hload & Hlist & Hu2 & Hap2).
  rewrite Hap1 in Hap2. rewrite Htb1 in Hlist.
  assert (Hhead : head (Progress.query_rows (id u)
                          (<[(id u, Player.media_id m) := row]> (continue_watching w)))
                  = Some (Player.media_id m, row)).
  { apply query_rows_head.
    - apply (progress_row_resumable pa (view w) u (as_progress_item poster_path_of m)).
      + apply Qltb_false. exact E60.
      + rewrite Hest. apply Qnot_lt_le. subst d. rewrite percent_of_episode. lia.
      + apply lookup_insert_eq.
    - intros m' r' Hl Hne. rewrite lookup_insert_ne in Hl by congruence.
      by apply (Hnew m'). }
  apply head_Some in Hhead as [rest Hq]. rewrite Hq in Hlist. cbn [map fst snd] in Hlist.
  (* resuming *)
  set (item := Progress.to_item (Player.media_id m) row) in *.
  assert (Hitem : resume_item item
                  = {| Player.media_id := Player.media_id m;
                       Player.media_type := Some "tv";
                       Player.title := or_else (Player.title m) (Player.name m);
                       Player.name := or_else (Player.title m) (Player.name m);
                       Player.resumeSeason := Some (Player.currentSeason v);
                       Player.resumeEpisode := Some (Player.currentEpisode v) |}).
  { subst item row. unfold resume_item, Progress.to_item, progress_row, as_progress_item.
    cbn. rewrite Hmt. cbn. unfold Progress.or_one.
    pose proof (proj2 (Z.eqb_neq _ _) Hs0) as Es. pose proof (proj2 (Z.eqb_neq _ _) He0) as Ee.
    unfold v in Es, Ee. by rewrite Es, Ee. }
  destruct (openPlayer_tv a (resume_item item) (player w2) u Hu2 Hap2)
    as (pw & Hopen & Hid & Hse & Hep & Hsrc & _).
  { by rewrite Hitem. }
  rewrite Hitem in Hid, Hse, Hep, Hsrc.
  cbn [Player.media_id Player.resumeSeason Player.resumeEpisode] in Hid, Hse, Hep, Hsrc.
  assert (Hs1 : Player.or_one (Some (Player.currentSeason v)) = Player.currentSeason v).
  { unfold Player.or_one. by destruct (Z.eqb_spec (Player.currentSeason v) 0). }
  assert (He1 : Player.or_one (Some (Player.currentEpisode v)) = Player.currentEpisode v).
  { unfold Player.or_one. by destruct (Z.eqb_spec (Player.currentEpisode v) 0). }
  rewrite Hs1 in Hse, Hsrc. rewrite He1 in Hep, Hsrc.
  exists w1, w2, item. eexists.
  split.
  { unfold closePlayer. rewrite bind_eq. cbn [gets]. rewrite bind_eq.
    fold v. rewrite Hws, Hu, Hm. fold d. rewrite E30, Hrec. exact Hrun. }
  split; [apply Hreset |]. split; [apply Hreset |].
  split; [exact Hload |]. split; [by rewrite Hlist |]. split; [reflexivity |].
  split.
  { unfold continueCard_click. rewrite bind_eq. cbn [gets]. rewrite Hap2.
    unfold in_player. rewrite Hopen. reflexivity. }
  cbn [player]. by split_and!.
Qed.

Lemma resume_restores_the_episode_witness :
  exists w1 w2 item w3,
    closePlayer store_up no_poster (evening 1500000) = (Normal tt, w1)
    /\ Player.currentSeason (Player.state (player w1)) = 1
    /\ Player.currentEpisode (Player.state (player w1)) = 1
    /\ in_progress (Progress.loadContinueWatching store_up) w1 = (Normal tt, w2)
    /\ head (continueWatching w2) = Some item
    /\ Progress.item_id item = 1399
    /\ continueCard_click all_hang item w2 = (Normal tt, w3)
    /\ Player.currentMediaId (Player.state (player w3)) = Some 1399
    /\ Player.currentSeason (Player.state (player w3)) = 2
    /\ Player.currentEpisode (Player.state (player w3)) = 5
    /\ Player.embedSources (Player.state (player w3)) = episode_sources (Some 1399) 2 5.
Proof.
  apply (resume_restores_the_episode all_hang store_up store_up no_poster
           (evening 1500000) alice thrones 0);
    try reflexivity; try (cbn; lia).
  intros m' r' Hl. cbn in Hl. by rewrite lookup_empty in Hl.
Defined.

End PlayerTracking.

(** ** WatchProgressTracker: removing an entry *)

Section RemovingEntries.
Import Progress Removal Scenario Cases.

(** X21: [removeContinueWatching] never throws.  When the datastore
    answers, the row of this user and title is deleted, the entries with
    this id leave the list while the others keep their order, and a
    later successful [loadContinueWatching] does not bring the title
    back; when the datastore reports an error or rejects the call, the
    table and the list are left as they were and the failure is shown.
    Without a signed-in user nothing happens. *)
Theorem removeContinueWatching_outcome
    (a : Removal.answers) (pa : Progress.answers) (mediaId : Z) (w : Removal.world) :
  exists w',
    removeContinueWatching a mediaId w = (Normal tt, w')
    /\ currentUser (base w') = currentUser (base w)
    /\ (currentUser (base w) = None -> w' = w)
    /\ (forall u, currentUser (base w) = Some u -> delete_reply a = Answers ->
          continue_watching (base w') = delete (id u, mediaId) (continue_watching (base w))
          /\ continueWatching (base w')
             = filter (fun item => item_id item <> mediaId) (continueWatching (base w))
          /\ ui w' = ui w ++ [DeleteSent (id u) mediaId;
                              ContinueWatchingRendered (length (continueWatching (base w')));
                              Notification "Removed from Continue Watching" "success"]
          /\ (select_reply pa = Answers ->
              mediaId ∉ map item_id
                          (continueWatching (snd (loadContinueWatching pa (base w'))))))
    /\ (forall u, currentUser (base w) = Some u -> delete_reply a <> Answers ->
          base w' = base w
          /\ ui w' = ui w ++ [DeleteSent (id u) mediaId;
                              ConsoleError "Error removing from continue watching:";
                              Notification "Failed to remove item" "error"]).
Proof.
  destruct w as [[[u |] cs ce tbl items tr] shown].
  - unfold removeContinueWatching, delete_row, renderContinueWatching, showNotification,
      Removal.emit, in_base, try_catch, modify, gets, bind, ret, throw.
    cbn. destruct (delete_reply a) eqn:Hd; cbn; eexists; (split; [reflexivity |]); cbn;
      (split; [reflexivity |]); (split; [discriminate |]);
      (split; [intros u' [= <-] Ha | intros u' [= <-] Ha]); try done.
    + rewrite <- !app_assoc. split_and!; try done.
      intros Hsel. unfold loadContinueWatching, try_catch, gets, modify, bind, ret.
      cbn. rewrite Hsel. cbn. rewrite map_map. cbn. intros Hin.
      apply list_elem_of_fmap in Hin as ([m' r] & Hm & Hin). cbn in Hm. subst m'.
      apply query_rows_spec in Hin as (Hl & _). by rewrite lookup_delete_eq in Hl.
    + rewrite <- !app_assoc. by split.
    + rewrite <- !app_assoc. by split.
  - exists {| base := {| currentUser := None; currentSeason := cs; currentEpisode := ce;
                         continue_watching := tbl; continueWatching := items;
                         trace := tr |};
              ui := shown |}.
    split; [reflexivity |]. split_and!; try done.
Qed.

Lemma removeContinueWatching_outcome_witness :
  exists w',
    removeContinueWatching {| delete_reply := Answers |} 1399
      {| base := shelf; ui := [] |} = (Normal tt, w')
    /\ continue_watching (base w') = delete ("user-1", 1399) (continue_watching shelf)
    /\ 1399 ∉ map item_id
                (continueWatching (snd (loadContinueWatching store_up (base w')))).
Proof.
  destruct (removeContinueWatching_outcome {| delete_reply := Answers |} store_up 1399
              {| base := shelf; ui := [] |}) as (w' & Hrun & _ & _ & Hok & _).
  destruct (Hok alice eq_refl eq_refl) as (Ht & _ & _ & Hgone).
  exists w'. split; [exact Hrun |]. split; [exact Ht |]. by apply Hgone.
Defined.

End RemovingEntries.

(** ** Bookmarks *)

Section MyList.
Import Bookmarks Scenario Cases.

Ltac in_list :=
  rewrite ?fmap_app, ?fmap_cons; cbn [fmap list_fmap];
  rewrite ?elem_of_app, ?elem_of_cons, ?list_elem_of_singleton, ?elem_of_nil;
  naive_solver.

(** What comes after the change of the list in [toggleBookmark]. *)
Lemma toggleBookmark_refresh w mi :
  (let* active := gets mylist_active in
   let* _ := if active then loadBookmarks else ret tt in
   let* featured := gets featuredMedia in
   if bool_decide (featured = Some (media_id mi)) then emit HeroUpdated else ret tt) w
  = (Normal tt,
     {| currentUser := currentUser w; isUserApproved := isUserApproved w;
        bookmarks := bookmarks w; mylist_active := mylist_active w;
        featuredMedia := featuredMedia w;
        trace := trace w ++ refreshes w (media_id mi) (length (bookmarks w)) |}).
Proof.
  unfold loadBookmarks, emit, modify, gets, bind, ret, refreshes.
  destruct w as [u ap l [|] fm tr]; cbn;
    destruct (bool_decide (fm = Some (media_id mi))); cbn;
    rewrite <- ?app_assoc, ?app_nil_r; reflexivity.
Qed.

(** X22: [toggleBookmark] changes nothing for a visitor or a user
    without access: the list is left as it was and no request is sent;
    the visitor is told to log in, the user without access is told to
    subscribe and gets the payment modal. *)
Theorem toggleBookmark_gate (mi : item) (ty : option string) (w : world) :
  (currentUser w = None ->
     exists w',
       toggleBookmark mi ty w = (Normal tt, w')
       /\ bookmarks w' = bookmarks w
       /\ trace w' = trace w ++ [Notification "Please log in to manage your list" "error"])
  /\ (currentUser w <> None -> isUserApproved w = false ->
       exists w',
         toggleBookmark mi ty w = (Normal tt, w')
         /\ bookmarks w' = bookmarks w
         /\ trace w' = trace w ++ [Notification "Subscribe to use bookmark feature" "error";
                                   PaymentModalOpened]).
Proof.
  destruct w as [[u |] ap l act fm tr]; cbn; split; try done.
  - intros _ ->. unfold toggleBookmark, showNotification, openPaymentModal, emit,
      modify, gets, bind, ret. cbn.
    eexists. split; [reflexivity |]. cbn. by rewrite <- app_assoc.
  - intros _. unfold toggleBookmark, showNotification, emit, modify, gets, bind, ret. cbn.
    eexists. by split.
Qed.

Lemma toggleBookmark_gate_witness :
  exists w',
    toggleBookmark heat (Some "movie")
      {| currentUser := Some alice; isUserApproved := false; bookmarks := [];
         mylist_active := false; featuredMedia := None; trace := [] |} = (Normal tt, w')
    /\ bookmarks w' = []
    /\ trace w' = [Notification "Subscribe to use bookmark feature" "error";
                   PaymentModalOpened].
Proof.
  apply (proj2 (toggleBookmark_gate heat (Some "movie")
                  {| currentUser := Some alice; isUserApproved := false; bookmarks := [];
                     mylist_active := false; featuredMedia := None; trace := [] |}));
    [discriminate | reflexivity].
Defined.

(** The two branches of an accepted toggle. *)
Lemma toggleBookmark_adds mi ty w u :
  currentUser w = Some u -> isUserApproved w = true ->
  media_id mi ∉ listed_ids w ->
  exists w',
    toggleBookmark mi ty w = (Normal tt, w')
    /\ currentUser w' = Some u /\ isUserApproved w' = true
    /\ mylist_active w' = mylist_active w /\ featuredMedia w' = featuredMedia w
    /\ bookmarks w' = bookmarks w ++ [with_type mi ty]
    /\ trace w' = trace w
         ++ [Notification "Added to your list" "success";
             InsertSent (id u) (media_id mi) ty (or_else (title mi) (name mi));
             ButtonSet true]
         ++ refreshes w (media_id mi) (S (length (bookmarks w))).
Proof.
  intros Hu Hap Hnew.
  assert (Hfind : list_find (fun b => media_id b = media_id mi) (bookmarks w) = None).
  { apply list_find_None, Forall_forall. intros b Hb E. apply Hnew.
    apply list_elem_of_fmap. by exists b. }
  unfold toggleBookmark. rewrite bind_eq. cbn [gets]. rewrite Hu.
  rewrite bool_decide_eq_true_2 by (by eexists). cbn [negb].
  rewrite bind_eq. cbn [gets]. rewrite Hap. cbn [negb].
  rewrite bind_eq. cbn [gets]. rewrite Hfind. rewrite bind_eq.
  destruct w as [cu ap l act fm tr]. cbn in Hu, Hap. subst cu ap.
  cbn [bookmarks].
  change ((let* _ := set_bookmarks (l ++ [with_type mi ty]) in
           let* _ := showNotification "Added to your list" "success" in
           let* _ := addBookmarkToSupabase mi ty in
           emit (ButtonSet true))
            {| currentUser := Some u; isUserApproved := true; bookmarks := l;
               mylist_active := act; featuredMedia := fm; trace := tr |})
    with (Normal tt,
          {| currentUser := Some u; isUserApproved := true;
             bookmarks := l ++ [with_type mi ty];
             mylist_active := act; featuredMedia := fm;
             trace := ((tr ++ [Notification "Added to your list" "success"])
                       ++ [InsertSent (id u) (media_id mi) ty
                             (or_else (title mi) (name mi))])
                      ++ [ButtonSet true] |}).
  cbv iota. rewrite toggleBookmark_refresh. eexists. split; [reflexivity |].
  cbn. rewrite length_app, Nat.add_1_r, <- !app_assoc. by split_and!.
Qed.

Lemma toggleBookmark_removes mi ty w u :
  currentUser w = Some u -> isUserApproved w = true ->
  media_id mi ∈ listed_ids w ->
  exists w' l1 b l2,
    toggleBookmark mi ty w = (Normal tt, w')
    /\ currentUser w' = Some u /\ isUserApproved w' = true
    /\ mylist_active w' = mylist_active w /\ featuredMedia w' = featuredMedia w
    /\ bookmarks w = l1 ++ b :: l2 /\ media_id b = media_id mi
    /\ (media_id mi ∉ media_id <$> l1)
    /\ bookmarks w' = l1 ++ l2
    /\ trace w' = trace w
         ++ [Notification "Removed from your list" "success";
             DeleteSent (id u) (media_id mi); ButtonSet false]
         ++ refreshes w (media_id mi) (length l1 + length l2).
Proof.
  intros Hu Hap Hold.
  apply list_elem_of_fmap in Hold as (b0 & Hb0 & Hin).
  destruct (list_find (fun b => media_id b = media_id mi) (bookmarks w))
    as [[index b] |] eqn:Hfind.
  2: { apply list_find_None in Hfind. rewrite Forall_forall in Hfind.
       exfalso. by apply (Hfind b0 Hin). }
  apply list_find_Some in Hfind as Hspec. destruct Hspec as (Hl & Hb & Hfirst).
  pose proof (take_drop_middle _ _ _ Hl) as Hsplit.
  unfold toggleBookmark. rewrite bind_eq. cbn [gets]. rewrite Hu.
  rewrite bool_decide_eq_true_2 by (by eexists). cbn [negb].
  rewrite bind_eq. cbn [gets]. rewrite Hap. cbn [negb].
  rewrite bind_eq. cbn [gets]. rewrite Hfind. rewrite bind_eq.
  destruct w as [cu ap l act fm tr]. cbn in Hu, Hap, Hl, Hsplit, Hfirst. subst cu ap.
  cbn [bookmarks].
  change ((let* _ := set_bookmarks (delete index l) in
           let* _ := showNotification "Removed from your list" "success" in
           let* _ := removeBookmarkFromSupabase (media_id mi) in
           emit (ButtonSet false))
            {| currentUser := Some u; isUserApproved := true; bookmarks := l;
               mylist_active := act; featuredMedia := fm; trace := tr |})
    with (Normal tt,
          {| currentUser := Some u; isUserApproved := true;
             bookmarks := delete index l;
             mylist_active := act; featuredMedia := fm;
             trace := ((tr ++ [Notification "Removed from your list" "success"])
                       ++ [DeleteSent (id u) (media_id mi)])
                      ++ [ButtonSet false] |}).
  cbv iota. rewrite toggleBookmark_refresh.
  eexists. exists (take index l), b, (drop (S index) l).
  split; [reflexivity |]. cbn.
  rewrite delete_take_drop, length_app, <- !app_assoc. split_and!; try done.
  intros Hdup. apply list_elem_of_fmap in Hdup as (y & Hy & Hyin).
  apply list_elem_of_lookup in Hyin as (j & Hj).
  pose proof (lookup_lt_Some _ _ _ Hj) as Hlen. rewrite length_take in Hlen.
  rewrite lookup_take_lt in Hj by lia.
  apply (Hfirst j y Hj); [lia | done].
Qed.

Lemma requests_in_refreshes w media cards : requests_in (refreshes w media cards) = [].
Proof.
  unfold refreshes.
  by destruct (mylist_active w), (bool_decide (featuredMedia w = Some media)).
Qed.

(** X23: an accepted toggle flips the membership of the title.  For a
    signed-in user with access and a list without duplicate ids, the
    list afterwards is again without duplicates, holds the title's id
    exactly when it did not before, and holds every other id as before;
    one request goes to the datastore, an insert when the title was
    added and a delete when it was removed, and the button is set to the
    new membership. *)
Theorem toggleBookmark_flips (mi : item) (ty : option string) (w : world) (u : user) :
  currentUser w = Some u -> isUserApproved w = true -> NoDup (listed_ids w) ->
  exists w' added,
    toggleBookmark mi ty w = (Normal tt, w')
    /\ NoDup (listed_ids w')
    /\ (media_id mi ∈ listed_ids w' <-> media_id mi ∉ listed_ids w)
    /\ (forall i, i <> media_id mi -> i ∈ listed_ids w' <-> i ∈ listed_ids w)
    /\ trace w' = trace w ++ added
    /\ requests_in added
       = [if bool_decide (media_id mi ∈ listed_ids w)
          then DeleteSent (id u) (media_id mi)
          else InsertSent (id u) (media_id mi) ty (or_else (title mi) (name mi))]
    /\ ButtonSet (bool_decide (media_id mi ∈ listed_ids w')) ∈ added.
Proof.
  intros Hu Hap Hnd.
  destruct (decide (media_id mi ∈ listed_ids w)) as [Hold | Hnew].
  - destruct (toggleBookmark_removes mi ty w u Hu Hap Hold)
      as (w' & l1 & b & l2 & Hrun & _ & _ & _ & _ & Hl & Hb & Hfirst & Hl' & Htr).
    unfold listed_ids in *. rewrite Hl, fmap_app, fmap_cons, Hb in Hnd.
    apply NoDup_app in Hnd as (Hn1 & Hdisj & Hn2).
    apply NoDup_cons in Hn2 as (Hnot2 & Hn2).
    assert (Hgone : media_id mi ∉ media_id <$> l1 ++ l2).
    { rewrite fmap_app. intros [H | H]%elem_of_app; [by apply Hfirst | by apply Hnot2]. }
    exists w'. eexists. split; [exact Hrun |].
    rewrite Hl'. split_and!.
    + rewrite fmap_app. apply NoDup_app. split_and!; [done | | done].
      intros x Hx Hx2. apply (Hdisj x Hx). by right.
    + split; [done |]. intros Habs. exfalso. apply Habs.
      rewrite Hl, fmap_app, fmap_cons, Hb. in_list.
    + intros i Hi. rewrite Hl, !fmap_app, fmap_cons, Hb, !elem_of_app, elem_of_cons.
      split; [intros [H | H]; [by left | right; by right] |].
      intros [H | [H | H]]; [by left | done | by right].
    + exact Htr.
    + rewrite bool_decide_eq_true_2 by (rewrite Hl, fmap_app, fmap_cons, Hb; in_list).
      unfold requests_in. rewrite filter_app. fold (requests_in (refreshes w (media_id mi)
        (length l1 + length l2))). rewrite requests_in_refreshes. reflexivity.
    + rewrite bool_decide_eq_false_2 by exact Hgone. in_list.
  - destruct (toggleBookmark_adds mi ty w u Hu Hap Hnew)
      as (w' & Hrun & _ & _ & _ & _ & Hl' & Htr).
    exists w'. eexists. split; [exact Hrun |].
    unfold listed_ids in *. rewrite Hl', fmap_app. cbn [fmap list_fmap with_type media_id].
    split_and!.
    + apply NoDup_app. split_and!; [done | | apply NoDup_singleton].
      intros x Hx Hx2. apply list_elem_of_singleton in Hx2. by subst x.
    + split; [done |]. intros _. in_list.
    + intros i Hi. rewrite elem_of_app, list_elem_of_singleton.
      split; [intros [H | H]; done | by left].
    + exact Htr.
    + rewrite bool_decide_eq_false_2 by exact Hnew.
      unfold requests_in. rewrite filter_app. fold (requests_in (refreshes w (media_id mi)
        (S (length (bookmarks w))))). rewrite requests_in_refreshes. reflexivity.
    + rewrite bool_decide_eq_true_2 by in_list. in_list.
Qed.

Lemma toggleBookmark_flips_witness :
  exists w' added,
    toggleBookmark heat (Some "movie") my_list = (Normal tt, w')
    /\ NoDup (listed_ids w')
    /\ (949 ∈ listed_ids w' <-> 949 ∉ listed_ids my_list)
    /\ trace w' = added
    /\ requests_in added = [InsertSent "user-1" 949 (Some "movie") (Some "Heat")].
Proof.
  destruct (toggleBookmark_flips heat (Some "movie") my_list alice eq_refl eq_refl)
    as (w' & added & Hrun & Hnd & Hflip & _ & Htr & Hreq & _).
  { apply NoDup_singleton. }
  exists w', added. split_and!; try done.
Defined.

(** X24: adding a title and toggling it again restores the list.  For a
    title that is not on the list, two accepted toggles of its id leave
    the list exactly as it was, and send an insert followed by a
    delete. *)
Theorem toggleBookmark_twice
    (mi mi' : item) (ty ty' : option string) (w : world) (u : user) :
  currentUser w = Some u -> isUserApproved w = true ->
  media_id mi ∉ listed_ids w -> media_id mi' = media_id mi ->
  exists w1 w2 added,
    toggleBookmark mi ty w = (Normal tt, w1)
    /\ toggleBookmark mi' ty' w1 = (Normal tt, w2)
    /\ bookmarks w2 = bookmarks w
    /\ trace w2 = trace w ++ added
    /\ requests_in added
       = [InsertSent (id u) (media_id mi) ty (or_else (title mi) (name mi));
          DeleteSent (id u) (media_id mi)].
Proof.
  intros Hu Hap Hnew Hsame.
  destruct (toggleBookmark_adds mi ty w u Hu Hap Hnew)
    as (w1 & Hrun1 & Hu1 & Hap1 & _ & _ & Hl1 & Htr1).
  assert (Hold : media_id mi' ∈ listed_ids w1).
  { unfold listed_ids. rewrite Hl1, fmap_app, Hsame. in_list. }
  destruct (toggleBookmark_removes mi' ty' w1 u Hu1 Hap1 Hold)
    as (w2 & l1 & b & l2 & Hrun2 & _ & _ & _ & _ & Hl & Hb & Hfirst & Hl2 & Htr2).
  exists w1, w2. eexists. split; [exact Hrun1 |]. split; [exact Hrun2 |].
  rewrite Hl1 in Hl.
  assert (Hshape : l1 = bookmarks w /\ l2 = []).
  { destruct l2 as [| z l2 _] using rev_ind.
    - apply app_inj_tail in Hl as [-> _]. done.
    - exfalso. rewrite app_comm_cons, app_assoc in Hl.
      apply app_inj_tail in Hl as [Hl _].
      apply Hnew. unfold listed_ids. rewrite Hl, fmap_app, fmap_cons, Hb, Hsame.
      in_list. }
  destruct Hshape as [-> ->]. rewrite app_nil_r in Hl2.
  split; [exact Hl2 |].
  rewrite Htr2, Htr1, <- !app_assoc. split; [reflexivity |].
  unfold requests_in. rewrite !filter_app.
  fold (requests_in (refreshes w (media_id mi) (S (length (bookmarks w))))).
  fold (requests_in (refreshes w1 (media_id mi') (length (bookmarks w) + length (@nil item)))).
  rewrite !requests_in_refreshes, Hsame. reflexivity.
Qed.

Lemma toggleBookmark_twice_witness :
  exists w1 w2 added,
    toggleBookmark heat (Some "movie") my_list = (Normal tt, w1)
    /\ toggleBookmark heat None w1 = (Normal tt, w2)
    /\ bookmarks w2 = bookmarks my_list
    /\ trace w2 = trace my_list ++ added
    /\ requests_in added
       = [InsertSent "user-1" 949 (Some "movie") (Some "Heat"); DeleteSent "user-1" 949].
Proof.
  apply (toggleBookmark_twice heat heat (Some "movie") None my_list alice);
    [reflexivity | reflexivity | | reflexivity].
  cbn. intros H. apply list_elem_of_singleton in H. discriminate H.
Defined.

End MyList.

(** ** debounce *)

Section Debouncing.
Import Debounce Scenario Cases.
Variable A : Type.
Variable wait : Z.
Hypothesis wait_nonneg : 0 <= wait.

(** A call while nothing is pending arms one timer. *)
Lemma call_at_idle (w : world A) (c : Z * A) :
  timers w = [] -> now w <= fst c ->
  armed wait (executed w) (call_at wait w c) c.
Proof.
  intros Ht Hnow. destruct w as [to tms next t done]. cbn in Ht, Hnow. subst tms.
  destruct c as [tc x]. cbn in Hnow.
  unfold call_at, run_before, executedFunction, setTimeout, clearTimeout,
    modify, gets, bind, ret. cbn.
  rewrite Z.max_r by lia.
  destruct to as [tid |]; cbn; eexists; by split_and!.
Qed.

(** A call less than [wait] after the one the timer is for replaces the
    timer; [func] does not run. *)
Lemma call_at_armed (w : world A) (c c' : Z * A) done :
  armed wait done w c -> fst c <= fst c' < fst c + wait ->
  armed wait done (call_at wait w c') c'.
Proof.
  intros (tid & Ht & Hto & Hnow & Hdone) Hgap.
  destruct w as [to tms next t done']. cbn in Ht, Hto, Hnow, Hdone. subst to tms t done'.
  destruct c as [tc x], c' as [tc' x']. cbn in Hgap |- *.
  unfold call_at, run_before. cbn.
  rewrite (proj2 (Z.ltb_ge (tc + wait) tc')) by lia.
  unfold executedFunction, setTimeout, clearTimeout, modify, gets, bind, ret. cbn.
  rewrite decide_False by (cbn; intros H; by apply H).
  rewrite Z.max_r by lia. cbn. eexists. by split_and!.
Qed.

Lemma burst_armed (cs : list (Z * A)) (w : world A) (c : Z * A) done :
  armed wait done w c -> burst wait (fst c) cs ->
  armed wait done (foldl (call_at wait) w cs) (last_of c cs).
Proof.
  revert w c. induction cs as [| c' cs IH]; intros w c Harmed Hburst; [done |].
  destruct Hburst as [Hgap Hrest]. cbn [foldl last_of].
  apply IH; [| exact Hrest]. by apply (call_at_armed w c c').
Qed.

(** When the timer is due, [func] runs once, with the arguments of the
    call that armed it. *)
Lemma armed_fires (w : world A) (c : Z * A) done (t : Z) :
  armed wait done w c -> fst c + wait < t ->
  executed (run_before t w) = done ++ [(fst c + wait, snd c)]
  /\ timers (run_before t w) = []
  /\ now (run_before t w) = t.
Proof.
  intros (tid & Ht & Hto & Hnow & Hdone) Hlate.
  destruct w as [to tms next tn done']. cbn in Ht, Hto, Hnow, Hdone. subst to tms tn done'.
  destruct c as [tc x]. cbn in Hlate |- *.
  unfold run_before. cbn.
  rewrite (proj2 (Z.ltb_lt (tc + wait) t)) by lia.
  unfold fire, later, func, clearTimeout, modify, gets, bind, ret. cbn.
  rewrite decide_False by (cbn; intros H; by apply H). cbn.
  rewrite Z.max_r by lia. split_and!; [done | done |]. lia.
Qed.

(** X25: a burst of calls runs the function once.  When a debounced
    function with nothing pending is called, and called again and again
    each time less than [wait] after the call before, the function does
    not run during the burst; once more than [wait] has passed after the
    last call it has run exactly once, at [wait] after the last call and
    with the arguments of the last call, and nothing is pending. *)
Theorem debounce_burst (w : world A) (c : Z * A) (cs : list (Z * A)) (t : Z) :
  timers w = [] -> now w <= fst c -> burst wait (fst c) cs ->
  fst (last_of c cs) + wait < t ->
  let during := foldl (call_at wait) w (c :: cs) in
  executed during = executed w
  /\ executed (run_before t during)
     = executed w ++ [(fst (last_of c cs) + wait, snd (last_of c cs))]
  /\ timers (run_before t during) = [].
Proof.
  intros Ht Hnow Hburst Hlate during.
  assert (Harmed : armed wait (executed w) during (last_of c cs)).
  { subst during. cbn [foldl]. apply burst_armed; [| exact Hburst].
    by apply call_at_idle. }
  destruct (armed_fires during (last_of c cs) (executed w) t Harmed Hlate) as (He & Htm & _).
  split_and!; [| exact He | exact Htm].
  by destruct Harmed as (tid & _ & _ & _ & Hdone).
Qed.

End Debouncing.

Lemma debounce_burst_witness :
  let during :=
    foldl (Debounce.call_at 300) Cases.idle_button
      [(1000, "a"); (1100, "ab"); (1350, "abc")] in
  Debounce.executed during = []
  /\ Debounce.executed (Debounce.run_before 2000 during) = [(1350 + 300, "abc")]
  /\ Debounce.timers (Debounce.run_before 2000 during) = [].
Proof.
  apply (debounce_burst string 300 ltac:(lia) Cases.idle_button (1000, "a")
           [(1100, "ab"); (1350, "abc")] 2000); cbn; try reflexivity; lia.
Defined.

(** ** SourceFailover: opening a title of another type *)

Section PlayerEdges.
Import Player Scenario Cases.

Lemma buildEmbedSources_other v b trc :
  currentMediaType v <> Some "movie" -> currentMediaType v <> Some "tv" ->
  buildEmbedSources {| state := v; dom := b; trace := trc |}
  = (Normal tt, {| state := v; dom := b; trace := trc |}).
Proof.
  intros Hm Ht. unfold buildEmbedSources. rewrite bind_eq. cbn [gets state].
  by rewrite !bool_decide_eq_false_2.
Qed.

(** X26: a title that is neither a film nor a show is opened on the
    sources of the title before it.  [buildEmbedSources] has no branch
    for it, so for a signed-in user with access the new title's id and
    header are set while the source list stays as it was: with a list
    left from an earlier title the player requests that title's first
    source, and with an empty list it opens without requesting anything
    and without arming a timer. *)
Theorem openPlayer_other_type_keeps_sources
    (a : answers) (mi : media_item) (w : world) (u : user) (f : iframe) :
  currentUser (state w) = Some u -> isUserApproved (state w) = true ->
  media_type mi <> Some "movie" -> media_type mi <> Some "tv" ->
  video_frame (dom w) = Some f ->
  exists w',
    openPlayer a mi w = (Normal tt, w')
    /\ currentMediaId (state w') = Some (media_id mi)
    /\ embedSources (state w') = embedSources (state w)
    /\ match embedSources (state w) with
       | s :: _ =>
           trace w' = trace w
             ++ [PlayerHeaderRendered (or_else (title mi) (name mi));
                 SourceButtonsPopulated (length (embedSources (state w)));
                 VideoLoadingShown; SrcAssigned 0 (address s (now (dom w)));
                 PlayerModalOpened]
       | [] =>
           trace w' = trace w
             ++ [PlayerHeaderRendered (or_else (title mi) (name mi));
                 SourceButtonsPopulated 0; PlayerModalOpened]
           /\ dom w' = dom w
       end.
Proof.
  intros Hu Hap Hm Ht Hf.
  destruct w as [[cu ap mt mid mtl md cs ce es ws pi] [vf cl tms tid n t] trc].
  cbn in Hu, Hap, Hf. subst cu ap vf.
  unfold openPlayer. rewrite bind_eq. cbn [gets state currentUser isUserApproved].
  rewrite bool_decide_eq_true_2 by (by eexists). cbn [negb].
  rewrite (bool_decide_eq_false_2 (media_type mi = Some "tv")) by exact Ht.
  rewrite bind_eq. cbn [with_state modify state dom trace].
  rewrite bind_eq. cbn [emit modify state dom trace].
  rewrite bind_eq. cbn [ret].
  rewrite bind_eq, buildEmbedSources_other by (cbn; done).
  rewrite bind_eq. unfold populateSourceButtons at 1. rewrite bind_eq.
  cbn [gets state emit modify dom trace set_media embedSources].
  rewrite bind_eq.
  destruct es as [| s es].
  - unfold loadSource. rewrite bind_eq. cbn [gets state embedSources length].
    change ((0 <? 0) || (Z.of_nat 0 <=? 0)) with true. cbv iota.
    unfold bind, gets, with_state, emit, modify, ret. cbn.
    eexists. split; [reflexivity |]. cbn. rewrite <- !app_assoc. by split_and!.
  - erewrite loadSource_eq; [| reflexivity | cbn -[Z.of_nat]; lia].
    unfold bind, gets, with_state, emit, modify, ret. cbn.
    eexists. split; [reflexivity |]. cbn. rewrite <- !app_assoc. by split_and!.
Qed.

Lemma openPlayer_other_type_keeps_sources_witness :
  exists w',
    openPlayer all_hang some_person lobby = (Normal tt, w')
    /\ currentMediaId (state w') = Some 287
    /\ embedSources (state w') = film_sources
    /\ trace w'
       = [PlayerHeaderRendered (Some "Brad Pitt"); SourceButtonsPopulated 4;
          VideoLoadingShown; SrcAssigned 0 "https://111movies.com/movie/550?t=0";
          PlayerModalOpened].
Proof.
  apply (openPlayer_other_type_keeps_sources all_hang some_person lobby alice blank_frame);
    first [reflexivity | discriminate].
Defined.

End PlayerEdges.

(** ** SessionGuard: the logout link *)

Section LoggingOut.
Import Session Logout Scenario Cases.




End LoggingOut.

(** ** Start-up: loading the user *)

Section LoadingTheUser.
Import Startup Scenario Cases.

(** A registration that finds the account active on another device
    returns false, whatever the identity provider answers to the
    sign-out; the table, the heartbeat and the channel are left alone. *)
Lemma registerSessionForUser_refuses sa u (s : Session.world) B A r :
  Session.localStorage s !! Session.KEY = Some B -> B <> EmptyString ->
  Session.select_reply sa = Answers ->
  Session.active_sessions s !! id u = Some r ->
  Session.is_active r = Some true -> Session.device_id r = Some A ->
  A <> EmptyString -> A <> B ->
  exists s',
    Session.registerSessionForUser sa u s = (Normal false, s')
    /\ Session.active_sessions s' = Session.active_sessions s
    /\ Session._heartbeatIntervalId s' = Session._heartbeatIntervalId s
    /\ Session._sessionChannel s' = Session._sessionChannel s
    /\ Session.AuthSignOut ∈ Session.trace s'.
Proof.
  intros Hk HB Hsel Hr Hact Hdev HA HAB.
  assert (Hfa : Session.foreign_active (Session.active_sessions s !! id u) B = true).
  { rewrite Hr. unfold Session.foreign_active. rewrite Hact, Hdev. cbn.
    rewrite (proj2 (truthy_str_true A) HA).
    rewrite bool_decide_eq_true_2 by done.
    by rewrite bool_decide_eq_false_2 by congruence. }
  unfold Session.registerSessionForUser.
  rewrite bind_eq, (getDeviceId_stored sa s B Hk HB).
  unfold try_catch, Session.select_maybeSingle. rewrite Hsel.
  rewrite bind_eq. unfold gets at 1. rewrite bind_eq. unfold ret at 1.
  rewrite Hfa.
  unfold Session.auth_signOut, Session.showNotification, Session.emit,
    modify, bind, ret, throw.
  destruct (Session.signOut_reply sa); cbn; eexists; (split; [reflexivity |]); cbn;
    split_and!; try done.
  - apply elem_of_app. left. apply elem_of_app. right. by apply list_elem_of_singleton.
  - apply elem_of_app. left. apply elem_of_app. right. by apply list_elem_of_singleton.
  - apply elem_of_app. left. apply elem_of_app. right. by apply list_elem_of_singleton.
Qed.

(** X28: [loadUser] does not look at the answer of
    [registerSessionForUser].  When the page is loaded for an entitled
    user whose account is active on another device, the registration is
    refused and signs the user out at the identity provider, no
    heartbeat and no channel are started and the row stays the other
    device's; all the same [loadUser] keeps the user and the entitlement
    flag, shows the authenticated view and never the unauthenticated
    one, so that the gate of [openPlayer] is open: a show opened in that
    state gets its sources. *)
Theorem loadUser_shows_app_after_refusal
    (a : answers) (sa : Session.answers) (ea : Entitlement.answers)
    (Date_parse : string -> option Z) (w : world) (u : user)
    (acc : Entitlement.access) (t' : Entitlement.world) (A B : string)
    (r : Session.session_row) :
  getUser a = Some (Some u) ->
  Entitlement.isAllowedUser ea Date_parse (email u) (entitlement w) = (Normal acc, t') ->
  Entitlement.allowed acc = true ->
  Session.localStorage (session w) !! Session.KEY = Some B -> B <> EmptyString ->
  Session.select_reply sa = Answers ->
  Session.active_sessions (session w) !! id u = Some r ->
  Session.is_active r = Some true -> Session.device_id r = Some A ->
  A <> EmptyString -> A <> B ->
  exists w',
    loadUser a sa ea Date_parse w = (Normal tt, w')
    /\ currentUser w' = Some u /\ isUserApproved w' = true
    /\ ui w' = ui w
         ++ [LoadingScreenHidden; ConsoleLog "User loaded:"; BookmarksLoadRequested;
             ContinueWatchingLoadRequested;
             SubscriptionStatusUpdated (Entitlement.expiryDate acc);
             ProfileLoadRequested; AuthenticatedUIShown]
         ++ (if isSpecialUser a then [HeartAnimationScheduled] else [])
         ++ [ExtensionPopupScheduled]
    /\ Session.AuthSignOut ∈ Session.trace (session w')
    /\ Session.active_sessions (session w') = Session.active_sessions (session w)
    /\ Session._heartbeatIntervalId (session w') = Session._heartbeatIntervalId (session w)
    /\ Session._sessionChannel (session w') = Session._sessionChannel (session w)
    /\ (forall (pa : Player.answers) (pw : Player.world) (mi : Player.media_item),
          Player.currentUser (Player.state pw) = currentUser w' ->
          Player.isUserApproved (Player.state pw) = isUserApproved w' ->
          Player.media_type mi = Some "tv" ->
          exists pw',
            Player.openPlayer pa mi pw = (Normal tt, pw')
            /\ Player.embedSources (Player.state pw')
               = episode_sources (Some (Player.media_id mi))
                   (Player.or_one (Player.resumeSeason mi))
                   (Player.or_one (Player.resumeEpisode mi))).
Proof.
  intros Hget Hacc Hal Hk HB Hsel Hr Hact Hdev HA HAB.
  destruct (registerSessionForUser_refuses sa u (session w) B A r
              Hk HB Hsel Hr Hact Hdev HA HAB) as (s' & Hreg & Htb & Hh & Hc & Hso).
  destruct w as [s t cu ap shown]. cbn in Hacc, Hreg, Htb, Hh, Hc |- *.
  unfold loadUser, auth_getUser, try_catch. rewrite Hget.
  unfold emit, set_currentUser, set_isUserApproved, in_entitlement, in_session,
    modify, bind, ret. cbn. rewrite Hacc. cbn. rewrite Hal. cbn. rewrite Hreg. cbn.
  destruct (isSpecialUser a); cbn; eexists; (split; [reflexivity |]); cbn;
    rewrite <- ?app_assoc; cbn; (split_and!; try done);
    intros pa pw mi Hpu Hpa Hmt;
    destruct (openPlayer_tv pa mi pw u Hpu Hpa Hmt) as (pw' & Hopen & _ & _ & _ & Hsrc & _);
    by exists pw'.
Qed.

Lemma loadUser_shows_app_after_refusal_witness :
  exists w',
    loadUser known_user healthy mid_2025 toy_Date_parse reloading = (Normal tt, w')
    /\ currentUser w' = Some alice_mail /\ isUserApproved w' = true
    /\ AuthenticatedUIShown ∈ ui w'
    /\ Session.active_sessions (session w') !! "user-1" = Some (row_of "device-A" true "S")
    /\ Session._heartbeatIntervalId (session w') = None.
Proof.
  destruct (loadUser_shows_app_after_refusal known_user healthy mid_2025 toy_Date_parse
              reloading alice_mail
              {| Entitlement.allowed := true; Entitlement.reason := None;
                 Entitlement.expiryDate := Some "2030-01-01" |}
              subscribers "device-A" "device-B" (row_of "device-A" true "S"))
    as (w' & Hrun & Hu & Hap & Hui & _ & Htb & Hh & _);
    [reflexivity | vm_compute; reflexivity | reflexivity | reflexivity | discriminate
    | reflexivity | reflexivity | reflexivity | reflexivity | discriminate | discriminate |].
  exists w'. split; [exact Hrun |]. split; [exact Hu |]. split; [exact Hap |].
  split; [| by rewrite Htb, Hh].
  rewrite Hui. apply elem_of_app. right. apply elem_of_app. left.
  apply list_elem_of_In. cbn. tauto.
Defined.

(** X29: the ways [loadUser] ends without a session.  It never throws.
    Without a signed-in user it clears the user and the entitlement flag
    and shows the unauthenticated view.  When the identity provider
    cannot be asked it logs, shows the unauthenticated view and the
    'Please refresh' notice, and leaves the variables as they were.  When
    the registration throws (nothing stored and the storage refusing the
    write), the same error path runs although the user and the
    entitlement flag have already been set: the unauthenticated view is
    shown over variables that say signed in. *)
Theorem loadUser_without_session
    (a : answers) (sa : Session.answers) (ea : Entitlement.answers)
    (Date_parse : string -> option Z) (w : world) :
  (getUser a = Some None ->
     loadUser a sa ea Date_parse w
     = (Normal tt,
        {| session := session w; entitlement := entitlement w;
           currentUser := None; isUserApproved := false;
           ui := ui w ++ [LoadingScreenHidden; UnauthenticatedUIShown] |}))
  /\ (getUser a = None ->
       loadUser a sa ea Date_parse w
       = (Normal tt,
          {| session := session w; entitlement := entitlement w;
             currentUser := currentUser w; isUserApproved := isUserApproved w;
             ui := ui w ++ [ConsoleError "Error loading user:"; UnauthenticatedUIShown;
                            Notification "Error loading user. Please refresh." "error"] |}))
  /\ (forall u acc t',
        getUser a = Some (Some u) ->
        Entitlement.isAllowedUser ea Date_parse (email u) (entitlement w)
        = (Normal acc, t') ->
        truthy_ostr (Session.localStorage (session w) !! Session.KEY) = false ->
        Session.setItem_throws sa = true ->
        loadUser a sa ea Date_parse w
        = (Normal tt,
           {| session := session w; entitlement := t';
              currentUser := Some u; isUserApproved := Entitlement.allowed acc;
              ui := ui w ++ [LoadingScreenHidden; ConsoleLog "User loaded:";
                             ConsoleError "Error loading user:"; UnauthenticatedUIShown;
                             Notification "Error loading user. Please refresh." "error"] |})).
Proof.
  destruct w as [s t cu ap shown]. cbn [session entitlement currentUser isUserApproved ui].
  split_and!.
  - intros Hget. unfold loadUser, auth_getUser, try_catch. rewrite Hget.
    unfold emit, set_currentUser, set_isUserApproved, modify, bind, ret. cbn.
    by rewrite <- !app_assoc.
  - intros Hget. unfold loadUser, auth_getUser, try_catch. rewrite Hget.
    unfold emit, modify, bind, ret, throw. cbn. by rewrite <- !app_assoc.
  - intros u acc t' Hget Hacc Hk Hthrow.
    assert (Hreg : Session.registerSessionForUser sa u s = (Thrown "QuotaExceededError", s)).
    { unfold Session.registerSessionForUser. rewrite bind_eq.
      by rewrite (getDeviceId_fresh sa s Hk), Hthrow. }
    unfold loadUser, auth_getUser, try_catch. rewrite Hget.
    unfold emit, set_currentUser, set_isUserApproved, in_entitlement, in_session,
      modify, bind, ret. cbn. rewrite Hacc. cbn.
    destruct (Entitlement.allowed acc); cbn; rewrite Hreg; cbn;
      by rewrite <- !app_assoc.
Qed.

Lemma loadUser_without_session_witness :
  loadUser known_user storage_full mid_2025 toy_Date_parse
    {| session := browser_of None None; entitlement := subscribers;
       currentUser := None; isUserApproved := false; ui := [] |}
  = (Normal tt,
     {| session := browser_of None None; entitlement := subscribers;
        currentUser := Some alice_mail; isUserApproved := true;
        ui := [LoadingScreenHidden; ConsoleLog "User loaded:";
               ConsoleError "Error loading user:"; UnauthenticatedUIShown;
               Notification "Error loading user. Please refresh." "error"] |}).
Proof.
  apply (proj2 (proj2 (loadUser_without_session known_user storage_full mid_2025
                         toy_Date_parse
                         {| session := browser_of None None; entitlement := subscribers;
                            currentUser := None; isUserApproved := false; ui := [] |}))
           alice_mail
           {| Entitlement.allowed := true; Entitlement.reason := None;
              Entitlement.expiryDate := Some "2030-01-01" |}
           subscribers);
    [reflexivity | vm_compute; reflexivity | reflexivity | reflexivity].
Defined.

(** X30: at sign-in the refusal is honoured.  When the form is
    submitted for an account that is active on another device, the
    registration is refused and signs the user out at the identity
    provider, and [handleSignin] stops there: [loadUser] is not called,
    no user and no entitlement flag are set, no view is switched, and
    the submit button is restored. *)
Theorem handleSignin_honours_refusal
    (a : answers) (sa : Session.answers) (ea : Entitlement.answers)
    (Date_parse : string -> option Z) (w : world) (u : user) (A B : string)
    (r : Session.session_row) :
  signInWithPassword a = SignsIn (Some u) ->
  Session.localStorage (session w) !! Session.KEY = Some B -> B <> EmptyString ->
  Session.select_reply sa = Answers ->
  Session.active_sessions (session w) !! id u = Some r ->
  Session.is_active r = Some true -> Session.device_id r = Some A ->
  A <> EmptyString -> A <> B ->
  exists w',
    handleSignin a sa ea Date_parse w = (Normal tt, w')
    /\ currentUser w' = currentUser w /\ isUserApproved w' = isUserApproved w
    /\ entitlement w' = entitlement w
    /\ ui w' = ui w ++ [SubmitButtonBusy; SubmitButtonRestored]
    /\ Session.AuthSignOut ∈ Session.trace (session w')
    /\ Session.active_sessions (session w') = Session.active_sessions (session w)
    /\ Session._heartbeatIntervalId (session w') = Session._heartbeatIntervalId (session w)
    /\ Session._sessionChannel (session w') = Session._sessionChannel (session w).
Proof.
  intros Hin Hk HB Hsel Hr Hact Hdev HA HAB.
  destruct (registerSessionForUser_refuses sa u (session w) B A r
              Hk HB Hsel Hr Hact Hdev HA HAB) as (s' & Hreg & Htb & Hh & Hc & Hso).
  destruct w as [s t cu ap shown]. cbn in Hreg, Htb, Hh, Hc |- *.
  unfold handleSignin, try_finally, try_catch. rewrite Hin.
  unfold emit, in_session, modify, bind, ret. cbn. rewrite Hreg. cbn.
  eexists. split; [reflexivity |]. cbn. rewrite <- !app_assoc. by split_and!.
Qed.

Lemma handleSignin_honours_refusal_witness :
  exists w',
    handleSignin known_user healthy mid_2025 toy_Date_parse reloading = (Normal tt, w')
    /\ currentUser w' = None /\ isUserApproved w' = false
    /\ ui w' = [SubmitButtonBusy; SubmitButtonRestored].
Proof.
  destruct (handleSignin_honours_refusal known_user healthy mid_2025 toy_Date_parse
              reloading alice_mail "device-A" "device-B" (row_of "device-A" true "S"))
    as (w' & Hrun & Hu & Hap & _ & Hui & _);
    [reflexivity | reflexivity | discriminate | reflexivity | reflexivity | reflexivity
    | reflexivity | discriminate | discriminate |].
  exists w'. by split_and!.
Defined.

End LoadingTheUser.
